(** * CS-HANDOFF: status policy, feed ordering, resolve flow and relay endpoints

    A shallow embedding of the TypeScript sources of the shift-handoff
    application, and the properties its specification states about them.

    Layout: the JavaScript primitives the sources rely on; the calls to
    the hosted backend and a reference backend to run them against; one
    module per source file (the definitions keep the names they have in
    the file); the vocabulary of the properties and the sample data; then
    the lemmas. *)

From Stdlib Require Import ZArith Lia Bool List String Ascii.
From Stdlib Require Import Sorting.Sorted Sorting.Permutation.
From stdpp Require Import base option list strings pretty gmap.

Local Open Scope string_scope.
Local Open Scope Z_scope.

(** ** JavaScript primitives *)

(** Strings are sequences of code units.  A character of [string] stands
    for one code unit in the range 0..255 (Basic Latin and Latin-1);
    strings with code units above U+00FF are outside the model. *)
Module JS.

(** [WhiteSpace] and [LineTerminator] code units below 256: TAB, LF, VT,
    FF, CR, SP and NBSP.  These are what [String.prototype.trim] strips
    and what the regular-expression class [\s] matches. *)
Definition isWhiteSpace (c : ascii) : bool :=
  let n := N_of_ascii c in
  ((9 <=? n) && (n <=? 13) || (n =? 32) || (n =? 160))%N.

(** [LineTerminator] code units below 256 (LF and CR): the regular
    expression atom [.] matches everything else. *)
Definition isLineTerminator (c : ascii) : bool :=
  let n := N_of_ascii c in ((n =? 10) || (n =? 13))%N.

Fixpoint trimStart (s : string) : string :=
  match s with
  | String c s' => if isWhiteSpace c then trimStart s' else s
  | EmptyString => EmptyString
  end.

Fixpoint trimEnd (s : string) : string :=
  match s with
  | EmptyString => EmptyString
  | String c s' =>
      match trimEnd s' with
      | EmptyString => if isWhiteSpace c then EmptyString else String c EmptyString
      | t => String c t
      end
  end.

(** [s.trim()] *)
Definition trim (s : string) : string := trimEnd (trimStart s).

(** Lower-casing of one code unit: A-Z, and the Latin-1 capitals
    U+00C0..U+00DE except the multiplication sign U+00D7. *)
Definition lowerChar (c : ascii) : ascii :=
  let n := N_of_ascii c in
  if ((65 <=? n) && (n <=? 90)
      || (192 <=? n) && (n <=? 222) && negb (n =? 215))%N
  then ascii_of_N (n + 32) else c.

(** [s.toLowerCase()] *)
Fixpoint toLowerCase (s : string) : string :=
  match s with
  | EmptyString => EmptyString
  | String c s' => String (lowerChar c) (toLowerCase s')
  end.

(** [s.slice(0, n)] for a non-negative [n] *)
Fixpoint slice0 (n : nat) (s : string) : string :=
  match n, s with
  | S n', String c s' => String c (slice0 n' s')
  | _, _ => EmptyString
  end.

(** [s.includes(t)] *)
Fixpoint includes (s t : string) : bool :=
  String.prefix t s ||
  match s with
  | EmptyString => false
  | String _ s' => includes s' t
  end.

(** A string-valued field that may be [null] or [undefined] is an
    [option string]; [x || d] falls back to [d] when [x] is absent or the
    empty string. *)
Definition truthy (x : option string) : bool :=
  match x with
  | Some (String _ _) => true
  | _ => false
  end.

Definition orStr (x : option string) (d : string) : string :=
  match x with
  | Some (String c s) => String c s
  | _ => d
  end.

(** Values read from a parsed request body.  [VOther] stands for any
    value that is not [undefined], [null] or a string and that converts
    to a string (a number, a boolean, an array, a plain object) and
    carries what the sources observe of it: its truthiness and its
    [String(v)] text.  [VOpaque] stands for an object that does not
    convert: the body [{"toString": 1}] parses to one, its [toString] is
    not callable and its [valueOf] yields the object, so [String(v)] and
    a template literal throw a [TypeError], whose message is [thrown]. *)
Inductive value : Type :=
| VUndefined
| VNull
| VString (s : string)
| VOther (truth : bool) (text : string)
| VOpaque (thrown : string).

(** [ToBoolean]; an object is truthy *)
Definition toBoolean (v : value) : bool :=
  match v with
  | VString (String _ _) => true
  | VOther b _ => b
  | VOpaque _ => true
  | _ => false
  end.

(** [String(v)], also the text a template literal inserts: [inr] the
    text, or [inl] the message of the exception thrown *)
Definition toString (v : value) : string + string :=
  match v with
  | VUndefined => inr "undefined"
  | VNull => inr "null"
  | VString s => inr s
  | VOther _ t => inr t
  | VOpaque msg => inl msg
  end.

(** [`${a}${v}${b}`] *)
Definition template (a : string) (v : value) (b : string) : string + string :=
  match toString v with
  | inl msg => inl msg
  | inr t => inr (a ++ t ++ b)
  end.

(** [a || b] *)
Definition or (a b : value) : value := if toBoolean a then a else b.

Definition ofOption (x : option string) : value :=
  match x with
  | Some s => VString s
  | None => VUndefined
  end.

(** Numbers, as far as the comparator of the feed needs them: the time
    value of a [Date] is an integral number of milliseconds, or [NaN] for
    an invalid date. *)
Inductive num : Type :=
| NaN
| Num (z : Z).

(** [x - y].  Time values are integers of magnitude at most 8.64e15, so
    the double-precision difference of two of them has the sign of the
    exact difference, and is zero only when they are equal; the sign is
    all [Array.prototype.sort] reads. *)
Definition sub (x y : num) : num :=
  match x, y with
  | Num a, Num b => Num (a - b)
  | _, _ => NaN
  end.

(** [SortCompare]: the comparator's result [v] is read as a number, [NaN]
    counts as [+0], and [x] is placed after [y] when [v > 0]. *)
Definition isPositive (v : num) : bool :=
  match v with
  | Num z => 0 <? z
  | NaN => false
  end.

(** [arr.sort(cmp)] on a copy of the array.  ECMAScript requires the sort
    to be stable and, for a consistent comparator, to return the ordered
    permutation; it leaves the algorithm open.  Insertion from the right
    is the model: an element moves behind the elements that follow it only
    while the comparator is positive, so ties keep their input order. *)
Section Sort.
Context {A : Type} (cmp : A -> A -> num).

Fixpoint insert (x : A) (l : list A) : list A :=
  match l with
  | [] => [x]
  | y :: l' => if isPositive (cmp x y) then y :: insert x l' else x :: l
  end.

Definition sort (l : list A) : list A := fold_right insert [] l.

End Sort.

End JS.

(** ** Rows of the [handoffs] table, as the screens read them

    The two timestamp columns are kept as the time value that
    [new Date(column).getTime()] yields for the stored text: this is the
    only way the sources read them.  [last_update_at] is [None] when the
    column is [null] or missing. *)
Record HandoffRow : Type := {
  id : string;
  created_at : JS.num;
  summary : string;
  category : string;
  priority : string;
  location_code : option string;
  status : option string;
  last_update_at : option JS.num
}.

(** [new Date(a.last_update_at ?? a.created_at).getTime()] *)
Definition effectiveTime (a : HandoffRow) : JS.num :=
  match last_update_at a with
  | Some t => t
  | None => created_at a
  end.

(** The feed's ordering and visibility policy.  The three feed files carry
    the same text for it and differ in the [isResolvedStatus] in scope, so
    it is written once over that function. *)
Section FeedPolicy.
Variable isResolvedStatus : option string -> bool.

(** The arrow function handed to [sort]. *)
Definition compareHandoffs (a b : HandoffRow) : JS.num :=
  let ar := isResolvedStatus (status a) in
  let br := isResolvedStatus (status b) in
  if negb (Bool.eqb ar br) then (if ar then JS.Num 1 else JS.Num (-1))
  else
    let at_ := effectiveTime a in
    let bt := effectiveTime b in
    JS.sub bt at_.

Definition visibleHandoffsWith (showResolved : bool) (handoffs : list HandoffRow)
  : list HandoffRow :=
  let sorted := JS.sort compareHandoffs handoffs in
  if showResolved then sorted
  else List.filter (fun h => negb (isResolvedStatus (status h))) sorted.

End FeedPolicy.

(** ** The hosted backend, as the sources call it

    Every [await] on the backend client is one [call]; its index is the
    type of what the promise resolves to.  The client does not throw: a
    failure comes back in the [error] field. *)

(** [{ data, error }] *)
Record reply (D : Type) : Type := {
  data : option D;
  error : option string
}.
Arguments data {D} _.
Arguments error {D} _.

(** [session.user] and [userData.user] *)
Record User : Type := {
  user_id : string;
  user_email : option string
}.

(** A row of [profiles], restricted to the selected columns. *)
Record Profile : Type := {
  display_name : option string;
  shift : option string
}.

(** A row of [handoff_updates].  [handoff_id] holds the value the writer
    passed: a route takes it from the request body as it comes. *)
Record UpdateRow : Type := {
  update_id : string;
  update_created_at : Z;
  handoff_id : JS.value;
  author_user_id : option string;
  author_display_name_snapshot : option string;
  source : string;
  message : string
}.

(** The object handed to [from("handoff_updates").insert]. *)
Record UpdateInsert : Type := {
  ins_handoff_id : JS.value;
  ins_author_user_id : option string;
  ins_author_display_name_snapshot : string;
  ins_source : string;
  ins_message : string
}.

(** The object handed to [from("handoffs").update]: [status] always, and
    [last_update_at] when the caller stamps it. *)
Record HandoffPatch : Type := {
  patch_status : string;
  patch_last_update_at : option Z
}.

(** A row returned by [.select("id, status, last_update_at")]. *)
Record UpdatedRow : Type := {
  updated_id : string;
  updated_status : option string;
  updated_last_update_at : option JS.num
}.

(** Which client issues a table request: the browser's, under the
    signed-in user and row-level security, or a route's, under the service
    key. *)
Inductive client : Type := Browser | Service.

Inductive call : Type -> Type :=
| GetSession : call (reply User)
    (* supabase.auth.getSession(); [data] is [session?.user] *)
| GetUser (accessToken : string) : call (reply User)
    (* supabaseAnon.auth.getUser(accessToken) *)
| SelectProfile (uid : string) : call (reply Profile)
    (* from("profiles").select(..).eq("user_id", uid).maybeSingle() *)
| SelectHandoffs : call (reply (list HandoffRow))
    (* from("handoffs").select(..).order(..).order(..) *)
| SelectHandoff (id : string) : call (reply HandoffRow)
    (* from("handoffs").select(..).eq("id", id).single() *)
| SelectUpdates (id : string) : call (reply (list UpdateRow))
    (* from("handoff_updates").select(..).eq("handoff_id", id).order(..) *)
| SelectToken (token : string) : call (reply (option string))
    (* from("handoff_tokens").select("handoff_id").eq("token", token).single();
       [data] is [mapRow.handoff_id] *)
| UpdateHandoff (c : client) (id : string) (p : HandoffPatch) (returning : bool)
    : call (reply (list UpdatedRow))
    (* from("handoffs").update(p).eq("id", id), followed by .select(..)
       when [returning] *)
| InsertUpdate (c : client) (row : UpdateInsert) : call (option string)
    (* from("handoff_updates").insert(row); the reply is [error] *)
| RouterPush (path : string) : call unit
    (* router.push(path) *)
| Now : call Z.
    (* new Date(): the current time value *)

(** An [async] function: a finite tree of calls, each continued with the
    reply. *)
Inductive prog (R : Type) : Type :=
| Ret (r : R)
| Do {X : Type} (c : call X) (k : X -> prog R).
Arguments Ret {R} r.
Arguments Do {R X} c k.

Fixpoint bind {R S : Type} (p : prog R) (f : R -> prog S) : prog S :=
  match p with
  | Ret r => f r
  | Do c k => Do c (fun x => bind (k x) f)
  end.

Notation "'await' x <- c ; k" := (Do c (fun x => k))
  (at level 10, x name, c at level 100, k at level 200).
Notation "'awaits' x <- p ; k" := (bind p (fun x => k))
  (at level 10, x name, p at level 100, k at level 200).

(** A request as it went out, for the log of a run. *)
Definition request : Type := sigT call.
Definition Request {X : Type} (c : call X) : request := existT X c.

(** A backend answers each call from its state. *)
Definition backend (W : Type) : Type := forall X : Type, call X -> W -> X * W.

(** Running an [async] function against a backend: the result, the final
    backend state and the requests in the order they were issued. *)
Fixpoint run {W R : Type} (b : backend W) (p : prog R) (w : W)
  : R * W * list request :=
  match p with
  | Ret r => (r, w, [])
  | Do c k =>
      let (x, w1) := b _ c w in
      let '(r, w2, log) := run b (k x) w1 in
      (r, w2, Request c :: log)
  end.

(** Requests that change a table. *)
Definition isWrite (q : request) : bool :=
  match projT2 q with
  | UpdateHandoff _ _ _ _ => true
  | InsertUpdate _ _ => true
  | _ => false
  end.

(** Requests that read the [handoffs] table. *)
Definition isHandoffRead (q : request) : bool :=
  match projT2 q with
  | SelectHandoffs => true
  | SelectHandoff _ => true
  | _ => false
  end.

(** ** A reference backend

    The hosted database is outside the repository.  This state machine
    is the behaviour the sources count on: tables keyed by their primary
    key, an append-only [handoff_updates] table, a row-level-security
    switch for the browser's UPDATE on [handoffs] (a blocked update
    changes nothing and reports no error), and a [fault] that makes a
    request come back with an error instead of being carried out.  The
    feed query returns the rows in the order of their keys: the feed
    sorts what it is given. *)
Module Hosted.

Record world : Type := {
  session : reply User;
  accounts : gmap string User;
  profiles : gmap string Profile;
  handoffs : gmap string HandoffRow;
  updates : list UpdateRow;
  tokens : gmap string string;
  may_update : bool;
  fault : request -> option string;
  clock : Z;
  route : list string
}.

Definition failed {D : Type} (msg : string) : reply D :=
  {| data := None; error := Some msg |}.

Definition fine {D : Type} (d : D) : reply D :=
  {| data := Some d; error := None |}.

Definition withHandoffs (m : gmap string HandoffRow) (w : world) : world :=
  {| session := session w; accounts := accounts w; profiles := profiles w;
     handoffs := m; updates := updates w; tokens := tokens w;
     may_update := may_update w; fault := fault w; clock := clock w;
     route := route w |}.

Definition withUpdates (l : list UpdateRow) (w : world) : world :=
  {| session := session w; accounts := accounts w; profiles := profiles w;
     handoffs := handoffs w; updates := l; tokens := tokens w;
     may_update := may_update w; fault := fault w; clock := clock w;
     route := route w |}.

Definition withRoute (l : list string) (w : world) : world :=
  {| session := session w; accounts := accounts w; profiles := profiles w;
     handoffs := handoffs w; updates := updates w; tokens := tokens w;
     may_update := may_update w; fault := fault w; clock := clock w;
     route := l |}.

Definition applyPatch (p : HandoffPatch) (h : HandoffRow) : HandoffRow :=
  {| id := id h; created_at := created_at h; summary := summary h;
     category := category h; priority := priority h;
     location_code := location_code h;
     status := Some (patch_status p);
     last_update_at :=
       match patch_last_update_at p with
       | Some t => Some (JS.Num t)
       | None => last_update_at h
       end |}.

Definition returned (h : HandoffRow) : UpdatedRow :=
  {| updated_id := id h; updated_status := status h;
     updated_last_update_at := last_update_at h |}.

Definition stored (w : world) (row : UpdateInsert) : UpdateRow :=
  {| update_id := pretty (length (updates w));
     update_created_at := clock w;
     handoff_id := ins_handoff_id row;
     author_user_id := ins_author_user_id row;
     author_display_name_snapshot := Some (ins_author_display_name_snapshot row);
     source := ins_source row;
     message := ins_message row |}.

Definition isFor (hid : string) (u : UpdateRow) : bool :=
  match handoff_id u with
  | JS.VString s => String.eqb s hid
  | _ => false
  end.

Definition serve : backend world :=
  fun X c =>
    match c in call X return world -> X * world with
    | GetSession => fun w => (session w, w)
    | GetUser accessToken => fun w =>
        match fault w (Request (GetUser accessToken)) with
        | Some msg => (failed msg, w)
        | None =>
            match accounts w !! accessToken with
            | Some u => (fine u, w)
            | None => (failed "invalid JWT", w)
            end
        end
    | SelectProfile uid => fun w =>
        match fault w (Request (SelectProfile uid)) with
        | Some msg => (failed msg, w)
        | None => ({| data := profiles w !! uid; error := None |}, w)
        end
    | SelectHandoffs => fun w =>
        match fault w (Request SelectHandoffs) with
        | Some msg => (failed msg, w)
        | None => (fine (snd <$> map_to_list (handoffs w)), w)
        end
    | SelectHandoff hid => fun w =>
        match fault w (Request (SelectHandoff hid)) with
        | Some msg => (failed msg, w)
        | None =>
            match handoffs w !! hid with
            | Some h => (fine h, w)
            | None => (failed "no rows returned", w)
            end
        end
    | SelectUpdates hid => fun w =>
        match fault w (Request (SelectUpdates hid)) with
        | Some msg => (failed msg, w)
        | None => (fine (rev (List.filter (isFor hid) (updates w))), w)
        end
    | SelectToken token => fun w =>
        match fault w (Request (SelectToken token)) with
        | Some msg => (failed msg, w)
        | None =>
            match tokens w !! token with
            | Some hid => (fine (Some hid), w)
            | None => (failed "no rows returned", w)
            end
        end
    | UpdateHandoff cl hid p returning => fun w =>
        let rows (l : list UpdatedRow) : reply (list UpdatedRow) :=
          {| data := if returning then Some l else None; error := None |} in
        match fault w (Request (UpdateHandoff cl hid p returning)) with
        | Some msg => (failed msg, w)
        | None =>
            let admitted :=
              match cl with
              | Service => true
              | Browser => may_update w
              end in
            match handoffs w !! hid with
            | Some h =>
                if admitted then
                  let h' := applyPatch p h in
                  (rows [returned h'], withHandoffs (<[hid := h']> (handoffs w)) w)
                else (rows [], w)
            | None => (rows [], w)
            end
        end
    | InsertUpdate cl row => fun w =>
        match fault w (Request (InsertUpdate cl row)) with
        | Some msg => (Some msg, w)
        | None => (None, withUpdates (updates w ++ [stored w row]) w)
        end
    | RouterPush path => fun w => (tt, withRoute (route w ++ [path]) w)
    | Now => fun w => (clock w, w)
    end.

End Hosted.

(** ** Detail screen (src/unnamed/part_000) *)
Module Detail.

Definition isResolvedStatus (status : option string) : bool :=
  let s := JS.toLowerCase (JS.trim (JS.orStr status "open")) in
  String.eqb s "resolved".

(** The [useState] cells that [load] and [markResolved] touch. *)
Record Screen : Type := {
  loading : bool;
  errorMsg : option string;
  handoff : option HandoffRow;
  updates : list UpdateRow;
  resolving : bool;
  toast : option string
}.

Definition setLoading (v : bool) (st : Screen) : Screen :=
  {| loading := v; errorMsg := errorMsg st; handoff := handoff st;
     updates := updates st; resolving := resolving st; toast := toast st |}.

Definition setErrorMsg (v : option string) (st : Screen) : Screen :=
  {| loading := loading st; errorMsg := v; handoff := handoff st;
     updates := updates st; resolving := resolving st; toast := toast st |}.

Definition setHandoff (v : option HandoffRow) (st : Screen) : Screen :=
  {| loading := loading st; errorMsg := errorMsg st; handoff := v;
     updates := updates st; resolving := resolving st; toast := toast st |}.

Definition setUpdates (v : list UpdateRow) (st : Screen) : Screen :=
  {| loading := loading st; errorMsg := errorMsg st; handoff := handoff st;
     updates := v; resolving := resolving st; toast := toast st |}.

Definition setResolving (v : bool) (st : Screen) : Screen :=
  {| loading := loading st; errorMsg := errorMsg st; handoff := handoff st;
     updates := updates st; resolving := v; toast := toast st |}.

Definition setToast (v : option string) (st : Screen) : Screen :=
  {| loading := loading st; errorMsg := errorMsg st; handoff := handoff st;
     updates := updates st; resolving := resolving st; toast := v |}.

(** [routeId] is the route parameter [params?.id], the [id] of the source. *)
Definition load (routeId : option string) (st : Screen) : prog Screen :=
  if negb (JS.truthy routeId) then Ret st
  else
    let st := setLoading true st in
    let st := setErrorMsg None st in
    await sess <- GetSession;
    if negb (JS.truthy (user_id <$> data sess)) then
      Ret (setLoading false (setErrorMsg (Some "Not signed in.") st))
    else
      await h <- SelectHandoff (JS.orStr routeId "");
      match error h with
      | Some msg => Ret (setLoading false (setErrorMsg (Some msg) st))
      | None =>
          await u <- SelectUpdates (JS.orStr routeId "");
          match error u with
          | Some msg => Ret (setLoading false (setErrorMsg (Some msg) st))
          | None =>
              let st := setHandoff (data h) st in
              let st := setUpdates (default [] (data u)) st in
              Ret (setLoading false st)
          end
      end.

(** [{ ...prev, status: updated.status, last_update_at: updated.last_update_at }] *)
Definition patched (updated : UpdatedRow) (prev : HandoffRow) : HandoffRow :=
  {| id := id prev; created_at := created_at prev;
     summary := summary prev; category := category prev;
     priority := priority prev; location_code := location_code prev;
     status := updated_status updated;
     last_update_at := updated_last_update_at updated |}.

Definition rlsMessage : string :=
  "0 rows updated. RLS is blocking UPDATE on handoffs. Fix Supabase policy for UPDATE.".

(** The text of the toast without its leading check mark (U+2705, outside
    the modelled range of code units). *)
Definition resolvedToast : string := "Marked resolved.".

Definition markResolved (routeId : option string) (st : Screen) : prog Screen :=
  let st := setToast None st in
  let st := setErrorMsg None st in
  if negb (JS.truthy (id <$> handoff st)) then Ret st
  else
    let hid := JS.orStr (id <$> handoff st) "" in
    let st := setResolving true st in
    await now <- Now;
    await r <- UpdateHandoff Browser hid
      {| patch_status := "resolved"; patch_last_update_at := Some now |} true;
    match error r with
    | Some msg =>
        (* throw error; caught below *)
        Ret (setResolving false (setErrorMsg (Some msg) st))
    | None =>
        match data r with
        | None | Some [] =>
            (* throw new Error(..); caught below *)
            Ret (setResolving false (setErrorMsg (Some rlsMessage) st))
        | Some (updated :: _) =>
            let st := setHandoff (patched updated <$> handoff st) st in
            let st := setToast (Some resolvedToast) st in
            awaits st <- load routeId st;
            Ret (setResolving false st)
        end
    end.

(** [isResolvedStatus(handoff?.status)] *)
Definition resolvedNow (st : Screen) : bool :=
  isResolvedStatus (handoff st ≫= status).

(** The "Mark Resolved" button: rendered when [!loading && handoff], with
    [disabled={resolving || resolvedNow}]; a click on a button that is
    disabled or not rendered runs nothing. *)
Definition buttonEnabled (st : Screen) : bool :=
  negb (loading st) && bool_decide (is_Some (handoff st))
  && negb (resolving st || resolvedNow st).

Definition clickMarkResolved (routeId : option string) (st : Screen)
  : prog Screen :=
  if buttonEnabled st then markResolved routeId st else Ret st.

End Detail.

(** ** State of a feed screen (the same cells in the three feed files) *)
Module FeedScreen.

Record t : Type := {
  sessionEmail : option string;
  userId : option string;
  loading : bool;
  errorMsg : option string;
  handoffs : list HandoffRow;
  showResolved : bool
}.

Definition setSessionEmail (v : option string) (st : t) : t :=
  {| sessionEmail := v; userId := userId st; loading := loading st;
     errorMsg := errorMsg st; handoffs := handoffs st;
     showResolved := showResolved st |}.

Definition setUserId (v : option string) (st : t) : t :=
  {| sessionEmail := sessionEmail st; userId := v; loading := loading st;
     errorMsg := errorMsg st; handoffs := handoffs st;
     showResolved := showResolved st |}.

Definition setLoading (v : bool) (st : t) : t :=
  {| sessionEmail := sessionEmail st; userId := userId st; loading := v;
     errorMsg := errorMsg st; handoffs := handoffs st;
     showResolved := showResolved st |}.

Definition setErrorMsg (v : option string) (st : t) : t :=
  {| sessionEmail := sessionEmail st; userId := userId st;
     loading := loading st; errorMsg := v; handoffs := handoffs st;
     showResolved := showResolved st |}.

Definition setHandoffs (v : list HandoffRow) (st : t) : t :=
  {| sessionEmail := sessionEmail st; userId := userId st;
     loading := loading st; errorMsg := errorMsg st; handoffs := v;
     showResolved := showResolved st |}.

(** The tail shared by the three [loadSessionAndFeed]: the feed fetch. *)
Definition fetchFeed (st : t) : prog t :=
  await r <- SelectHandoffs;
  match error r with
  | Some msg => Ret (setLoading false (setErrorMsg (Some msg) st))
  | None => Ret (setLoading false (setHandoffs (default [] (data r)) st))
  end.

End FeedScreen.

(** ** Feed with the onboarding gate (src/unnamed/part_001) *)
Module GatedFeed.

Definition normStatus (status : option string) : string :=
  JS.toLowerCase (JS.trim (JS.orStr status "open")).

Definition isResolvedStatus (status : option string) : bool :=
  String.eqb (normStatus status) "resolved".

Definition isFollowupStatus (status : option string) : bool :=
  String.eqb (normStatus status) "needs_followup".

(** The text rendered by [StatusPill]. *)
Definition StatusPill (status : option string) : string :=
  let s := normStatus status in
  let resolved := String.eqb s "resolved" in
  let followup := String.eqb s "needs_followup" in
  if resolved then "RESOLVED" else if followup then "FOLLOW-UP" else "OPEN".

Definition visibleHandoffs := visibleHandoffsWith isResolvedStatus.

Definition loadSessionAndFeed (st : FeedScreen.t) : prog FeedScreen.t :=
  let st := FeedScreen.setErrorMsg None st in
  let st := FeedScreen.setLoading true st in
  await sess <- GetSession;
  match error sess with
  | Some msg =>
      Ret (FeedScreen.setLoading false (FeedScreen.setErrorMsg (Some msg) st))
  | None =>
      let email := data sess ≫= user_email in
      let uid := user_id <$> data sess in
      let st := FeedScreen.setSessionEmail email st in
      let st := FeedScreen.setUserId uid st in
      if negb (JS.truthy uid) then
        Ret (FeedScreen.setLoading false (FeedScreen.setHandoffs [] st))
      else
        await prof <- SelectProfile (JS.orStr uid "");
        match error prof with
        | Some msg =>
            Ret (FeedScreen.setLoading false
                   (FeedScreen.setErrorMsg (Some msg) st))
        | None =>
            let dn := JS.trim (JS.orStr (data prof ≫= display_name) "") in
            let sh := JS.trim (JS.orStr (data prof ≫= shift) "") in
            if String.eqb dn "" || String.eqb sh "" then
              let st := FeedScreen.setLoading false st in
              await _ <- RouterPush "/onboarding";
              Ret st
            else FeedScreen.fetchFeed st
        end
  end.

End GatedFeed.

(** ** Feed without the gate (src/unnamed/part_002) *)
Module PlainFeed.

Definition isResolvedStatus (status : option string) : bool :=
  let s := JS.toLowerCase (JS.trim (JS.orStr status "open")) in
  String.eqb s "resolved".

Definition StatusPill (status : option string) : string :=
  let s := JS.toLowerCase (JS.trim (JS.orStr status "open")) in
  let resolved := String.eqb s "resolved" in
  let followup := String.eqb s "needs_followup" in
  if resolved then "RESOLVED" else if followup then "FOLLOW-UP" else "OPEN".

Definition visibleHandoffs := visibleHandoffsWith isResolvedStatus.

Definition loadSessionAndFeed (st : FeedScreen.t) : prog FeedScreen.t :=
  let st := FeedScreen.setErrorMsg None st in
  let st := FeedScreen.setLoading true st in
  await sess <- GetSession;
  match error sess with
  | Some msg =>
      Ret (FeedScreen.setLoading false (FeedScreen.setErrorMsg (Some msg) st))
  | None =>
      let email := data sess ≫= user_email in
      let uid := user_id <$> data sess in
      let st := FeedScreen.setSessionEmail email st in
      let st := FeedScreen.setUserId uid st in
      if negb (JS.truthy uid) then
        Ret (FeedScreen.setLoading false (FeedScreen.setHandoffs [] st))
      else FeedScreen.fetchFeed st
  end.

End PlainFeed.

(** ** Feed of src/src/app/page.tsx *)
Module AppFeed.

(** No [trim] here, and ["closed"] counts as resolved. *)
Definition isResolvedStatus (status : option string) : bool :=
  let s := JS.toLowerCase (JS.orStr status "open") in
  String.eqb s "resolved" || String.eqb s "closed".

Definition StatusPill (status : option string) : string :=
  let isClosed := isResolvedStatus status in
  if isClosed then "RESOLVED" else "OPEN".

Definition visibleHandoffs := visibleHandoffsWith isResolvedStatus.

Definition loadSessionAndFeed (st : FeedScreen.t) : prog FeedScreen.t :=
  let st := FeedScreen.setErrorMsg None st in
  let st := FeedScreen.setLoading true st in
  await sess <- GetSession;
  match error sess with
  | Some msg =>
      Ret (FeedScreen.setLoading false (FeedScreen.setErrorMsg (Some msg) st))
  | None =>
      let email := data sess ≫= user_email in
      let uid := user_id <$> data sess in
      let st := FeedScreen.setSessionEmail email st in
      let st := FeedScreen.setUserId uid st in
      if negb (JS.truthy uid) then
        Ret (FeedScreen.setLoading false (FeedScreen.setHandoffs [] st))
      else FeedScreen.fetchFeed st
  end.

End AppFeed.

(** ** Route handlers: requests and responses *)

(** What a handler reads of a [NextRequest]: three headers, and the body
    through [req.json()] or through [new URLSearchParams(await req.text())].
    [json] is [inl msg] when [req.json()] rejects, or resolves to [null] so
    that reading a field throws; [msg] is the message of the exception.
    Otherwise it gives each field of the parsed value ([VUndefined] for a
    field that is not there). *)
Record NextRequest : Type := {
  authorization : option string;
  x_webhook_secret : option string;
  content_type : option string;
  json : string + (string -> JS.value);
  form : list (string * string)
}.

(** [params.get(k)]: the first value given for [k]. *)
Fixpoint formGet (entries : list (string * string)) (k : string) : option string :=
  match entries with
  | [] => None
  | (k', v) :: rest => if String.eqb k' k then Some v else formGet rest k
  end.

(** [Object.fromEntries(params.entries())[k]]: the last value given for [k]. *)
Definition fromEntries (entries : list (string * string)) (k : string) : JS.value :=
  JS.ofOption (formGet (rev entries) k).

(** The JSON objects the handlers answer with. *)
Inductive ResponseBody : Type :=
| Ok                     (* { ok: true } *)
| OkSkipped              (* { ok: true, skipped: true } *)
| OkAlerted              (* { ok: true, alerted: true } *)
| Error (msg : string).  (* { error: msg } *)

Record NextResponse : Type := {
  code : Z;
  body : ResponseBody
}.

(** [NextResponse.json(body)] and [NextResponse.json(body, { status })] *)
Definition respond (b : ResponseBody) : NextResponse := {| code := 200; body := b |}.
Definition respondWith (b : ResponseBody) (st : Z) : NextResponse :=
  {| code := st; body := b |}.

(** The [catch] of every handler: [{ error: e?.message || "Server error" }], 500. *)
Definition serverError (msg : string) : NextResponse :=
  respondWith (Error (JS.orStr (Some msg) "Server error")) 500.

(** An expression of a handler's [try] block that may throw: the
    exception ends the handler in its [catch]. *)
Notation "'try' x <- e ; k" :=
  (match e with
   | inl msg => Ret (serverError msg)
   | inr x => k
   end)
  (at level 10, x name, e at level 100, k at level 200).

(** ** /api/sms/alert (src/src/app/api/sms/alert/route.ts) *)
Module SmsAlert.

Definition POST (webhookSecret : option string) (req : NextRequest)
  : prog NextResponse :=
  if JS.truthy webhookSecret
     && (negb (JS.truthy (x_webhook_secret req))
         || negb (String.eqb (JS.orStr (x_webhook_secret req) "")
                             (JS.orStr webhookSecret "")))
  then Ret (respondWith (Error "Unauthorized") 401)
  else
    let contentType := JS.orStr (content_type req) "" in
    let parsed : string + (string -> JS.value) :=
      if JS.includes contentType "application/json" then json req
      else inr (fromEntries (form req)) in
    match parsed with
    | inl msg => Ret (serverError msg)
    | inr payload =>
        let handoff_id := JS.or (payload "handoff_id") (payload "handoffId") in
        let from := JS.or (JS.or (payload "from") (payload "From")) JS.VNull in
        let message := JS.or (payload "message") (payload "Body") in
        if negb (JS.toBoolean handoff_id) || negb (JS.toBoolean message) then
          Ret (respondWith (Error "handoff_id and message are required") 400)
        else
          (* the fields of the inserted object, in the order they are
             written: `sms:${from}` and String(message) may throw *)
          try snapshot <-
            (if JS.toBoolean from then JS.template "sms:" from "" else inr "sms");
          try text <- JS.toString message;
          await err <- InsertUpdate Service
            {| ins_handoff_id := handoff_id;
               ins_author_user_id := None;
               ins_author_display_name_snapshot := snapshot;
               ins_source := "sms";
               ins_message := JS.trim text |};
          match err with
          | Some msg => Ret (respondWith (Error msg) 400)
          | None => Ret (respond Ok)
          end
    end.

End SmsAlert.

(** ** /api/sms/notify (src/unnamed/part_003) *)
Module SmsNotify.

Definition POST (webhookSecret : option string) (req : NextRequest)
  : prog NextResponse :=
  if JS.truthy webhookSecret
     && (negb (JS.truthy (x_webhook_secret req))
         || negb (String.eqb (JS.orStr (x_webhook_secret req) "")
                             (JS.orStr webhookSecret "")))
  then Ret (respondWith (Error "Unauthorized") 401)
  else
    match json req with
    | inl msg => Ret (serverError msg)
    | inr j =>
        let handoff_id := j "handoff_id" in
        let summary := j "summary" in
        let priority := j "priority" in
        let location_code := j "location_code" in
        if negb (JS.toBoolean handoff_id) || negb (JS.toBoolean priority) then
          Ret (respondWith (Error "handoff_id and priority are required") 400)
        else
          (* String(priority) may throw *)
          try priorityText <- JS.toString priority;
          let p := JS.toLowerCase priorityText in
          if negb (String.eqb p "high") then Ret (respond OkSkipped)
          else
            (* the template of [msg], left to right: ` [${location_code}]`
               and String(summary || "") may throw *)
            try location <-
              (if JS.toBoolean location_code
               then JS.template " [" location_code "]" else inr "");
            try summaryText <- JS.toString (JS.or summary (JS.VString ""));
            let msg :=
              "SYSTEM: SMS ALERT TRIGGERED (high)"
              ++ location
              ++ ": "
              ++ JS.slice0 120 summaryText in
            await err <- InsertUpdate Service
              {| ins_handoff_id := handoff_id;
                 ins_author_user_id := None;
                 ins_author_display_name_snapshot := "system";
                 ins_source := "system";
                 ins_message := msg |};
            match err with
            | Some m => Ret (respondWith (Error m) 400)
            | None => Ret (respond OkAlerted)
            end
    end.

End SmsNotify.

(** ** Inbound relay addressed by token (src/unnamed/part_004, first file) *)
Module SmsInbound.

(** [[A-Za-z0-9]] *)
Definition isAlnum (c : ascii) : bool :=
  let n := N_of_ascii c in
  ((65 <=? n) && (n <=? 90) || (97 <=? n) && (n <=? 122)
   || (48 <=? n) && (n <=? 57))%N.

(** A word character of [\b]: [[A-Za-z0-9_]]. *)
Definition isWordChar (c : ascii) : bool :=
  isAlnum c || (N_of_ascii c =? 95)%N.

(** [\b] right after a word character: the rest is empty or starts with a
    character that is not a word character. *)
Definition boundaryAfterWord (s : string) : bool :=
  match s with
  | EmptyString => true
  | String c _ => negb (isWordChar c)
  end.

(** [[A-Za-z0-9]{lo,hi}\b], greedy: one more character is tried first, and
    the match may stop only once [lo] characters are taken. *)
Fixpoint tokenRun (lo hi : nat) (s : string) : option string :=
  let stop :=
    if Nat.eqb lo 0 && boundaryAfterWord s then Some EmptyString else None in
  match hi, s with
  | S hi', String c s' =>
      if isAlnum c then
        match tokenRun (Nat.pred lo) hi' s' with
        | Some t => Some (String c t)
        | None => stop
        end
      else stop
  | _, _ => stop
  end.

(** [\bH:([A-Za-z0-9]{4,12})\b] tried at the head of [s]; [prevWord]
    tells whether the character before [s] is a word character. *)
Definition tokenHere (prevWord : bool) (s : string) : option string :=
  if prevWord then None
  else
    match s with
    | String "H" (String ":" r) => tokenRun 4 12 r
    | _ => None
    end.

(** The leftmost position where the pattern matches. *)
Fixpoint tokenFrom (prevWord : bool) (s : string) : option string :=
  match tokenHere prevWord s with
  | Some t => Some t
  | None =>
      match s with
      | EmptyString => None
      | String c s' => tokenFrom (isWordChar c) s'
      end
  end.

(** [body.match(/\bH:([A-Za-z0-9]{4,12})\b/)], then [m ? m[1] : null] *)
Definition extractToken (body : string) : option string :=
  tokenFrom false body.

(** The block that fills [message] and [from]: from the form fields
    [Body] and [From] of a form-encoded request, else from the fields
    [message] and [from] of the JSON body ([inl] when [req.json()] or
    the conversion of a field to a string throws). *)
Definition readBody (req : NextRequest) : string + (string * option string) :=
  let contentType := JS.orStr (content_type req) "" in
  if JS.includes contentType "application/x-www-form-urlencoded" then
    let message := JS.orStr (formGet (form req) "Body") "" in
    let from :=
      if JS.truthy (formGet (form req) "From")
      then formGet (form req) "From" else None in
    inr (message, from)
  else
    match json req with
    | inl msg => inl msg
    | inr j =>
        (* String(j.message || "") and String(j.from) may throw *)
        match JS.toString (JS.or (j "message") (JS.VString "")) with
        | inl msg => inl msg
        | inr message =>
            if JS.toBoolean (j "from") then
              match JS.toString (j "from") with
              | inl msg => inl msg
              | inr from => inr (message, Some from)
              end
            else inr (message, None)
        end
    end.

(** The row the relay inserts for [message], sent by [from], on the
    handoff [handoff_id] of the token's mapping. *)
Definition relayed (handoff_id : option string) (from : option string)
  (message : string) : UpdateInsert :=
  {| ins_handoff_id := JS.ofOption handoff_id;
     ins_author_user_id := None;
     ins_author_display_name_snapshot :=
       if JS.truthy from then "sms:" ++ JS.orStr from "" else "sms";
     ins_source := "sms";
     ins_message := message |}.

Definition POST (req : NextRequest) : prog NextResponse :=
  match readBody req with
  | inl msg => Ret (serverError msg)
  | inr (message, from) =>
      let message := JS.trim message in
      let token := extractToken message in
      if negb (JS.truthy token) then
        Ret (respondWith
               (Error "Missing token. Include e.g. H:ABC123 in reply.") 400)
      else
        await mapRow <- SelectToken (JS.orStr token "");
        if bool_decide (is_Some (error mapRow))
           || negb (JS.truthy (mjoin (data mapRow)))
        then Ret (respondWith (Error "Unknown token.") 404)
        else
          await err <- InsertUpdate Service
            (relayed (mjoin (data mapRow)) from message);
          match err with
          | Some msg => Ret (respondWith (Error msg) 400)
          | None => Ret (respond Ok)
          end
  end.

End SmsInbound.

(** ** Server-side resolve (src/unnamed/part_004, second file) *)
Module Resolve.

Fixpoint noLineTerminator (s : string) : bool :=
  match s with
  | EmptyString => true
  | String c s' => negb (JS.isLineTerminator c) && noLineTerminator s'
  end.

(** [\s+(.+)$], greedy: the longest run of white space is tried first,
    and what follows must be non-empty and free of line terminators. *)
Fixpoint bearerRest (r : string) : option string :=
  match r with
  | EmptyString => None
  | String c r' =>
      if JS.isWhiteSpace c then
        match bearerRest r' with
        | Some t => Some t
        | None =>
            if negb (String.eqb r' "") && noLineTerminator r' then Some r'
            else None
        end
      else None
  end.

Fixpoint dropChars (n : nat) (s : string) : string :=
  match n, s with
  | S n', String _ s' => dropChars n' s'
  | _, _ => s
  end.

(** [auth.match(/^Bearer\s+(.+)$/i)], then [m[1]] *)
Definition matchBearer (auth : string) : option string :=
  if String.eqb (JS.toLowerCase (JS.slice0 6 auth)) "bearer"
  then bearerRest (dropChars 6 auth)
  else None.

Definition POST (req : NextRequest) : prog NextResponse :=
  let auth := JS.orStr (authorization req) "" in
  match matchBearer auth with
  | None => Ret (respondWith (Error "Missing bearer token") 401)
  | Some accessToken =>
      await userData <- GetUser accessToken;
      match error userData, data userData with
      | None, Some user =>
          match json req with
          | inl msg => Ret (serverError msg)
          | inr j =>
              let handoff_id := j "handoff_id" in
              if negb (JS.toBoolean handoff_id) then
                Ret (respondWith (Error "handoff_id required") 400)
              else
                (* close handoff; the query builder writes the filter
                   of .eq("id", handoff_id) as `eq.${handoff_id}`, which
                   may throw before the request is made *)
                try hid <- JS.toString handoff_id;
                await upd <- UpdateHandoff Service hid
                  {| patch_status := "closed"; patch_last_update_at := None |}
                  false;
                match error upd with
                | Some msg => Ret (serverError msg)
                | None =>
                    (* audit entry *)
                    let msg :=
                      "SYSTEM: RESOLVED by "
                      ++ default (user_id user) (user_email user) in
                    await insErr <- InsertUpdate Service
                      {| ins_handoff_id := handoff_id;
                         ins_author_user_id := None;
                         ins_author_display_name_snapshot := "system";
                         ins_source := "system";
                         ins_message := msg |};
                    match insErr with
                    | Some m => Ret (serverError m)
                    | None => Ret (respond Ok)
                    end
                end
          end
      | _, _ => Ret (respondWith (Error "Invalid session") 401)
      end
  end.

End Resolve.

(** ** Vocabulary of the properties *)

(** [x] may stand in front of [y]: the comparator is not positive. *)
Definition inOrder {A : Type} (cmp : A -> A -> JS.num) (x y : A) : Prop :=
  JS.isPositive (cmp x y) = false.

(** [x] and [y] tie: the comparator asks for neither order. *)
Definition ties {A : Type} (cmp : A -> A -> JS.num) (x y : A) : bool :=
  negb (JS.isPositive (cmp x y)) && negb (JS.isPositive (cmp y x)).

(** [l'] is a stable sorting of [l], the elements being taken in [D]: a
    permutation of [l] that is ordered, and in which the elements that tie
    with any given one come in the order they have in [l]. *)
Definition stableSorting {A : Type} (cmp : A -> A -> JS.num) (D : A -> Prop)
  (l l' : list A) : Prop :=
  Permutation l' l
  /\ StronglySorted (inOrder cmp) l'
  /\ forall x, D x ->
       List.filter (ties cmp x) l' = List.filter (ties cmp x) l.

(** The effective timestamp is a date: [getTime()] is not [NaN]. *)
Definition validTime (h : HandoffRow) : Prop :=
  exists z : Z, effectiveTime h = JS.Num z.

(** [x <= y] on time values; it fails when either side is [NaN]. *)
Definition notAfter (x y : JS.num) : Prop :=
  match x, y with
  | JS.Num a, JS.Num b => a <= b
  | _, _ => False
  end.

(** Group order: a resolved row is never in front of an unresolved one. *)
Definition groupOrder (isResolvedStatus : option string -> bool)
  (x y : HandoffRow) : Prop :=
  isResolvedStatus (status x) = true -> isResolvedStatus (status y) = true.

(** The two halves of the ordering property, on a list [out]: every
    resolved row has a greater index than every unresolved row; along the
    rows of one group the effective timestamps do not increase. *)
Definition resolvedLast (isResolvedStatus : option string -> bool)
  (out : list HandoffRow) : Prop :=
  forall (i j : nat) (x y : HandoffRow),
    out !! i = Some x -> out !! j = Some y ->
    isResolvedStatus (status x) = true ->
    isResolvedStatus (status y) = false -> (j < i)%nat.

Definition newestFirst (isResolvedStatus : option string -> bool)
  (out : list HandoffRow) : Prop :=
  forall (i j : nat) (x y : HandoffRow),
    (i < j)%nat -> out !! i = Some x -> out !! j = Some y ->
    isResolvedStatus (status x) = isResolvedStatus (status y) ->
    notAfter (effectiveTime y) (effectiveTime x).

(** A string that is empty or starts with something other than white
    space. *)
Definition startsClean (s : string) : Prop :=
  match s with
  | EmptyString => True
  | String c _ => JS.isWhiteSpace c = false
  end.

Fixpoint allAlnum (t : string) : bool :=
  match t with
  | EmptyString => true
  | String c t' => SmsInbound.isAlnum c && allAlnum t'
  end.

(** Whether the character in front of what follows [pre] is a word
    character, [prevWord] telling it for [pre] itself. *)
Fixpoint endsWithWord (prevWord : bool) (pre : string) : bool :=
  match pre with
  | EmptyString => prevWord
  | String c pre' => endsWithWord (SmsInbound.isWordChar c) pre'
  end.

(** [s] reads [pre], then "H:", then a token of 4 to 12 letters and
    digits, then [post], with a word boundary on either side of
    "H:token". *)
Record tokenOccurs (prevWord : bool) (s pre tok post : string) : Prop := {
  occ_split : s = pre ++ "H:" ++ tok ++ post;
  occ_before : endsWithWord prevWord pre = false;
  occ_length : (4 <= String.length tok <= 12)%nat;
  occ_alnum : allAlnum tok = true;
  occ_after : SmsInbound.boundaryAfterWord post = true
}.

Definition containsToken (body : string) : Prop :=
  exists pre tok post : string, tokenOccurs false body pre tok post.

(** The write of [markResolved]: status and timestamp in one update that
    asks for the row back. *)
Definition resolveWrite (hid : string) (now : Z) : call (reply (list UpdatedRow)) :=
  UpdateHandoff Browser hid
    {| patch_status := "resolved"; patch_last_update_at := Some now |} true.

(** The two writes of the handler, for the handoff named in the body and
    the user behind the bearer token. *)
Definition closeWrite (hid : string) : call (reply (list UpdatedRow)) :=
  UpdateHandoff Service hid
    {| patch_status := "closed"; patch_last_update_at := None |} false.

Definition closeAudit (hid : JS.value) (u : User) : call (option string) :=
  InsertUpdate Service
    {| ins_handoff_id := hid; ins_author_user_id := None;
       ins_author_display_name_snapshot := "system"; ins_source := "system";
       ins_message :=
         "SYSTEM: RESOLVED by " ++ default (user_id u) (user_email u) |}.

Definition missingToken : NextResponse :=
  respondWith (Error "Missing token. Include e.g. H:ABC123 in reply.") 400.

Definition unknownToken : NextResponse :=
  respondWith (Error "Unknown token.") 404.

(** The text of the audit message for a body [j]: the heading, the
    location code in brackets when there is one, and the first 120
    characters of the summary; [inl] when the location code or the summary
    does not convert to a string. *)
Definition alertMessage (j : string -> JS.value) : string + string :=
  match (if JS.toBoolean (j "location_code")
         then JS.template " [" (j "location_code") "]" else inr "") with
  | inl msg => inl msg
  | inr location =>
      match JS.toString (JS.or (j "summary") (JS.VString "")) with
      | inl msg => inl msg
      | inr summaryText =>
          inr ("SYSTEM: SMS ALERT TRIGGERED (high)" ++ location ++ ": "
               ++ JS.slice0 120 summaryText)
      end
  end.

(** The audit row for a body [j], with the message [text]. *)
Definition alertAudit (j : string -> JS.value) (text : string) : UpdateInsert :=
  {| ins_handoff_id := j "handoff_id";
     ins_author_user_id := None;
     ins_author_display_name_snapshot := "system";
     ins_source := "system";
     ins_message := text |}.

(** The status policy of src/src/app/page.tsx in the terms of the
    canonical one: resolved, or the legacy value "closed". *)
Definition legacyResolved (status : option string) : bool :=
  GatedFeed.isResolvedStatus status
  || String.eqb (GatedFeed.normStatus status) "closed".

(** The status of a row is absent or has no white space around it. *)
Definition trimmedStatus (h : HandoffRow) : Prop :=
  match status h with
  | Some s => JS.trim s = s
  | None => True
  end.

(** The rows a feed keeps: all of them with the toggle on, the unresolved
    ones with it off. *)
Definition keptRows (isResolvedStatus : option string -> bool)
  (showResolved : bool) (handoffs : list HandoffRow) : list HandoffRow :=
  if showResolved then handoffs
  else List.filter (fun h => negb (isResolvedStatus (status h))) handoffs.

(** [out] is the rows kept of [handoffs], each as often as it was given,
    with the resolved rows last. *)
Definition groupedFeed (isResolvedStatus : option string -> bool)
  (showResolved : bool) (handoffs out : list HandoffRow) : Prop :=
  Permutation out (keptRows isResolvedStatus showResolved handoffs)
  /\ resolvedLast isResolvedStatus out.

(** ** Sample data *)

(** A row for examples: identifier, creation time, last update, status. *)
Definition row (i : string) (created : Z) (updated : option Z)
  (st : option string) : HandoffRow :=
  {| id := i; created_at := JS.Num created; summary := "s"; category := "c";
     priority := "low"; location_code := None; status := st;
     last_update_at := JS.Num <$> updated |}.

Definition sampleFeed : list HandoffRow :=
  [ row "a" 10 None (Some "resolved");
    row "b" 20 None None;
    row "c" 30 None (Some "closed");
    row "d" 5 (Some 90) (Some "open");
    row "e" 50 None (Some " Resolved ");
    row "f" 20 None (Some "needs_followup") ].

(** An open handoff and a newer one with the legacy status "closed". *)
Definition legacyFeed : list HandoffRow :=
  [ row "b" 20 None (Some "open");
    row "c" 30 None (Some "closed") ].

Definition noFault : request -> option string := fun _ => None.

Definition nurse : User :=
  {| user_id := "u1"; user_email := Some "rn@example.org" |}.

(** One open handoff [h1], reachable by the token [AB12]; the signed-in
    user has no profile row yet. *)
Definition sampleWorld : Hosted.world :=
  {| Hosted.session := Hosted.fine nurse;
     Hosted.accounts := {[ "tok1" := nurse ]};
     Hosted.profiles := ∅;
     Hosted.handoffs := {[ "h1" := row "h1" 10 None (Some "open") ]};
     Hosted.updates := [];
     Hosted.tokens := {[ "AB12" := "h1" ]};
     Hosted.may_update := true;
     Hosted.fault := noFault;
     Hosted.clock := 1000;
     Hosted.route := [] |}.

(** The same, with row-level security refusing the browser's UPDATE. *)
Definition lockedWorld : Hosted.world :=
  {| Hosted.session := Hosted.fine nurse;
     Hosted.accounts := {[ "tok1" := nurse ]};
     Hosted.profiles := ∅;
     Hosted.handoffs := {[ "h1" := row "h1" 10 None (Some "open") ]};
     Hosted.updates := [];
     Hosted.tokens := {[ "AB12" := "h1" ]};
     Hosted.may_update := false;
     Hosted.fault := noFault;
     Hosted.clock := 1000;
     Hosted.route := [] |}.

(** The detail screen showing [h1]. *)
Definition sampleScreen : Detail.Screen :=
  {| Detail.loading := false; Detail.errorMsg := None;
     Detail.handoff := Some (row "h1" 10 None (Some "open"));
     Detail.updates := []; Detail.resolving := false;
     Detail.toast := None |}.

Definition emptyFeed : FeedScreen.t :=
  {| FeedScreen.sessionEmail := None; FeedScreen.userId := None;
     FeedScreen.loading := true; FeedScreen.errorMsg := None;
     FeedScreen.handoffs := []; FeedScreen.showResolved := false |}.

(** A JSON body given by its fields. *)
Fixpoint fields (l : list (string * JS.value)) (k : string) : JS.value :=
  match l with
  | [] => JS.VUndefined
  | (k', v) :: rest => if String.eqb k' k then v else fields rest k
  end.

Definition jsonRequest (auth secret : option string)
  (l : list (string * JS.value)) : NextRequest :=
  {| authorization := auth; x_webhook_secret := secret;
     content_type := Some "application/json";
     json := inr (fields l); form := [] |}.

(** [sampleWorld] with a backend that refuses every write with an error. *)
Definition refusingWorld : Hosted.world :=
  {| Hosted.session := Hosted.fine nurse;
     Hosted.accounts := {[ "tok1" := nurse ]};
     Hosted.profiles := ∅;
     Hosted.handoffs := {[ "h1" := row "h1" 10 None (Some "open") ]};
     Hosted.updates := [];
     Hosted.tokens := {[ "AB12" := "h1" ]};
     Hosted.may_update := true;
     Hosted.fault := fun q => if isWrite q then Some "write refused" else None;
     Hosted.clock := 1000;
     Hosted.route := [] |}.

(** The request of a signed-in client asking the server to resolve [h1]. *)
Definition resolveRequest : NextRequest :=
  jsonRequest (Some "Bearer tok1") None [("handoff_id", JS.VString "h1")].

(** An SMS reply carrying the token of [h1], sent without the secret
    header; the first form addresses the handoff by token, the second by
    id. *)
Definition replyByToken : NextRequest :=
  jsonRequest None None [("message", JS.VString "Update: all clear H:AB12")].

Definition replyById : NextRequest :=
  jsonRequest None None
    [("handoff_id", JS.VString "h1");
     ("message", JS.VString "Update: all clear H:AB12")].

(** A newly created handoff announced with its priority in capitals, and
    one announced as "high". *)
Definition notifyCapitals : NextRequest :=
  jsonRequest None None
    [("handoff_id", JS.VString "h1"); ("summary", JS.VString "Fall risk");
     ("priority", JS.VString "HIGH"); ("location_code", JS.VString "4W")].

(** What the body [{"toString": 1}] parses to. *)
Definition unconvertible : JS.value :=
  JS.VOpaque "Cannot convert object to primitive value".

(** A high-priority handoff announced with such an object for summary. *)
Definition notifyUnconverted : NextRequest :=
  jsonRequest None None
    [("handoff_id", JS.VString "h1"); ("summary", unconvertible);
     ("priority", JS.VString "high")].

Definition notifyHigh : NextRequest :=
  jsonRequest None None
    [("handoff_id", JS.VString "h1"); ("summary", JS.VString "Fall risk");
     ("priority", JS.VString "high")].

(** Reading the reference backend's state through its updates. *)
Ltac hosted :=
  cbn [Hosted.serve Hosted.withHandoffs Hosted.withUpdates Hosted.withRoute
       Hosted.session Hosted.accounts Hosted.profiles Hosted.handoffs
       Hosted.updates Hosted.tokens Hosted.may_update Hosted.fault
       Hosted.clock Hosted.route Hosted.fine Hosted.failed error data].

(** Closing a goal about the answer of a finished run. *)
Ltac settle :=
  cbn; repeat split; intros;
  repeat match goal with
         | H : _ /\ _ |- _ => destruct H
         | H : _ \/ _ |- _ => destruct H
         | H : exists _, _ |- _ => destruct H
         end;
  try discriminate; try tauto; eauto.

(** Splitting a goal [(a <-> A) /\ (b <-> B) /\ (c -> C)] into its five
    implications, each with its premise introduced as [Hc]. *)
Ltac codes :=
  cbn [run code respond respondWith serverError]; split; [split; intros Hc | split; [split; intros Hc | intros Hc]].

(** ** Further code of the cited files *)

(** *** What the gated feed renders (src/unnamed/part_001) *)
Module GatedFeedView.

(** A style object: its keys and the text of their values. *)
Definition glowStyleForPriority (priority : option string) : gmap string string :=
  let p := JS.toLowerCase (JS.orStr priority "") in
  if String.eqb p "high" then
    {[ "boxShadow" := "0 0 18px rgba(255, 80, 80, 0.25), 0 0 42px rgba(255, 80, 80, 0.12)";
       "border" := "1px solid rgba(255, 80, 80, 0.28)" ]}
  else if String.eqb p "medium" then
    {[ "boxShadow" := "0 0 18px rgba(255, 190, 60, 0.22), 0 0 42px rgba(255, 190, 60, 0.10)";
       "border" := "1px solid rgba(255, 190, 60, 0.26)" ]}
  else
    {[ "boxShadow" := "0 0 18px rgba(80, 255, 160, 0.18), 0 0 42px rgba(80, 255, 160, 0.08)";
       "border" := "1px solid rgba(80, 255, 160, 0.22)" ]}.

Definition resolvedCardStyle : gmap string string :=
  {[ "opacity" := "0.62";
     "filter" := "grayscale(0.8) saturate(0.35)";
     "background" := "rgba(0,0,0,0.45)";
     "border" := "1px solid rgba(255,255,255,0.09)";
     "boxShadow" := "none" ]}.

(** [Object.assign(target, source)]: the keys of [source] win. *)
Definition assign (target source : gmap string string) : gmap string string :=
  source ∪ target.

Definition pulse : string := "csPulse 2.2s ease-in-out infinite".

(** The [cardStyle] built for a row in [visibleHandoffs.map];
    [ENABLE_DETAIL_NAV] is [true]. *)
Definition cardStyle (h : HandoffRow) : gmap string string :=
  let resolved := GatedFeed.isResolvedStatus (status h) in
  let followup := GatedFeed.isFollowupStatus (status h) in
  let cardStyle : gmap string string :=
    {[ "borderRadius" := "14"; "padding" := "12"; "cursor" := "pointer";
       "border" := "1px solid rgba(255,255,255,0.10)";
       "background" := "rgba(255,255,255,0.02)" ]} in
  let cardStyle :=
    if resolved then assign cardStyle resolvedCardStyle
    else <[ "opacity" := "0.96" ]>
           (assign cardStyle (glowStyleForPriority (Some (priority h)))) in
  if followup && negb resolved then <[ "animation" := pulse ]> cardStyle
  else cardStyle.

(** The style of the dot in front of a card's priority. *)
Definition priorityDot (priority : option string) : gmap string string :=
  let p := JS.toLowerCase (JS.orStr priority "") in
  let base : gmap string string :=
    {[ "width" := "10"; "height" := "10"; "borderRadius" := "999";
       "border" := "1px solid rgba(255,255,255,0.22)"; "opacity" := "0.95" ]} in
  if String.eqb p "high" then <[ "background" := "rgba(255,80,80,0.9)" ]> base
  else if String.eqb p "medium" then
    <[ "background" := "rgba(255,190,60,0.9)" ]> base
  else <[ "background" := "rgba(80,255,160,0.85)" ]> base.

(** What a card shows besides its texts: its style, the status pill and
    whether the "Needs follow-up" badge is there. *)
Record Card : Type := {
  card_row : HandoffRow;
  card_style : gmap string string;
  card_pill : string;
  card_badge : bool
}.

Definition card (h : HandoffRow) : Card :=
  let resolved := GatedFeed.isResolvedStatus (status h) in
  let followup := GatedFeed.isFollowupStatus (status h) in
  {| card_row := h; card_style := cardStyle h;
     card_pill := GatedFeed.StatusPill (status h);
     card_badge := followup && negb resolved |}.

Definition openCount (handoffs : list HandoffRow) : nat :=
  length (List.filter (fun h => negb (GatedFeed.isResolvedStatus (status h)))
            handoffs).

Definition resolvedCount (handoffs : list HandoffRow) : nat :=
  length (List.filter (fun h => GatedFeed.isResolvedStatus (status h))
            handoffs).

Definition visibleHandoffs (st : FeedScreen.t) : list HandoffRow :=
  GatedFeed.visibleHandoffs (FeedScreen.showResolved st) (FeedScreen.handoffs st).

Definition hasVisible (st : FeedScreen.t) : bool :=
  (0 <? length (visibleHandoffs st))%nat.

(** The content area: the chain of conditionals under "Content". *)
Inductive Content : Type :=
| Skeleton                              (* loading *)
| SignInPrompt                          (* !userId *)
| AllClear (text : string)              (* !hasVisible *)
| Cards (alone : bool) (cards : list Card).
    (* [alone]: the note "No other open handoffs right now." *)

Definition content (st : FeedScreen.t) : Content :=
  if FeedScreen.loading st then Skeleton
  else if negb (JS.truthy (FeedScreen.userId st)) then SignInPrompt
  else if negb (hasVisible st) then
    AllClear (if FeedScreen.showResolved st
              then "No handoffs yet. Create the first one."
              else "No open handoffs right now. You can create one, or show resolved.")
  else
    Cards (Nat.eqb (openCount (FeedScreen.handoffs st)) 1
           && negb (FeedScreen.showResolved st))
          (card <$> visibleHandoffs st).

End GatedFeedView.

(** *** The follow-up flag of the plain feed (src/unnamed/part_002) *)
Module PlainFeedView.

(** [h.status && h.status.toLowerCase() === "needs_followup"] *)
Definition followupFlag (status : option string) : bool :=
  JS.truthy status
  && String.eqb (JS.toLowerCase (JS.orStr status "")) "needs_followup".

End PlainFeedView.

(** *** The SMS button of the detail screen (src/unnamed/part_000) *)
Module DetailSms.

(** The request [sendSms] sends to /api/sms/alert: a JSON body with the
    four fields of the handoff, no secret header.  [formView] is what the
    same body would read as through [URLSearchParams]; the route does not
    look at it for a JSON request. *)
Definition request (h : HandoffRow) (formView : list (string * string))
  : NextRequest :=
  {| authorization := None;
     x_webhook_secret := None;
     content_type := Some "application/json";
     json := inr (fields
       [("handoff_id", JS.VString (id h));
        ("summary", JS.VString (summary h));
        ("priority", JS.VString (priority h));
        ("location_code",
         match location_code h with
         | Some l => JS.VString l
         | None => JS.VNull
         end)]);
     form := formView |}.

(** [res.ok] *)
Definition ok (res : NextResponse) : bool :=
  (200 <=? code res) && (code res <=? 299).

(** [j?.error || "SMS failed."] *)
Definition failure (res : NextResponse) : string :=
  match body res with
  | Error msg => JS.orStr (Some msg) "SMS failed."
  | _ => "SMS failed."
  end.

(** [sendSms], with the [fetch] answered by the route of /api/sms/alert
    under the deployment's [webhookSecret]; a request that does not reach
    the route is not modelled.  The state is the screen and the
    [smsSending] cell.  The toast is given without its check mark. *)
Definition sendSms (webhookSecret : option string)
  (formView : list (string * string)) (s : Detail.Screen * bool)
  : prog (Detail.Screen * bool) :=
  let st := Detail.setToast None (fst s) in
  let st := Detail.setErrorMsg None st in
  match Detail.handoff st with
  | None => Ret (st, snd s)
  | Some h =>
      awaits res <- SmsAlert.POST webhookSecret (request h formView);
      if negb (ok res) then
        Ret (Detail.setErrorMsg (Some (failure res)) st, false)
      else Ret (Detail.setToast (Some "SMS sent.") st, false)
  end.

End DetailSms.

(** *** Adding an update on the detail screen (src/unnamed/part_000) *)
Module DetailUpdate.

(** The object [addUpdate] hands to [from("handoff_updates").insert]: the
    author is the signed-in user and the name snapshot is
    [user.email ?? null]. *)
Record Payload : Type := {
  pay_handoff_id : string;
  pay_author_user_id : string;
  pay_author_display_name_snapshot : option string;
  pay_source : string;
  pay_message : string
}.

(** The calls of the screen: those of [call], and the insert of a
    payload through the browser's client; the reply is [error]. *)
Inductive appCall : Type -> Type :=
| Base {X : Type} (c : call X) : appCall X
| InsertPayload (row : Payload) : appCall (option string).

Inductive flow (R : Type) : Type :=
| Done (r : R)
| Step {X : Type} (c : appCall X) (k : X -> flow R).
Arguments Done {R} r.
Arguments Step {R X} c k.

(** An [async] function of the screen that makes calls of [call] only. *)
Fixpoint lift {R : Type} (p : prog R) : flow R :=
  match p with
  | Ret r => Done r
  | Do c k => Step (Base c) (fun x => lift (k x))
  end.

Fixpoint andThen {R S : Type} (p : flow R) (f : R -> flow S) : flow S :=
  match p with
  | Done r => f r
  | Step c k => Step c (fun x => andThen (k x) f)
  end.

Definition appRequest : Type := sigT appCall.
Definition AppRequest {X : Type} (c : appCall X) : appRequest := existT X c.

Definition appBackend (W : Type) : Type :=
  forall X : Type, appCall X -> W -> X * W.

Fixpoint runFlow {W R : Type} (b : appBackend W) (p : flow R) (w : W)
  : R * W * list appRequest :=
  match p with
  | Done r => (r, w, [])
  | Step c k =>
      let (x, w1) := b _ c w in
      let '(r, w2, log) := runFlow b (k x) w1 in
      (r, w2, AppRequest c :: log)
  end.

(** The payload a request inserts, if it is the insert of one. *)
Definition inserted (q : appRequest) : option Payload :=
  match projT2 q with
  | InsertPayload row => Some row
  | Base _ => None
  end.

(** A request that writes through one of the calls of [call]. *)
Definition otherWrite (q : appRequest) : bool :=
  match projT2 q with
  | Base c => isWrite (Request c)
  | InsertPayload _ => false
  end.

(** The screen with the two cells of the "Add update" box. *)
Record Form : Type := {
  screen : Detail.Screen;
  newUpdate : string;
  savingUpdate : bool
}.

Definition canAddUpdate (f : Form) : bool :=
  (2 <=? String.length (JS.trim (newUpdate f)))%nat && negb (savingUpdate f).

(** The text of the toast without its leading check mark (U+2705). *)
Definition addedToast : string := "Update added.".

(** [routeId] is the route parameter [params?.id], the [id] of the source. *)
Definition addUpdate (routeId : option string) (f : Form) : flow Form :=
  let st := Detail.setToast None (screen f) in
  let st := Detail.setErrorMsg None st in
  Step (Base GetSession) (fun sess =>
    let user := data sess in
    if negb (JS.truthy (user_id <$> user)) then
      Done {| screen := Detail.setErrorMsg (Some "Not signed in.") st;
              newUpdate := newUpdate f; savingUpdate := savingUpdate f |}
    else if negb (JS.truthy routeId) then
      Done {| screen := st; newUpdate := newUpdate f;
              savingUpdate := savingUpdate f |}
    else
      (* setSavingUpdate(true) *)
      let payload :=
        {| pay_handoff_id := JS.orStr routeId "";
           pay_author_user_id := JS.orStr (user_id <$> user) "";
           pay_author_display_name_snapshot := user ≫= user_email;
           pay_source := "app";
           pay_message := JS.trim (newUpdate f) |} in
      Step (InsertPayload payload) (fun err =>
        match err with
        | Some msg =>
            (* throw error; caught below *)
            Done {| screen := Detail.setErrorMsg (Some msg) st;
                    newUpdate := newUpdate f; savingUpdate := false |}
        | None =>
            let st := Detail.setToast (Some addedToast) st in
            andThen (lift (Detail.load routeId st)) (fun st =>
              Done {| screen := st; newUpdate := ""; savingUpdate := false |})
        end)).

(** The "Add Update" button, [disabled={!canAddUpdate}]: a click on the
    disabled button runs nothing. *)
Definition clickAddUpdate (routeId : option string) (f : Form) : flow Form :=
  if canAddUpdate f then addUpdate routeId f else Done f.

(** The reference backend, answering the browser's insert: with [refuse]
    the insert comes back with that error; otherwise the row is appended,
    with the id and the time the database gives it. *)
Definition storedPayload (w : Hosted.world) (row : Payload) : UpdateRow :=
  {| update_id := pretty (length (Hosted.updates w));
     update_created_at := Hosted.clock w;
     handoff_id := JS.VString (pay_handoff_id row);
     author_user_id := Some (pay_author_user_id row);
     author_display_name_snapshot := pay_author_display_name_snapshot row;
     source := pay_source row;
     message := pay_message row |}.

Definition serve (refuse : option string) : appBackend Hosted.world :=
  fun X c =>
    match c in appCall X return Hosted.world -> X * Hosted.world with
    | Base c => Hosted.serve _ c
    | InsertPayload row => fun w =>
        match refuse with
        | Some msg => (Some msg, w)
        | None =>
            (None,
             Hosted.withUpdates (Hosted.updates w ++ [storedPayload w row])%list w)
        end
    end.

End DetailUpdate.

(** The "Add update" box of [sampleScreen] with a draft typed in. *)
Definition sampleForm : DetailUpdate.Form :=
  {| DetailUpdate.screen := sampleScreen;
     DetailUpdate.newUpdate := "  Family notified ";
     DetailUpdate.savingUpdate := false |}.

(** *** Further vocabulary and sample data *)

(** A log without a write, in which the [handoffs] table is read at most
    once. *)
Definition readOnly (log : list request) : Prop :=
  Forall (fun q => isWrite q = false) log
  /\ (length (List.filter isHandoffRead log) <= 1)%nat.

(** The three feed loaders. *)
Definition feedLoaders : list (FeedScreen.t -> prog FeedScreen.t) :=
  [GatedFeed.loadSessionAndFeed; PlainFeed.loadSessionAndFeed;
   AppFeed.loadSessionAndFeed].

(** [sampleWorld] with nobody signed in. *)
Definition signedOutWorld : Hosted.world :=
  {| Hosted.session := {| data := None; error := None |};
     Hosted.accounts := {[ "tok1" := nurse ]};
     Hosted.profiles := ∅;
     Hosted.handoffs := {[ "h1" := row "h1" 10 None (Some "open") ]};
     Hosted.updates := [];
     Hosted.tokens := {[ "AB12" := "h1" ]};
     Hosted.may_update := true;
     Hosted.fault := noFault;
     Hosted.clock := 1000;
     Hosted.route := [] |}.

(** [sampleWorld] once the nurse has gone through onboarding. *)
Definition onboardedWorld : Hosted.world :=
  {| Hosted.session := Hosted.fine nurse;
     Hosted.accounts := {[ "tok1" := nurse ]};
     Hosted.profiles :=
       {[ "u1" := {| display_name := Some "RN Ada"; shift := Some "night" |} ]};
     Hosted.handoffs := {[ "h1" := row "h1" 10 None (Some "open") ]};
     Hosted.updates := [];
     Hosted.tokens := {[ "AB12" := "h1" ]};
     Hosted.may_update := true;
     Hosted.fault := noFault;
     Hosted.clock := 1000;
     Hosted.route := [] |}.

(** [sampleWorld] with every read of a table failing. *)
Definition unreadableWorld : Hosted.world :=
  {| Hosted.session := Hosted.fine nurse;
     Hosted.accounts := {[ "tok1" := nurse ]};
     Hosted.profiles := ∅;
     Hosted.handoffs := {[ "h1" := row "h1" 10 None (Some "open") ]};
     Hosted.updates := [];
     Hosted.tokens := {[ "AB12" := "h1" ]};
     Hosted.may_update := true;
     Hosted.fault := fun q => if isWrite q then None else Some "read failed";
     Hosted.clock := 1000;
     Hosted.route := [] |}.

(** A feed screen that shows a row from an earlier load. *)
Definition staleFeed : FeedScreen.t :=
  {| FeedScreen.sessionEmail := Some "rn@example.org";
     FeedScreen.userId := Some "u1";
     FeedScreen.loading := false; FeedScreen.errorMsg := None;
     FeedScreen.handoffs := [row "h0" 1 None (Some "open")];
     FeedScreen.showResolved := false |}.

(** What a relay's run did to the tables, read against its answer: after
    an answer that says ok (and not skipped) exactly one update was
    appended, by the last request of the run; after any other answer the
    backend is as it was. *)
Definition appendedOrNothing (w : Hosted.world)
  (out : NextResponse * Hosted.world * list request) : Prop :=
  let '(resp, w', log) := out in
  match body resp with
  | Ok | OkAlerted =>
      code resp = 200
      /\ exists row : UpdateInsert,
           last log = Some (Request (InsertUpdate Service row))
           /\ w' = Hosted.withUpdates
                     (Hosted.updates w ++ [Hosted.stored w row])%list w
  | OkSkipped => code resp = 200 /\ w' = w
  | Error _ => code resp <> 200 /\ w' = w
  end.

(** The payload /api/sms/alert reads: the JSON body, or else the form
    fields. *)
Definition alertPayload (req : NextRequest) : string + (string -> JS.value) :=
  if JS.includes (JS.orStr (content_type req) "") "application/json"
  then json req else inr (fromEntries (form req)).

(** The row /api/sms/alert inserts for a payload; [inl] when the sender
    or the message does not convert to a string. *)
Definition alertRelayed (payload : string -> JS.value) : string + UpdateInsert :=
  let from := JS.or (JS.or (payload "from") (payload "From")) JS.VNull in
  match (if JS.toBoolean from then JS.template "sms:" from "" else inr "sms") with
  | inl msg => inl msg
  | inr snapshot =>
      match JS.toString (JS.or (payload "message") (payload "Body")) with
      | inl msg => inl msg
      | inr text =>
          inr {| ins_handoff_id :=
                   JS.or (payload "handoff_id") (payload "handoffId");
                 ins_author_user_id := None;
                 ins_author_display_name_snapshot := snapshot;
                 ins_source := "sms";
                 ins_message := JS.trim text |}
      end
  end.

(** A request whose body parses and carries the required fields, while a
    field that is written out as text does not convert to a string. *)
Definition alertUnconvertible (req : NextRequest) : Prop :=
  exists (payload : string -> JS.value) (msg : string),
    alertPayload req = inr payload
    /\ JS.toBoolean (JS.or (payload "handoff_id") (payload "handoffId")) = true
    /\ JS.toBoolean (JS.or (payload "message") (payload "Body")) = true
    /\ alertRelayed payload = inl msg.

Definition notifyUnconvertible (req : NextRequest) : Prop :=
  exists (j : string -> JS.value) (msg : string),
    json req = inr j
    /\ JS.toBoolean (j "handoff_id") = true
    /\ JS.toBoolean (j "priority") = true
    /\ (JS.toString (j "priority") = inl msg
        \/ exists p : string,
             JS.toString (j "priority") = inr p
             /\ JS.toLowerCase p = "high"
             /\ alertMessage j = inl msg).

(** A form-encoded reply as an SMS gateway posts it, sent with the
    secret. *)
Definition gatewayReply : NextRequest :=
  {| authorization := None; x_webhook_secret := Some "s3cret";
     content_type := Some "application/x-www-form-urlencoded";
     json := inl "Unexpected token";
     form := [("handoffId", "h1"); ("From", "+15551234567");
              ("Body", "  Still pending  ")] |}.

(** [sampleWorld] with a backend that refuses the inserts only. *)
Definition auditFaultWorld : Hosted.world :=
  {| Hosted.session := Hosted.fine nurse;
     Hosted.accounts := {[ "tok1" := nurse ]};
     Hosted.profiles := ∅;
     Hosted.handoffs := {[ "h1" := row "h1" 10 None (Some "open") ]};
     Hosted.updates := [];
     Hosted.tokens := {[ "AB12" := "h1" ]};
     Hosted.may_update := true;
     Hosted.fault := fun q =>
       match projT2 q with
       | InsertUpdate _ _ => Some "insert refused"
       | _ => None
       end;
     Hosted.clock := 1000;
     Hosted.route := [] |}.

(** A request to resolve a handoff that is not in the table. *)
Definition resolveMissing : NextRequest :=
  jsonRequest (Some "Bearer tok1") None [("handoff_id", JS.VString "h9")].

(** A string made of white space only. *)
Fixpoint allWhite (s : string) : bool :=
  match s with
  | EmptyString => true
  | String c s' => JS.isWhiteSpace c && allWhite s'
  end.

(** The row a request inserts into [handoff_updates], if it is an
    insert. *)
Definition insertOf (q : request) : option UpdateInsert :=
  match projT2 q with
  | InsertUpdate _ row => Some row
  | _ => None
  end.

(** The request does not carry the secret configured for the
    deployment. *)
Definition secretMissing (secret : option string) (req : NextRequest) : Prop :=
  JS.truthy secret = true /\ x_webhook_secret req <> secret.

(** * Properties *)

(** ** Sorting with a comparator *)

Section SortFacts.
Context {A : Type} (cmp : A -> A -> JS.num).

Lemma insert_Permutation (x : A) (l : list A) :
  Permutation (JS.insert cmp x l) (x :: l).
Proof.
  induction l as [|y l IH]; simpl; [reflexivity|].
  destruct (JS.isPositive (cmp x y)); [|reflexivity].
  rewrite IH. apply perm_swap.
Qed.

Lemma sort_Permutation (l : list A) : Permutation (JS.sort cmp l) l.
Proof.
  induction l as [|x l IH]; simpl; [reflexivity|].
  rewrite insert_Permutation. now constructor.
Qed.




(** A relation [R] that the comparator decides consistently on a domain
    [D] orders the whole result. *)
Section Ordered.
Variable D : A -> Prop.
Variable R : A -> A -> Prop.
Hypothesis R_swap :
  forall x y, D x -> D y -> JS.isPositive (cmp x y) = true -> R y x.
Hypothesis R_keep :
  forall x y, D x -> D y -> JS.isPositive (cmp x y) = false -> R x y.
Hypothesis R_trans :
  forall x y z, D x -> D y -> D z -> R x y -> R y z -> R x z.

Lemma insert_StronglySorted (x : A) (l : list A) :
  D x -> Forall D l -> StronglySorted R l ->
  StronglySorted R (JS.insert cmp x l).
Proof.
  intros Hx HD Hs. induction Hs as [|y l Hs IH Hy]; simpl.
  - repeat constructor.
  - inversion HD as [|? ? Dy Dl]; subst.
    destruct (JS.isPositive (cmp x y)) eqn:E.
    + constructor; [now apply IH|].
      rewrite insert_Permutation. constructor; [|assumption].
      now apply R_swap.
    + constructor; [now constructor|].
      constructor; [now apply R_keep|].
      rewrite Forall_forall in Hy, Dl. apply Forall_forall. intros z Hz.
      apply (R_trans x y z); auto.
Qed.

Lemma sort_StronglySorted (l : list A) :
  Forall D l -> StronglySorted R (JS.sort cmp l).
Proof.
  induction 1 as [|x l Hx Hl IH]; simpl; [constructor|].
  apply insert_StronglySorted; auto.
  now rewrite sort_Permutation.
Qed.

End Ordered.

End SortFacts.

Lemma StronglySorted_lookup {A : Type} (R : A -> A -> Prop) (l : list A) :
  StronglySorted R l ->
  forall (i j : nat) (x y : A),
    (i < j)%nat -> l !! i = Some x -> l !! j = Some y -> R x y.
Proof.
  induction 1 as [|a l Hs IH Ha]; intros i j x y Hij Hi Hj.
  - destruct i; discriminate.
  - destruct j as [|j]; [lia|]. simpl in Hj. destruct i as [|i]; simpl in Hi.
    + injection Hi as <-. rewrite Forall_forall in Ha. apply Ha.
      eapply list_elem_of_lookup_2; eauto.
    + apply (IH i j); auto. lia.
Qed.

Lemma StronglySorted_filter {A : Type} (R : A -> A -> Prop) (f : A -> bool)
  (l : list A) :
  StronglySorted R l -> StronglySorted R (List.filter f l).
Proof.
  induction 1 as [|a l Hs IH Ha]; simpl; [constructor|].
  destruct (f a); [|assumption].
  constructor; [assumption|].
  rewrite Forall_forall in *. intros x Hx. apply Ha.
  apply list_elem_of_In in Hx. apply List.filter_In in Hx.
  apply list_elem_of_In. tauto.
Qed.



(** ** Stability: the sorted result does not depend on the algorithm *)

Section Stable.
Context {A : Type} (cmp : A -> A -> JS.num).
Variable D : A -> Prop.
Hypothesis cmp_antisym :
  forall x y, JS.isPositive (cmp x y) = true -> inOrder cmp y x.
Hypothesis cmp_trans :
  forall x y z, D x -> D y -> D z ->
    inOrder cmp x y -> inOrder cmp y z -> inOrder cmp x z.

Lemma ties_inOrder (x y : A) :
  ties cmp x y = true <-> inOrder cmp x y /\ inOrder cmp y x.
Proof.
  unfold ties, inOrder. rewrite andb_true_iff, !negb_true_iff. tauto.
Qed.

Lemma ties_refl (x : A) : ties cmp x x = true.
Proof.
  apply ties_inOrder.
  assert (H : inOrder cmp x x).
  { unfold inOrder. destruct (JS.isPositive (cmp x x)) eqn:E; [|reflexivity].
    pose proof (cmp_antisym _ _ E) as E'. unfold inOrder in E'. congruence. }
  auto.
Qed.

Lemma insert_ties (x y : A) (l : list A) :
  D x -> D y -> Forall D l ->
  List.filter (ties cmp x) (JS.insert cmp y l) = List.filter (ties cmp x) (y :: l).
Proof.
  intros Dx Dy Dl. induction Dl as [|z l Dz Dl IH]; [reflexivity|].
  cbn [JS.insert]. destruct (JS.isPositive (cmp y z)) eqn:E; [|reflexivity].
  cbn [List.filter] in *. rewrite IH.
  destruct (ties cmp x z) eqn:Ez, (ties cmp x y) eqn:Ey; try reflexivity.
  apply ties_inOrder in Ez as [Hxz _]. apply ties_inOrder in Ey as [_ Hyx].
  pose proof (cmp_trans y x z Dy Dx Dz Hyx Hxz) as Hyz.
  unfold inOrder in Hyz. congruence.
Qed.

Lemma sort_stableSorting (l : list A) :
  Forall D l -> stableSorting cmp D l (JS.sort cmp l).
Proof.
  intros Dl. split; [apply sort_Permutation|]. split.
  - apply (sort_StronglySorted cmp D (inOrder cmp)); auto.
  - intros x Dx. induction Dl as [|y l Dy Dl IH]; [reflexivity|].
    cbn [JS.sort fold_right]. fold (JS.sort cmp l).
    rewrite insert_ties; auto.
    + cbn [List.filter]. now rewrite IH.
    + now rewrite sort_Permutation.
Qed.

Lemma stable_unique (l1 l2 : list A) :
  Forall D l1 -> Forall D l2 ->
  StronglySorted (inOrder cmp) l1 -> StronglySorted (inOrder cmp) l2 ->
  (forall x, D x -> List.filter (ties cmp x) l1 = List.filter (ties cmp x) l2) ->
  l1 = l2.
Proof.
  intros D1. revert l2. induction D1 as [|a l1 Da D1 IH]; intros l2 D2 S1 S2 Hf.
  - destruct D2 as [|b l2 Db D2]; [reflexivity|].
    specialize (Hf b Db). cbn [List.filter] in Hf.
    rewrite ties_refl in Hf. discriminate.
  - destruct D2 as [|b l2 Db D2].
    + specialize (Hf a Da). cbn [List.filter] in Hf.
      rewrite ties_refl in Hf. discriminate.
    + apply StronglySorted_inv in S1 as [S1 Ha].
      apply StronglySorted_inv in S2 as [S2 Hb].
      rewrite Forall_forall in Ha, Hb.
      assert (Hab : ties cmp a b = true).
      { pose proof (Hf a Da) as Hfa. pose proof (Hf b Db) as Hfb.
        cbn [List.filter] in Hfa, Hfb. rewrite ties_refl in Hfa, Hfb.
        apply ties_inOrder. split.
        - destruct (ties cmp b a) eqn:E; [now apply ties_inOrder in E|].
          assert (Hin : b ∈ l1).
          { apply list_elem_of_In.
            apply (proj1 (List.filter_In (ties cmp b) b l1)).
            rewrite Hfb. now left. }
          now apply Ha.
        - destruct (ties cmp a b) eqn:E; [now apply ties_inOrder in E|].
          assert (Hin : a ∈ l2).
          { apply list_elem_of_In.
            apply (proj1 (List.filter_In (ties cmp a) a l2)).
            rewrite <- Hfa. now left. }
          now apply Hb. }
      assert (a = b) as <-.
      { pose proof (Hf a Da) as Hfa. cbn [List.filter] in Hfa.
        rewrite ties_refl, Hab in Hfa. congruence. }
      f_equal. apply IH; auto. intros x Dx. specialize (Hf x Dx).
      cbn [List.filter] in Hf. destruct (ties cmp x a); congruence.
Qed.

(** Any stable sorting of [l] is the list the model computes. *)
Lemma stableSorting_sort (l l' : list A) :
  Forall D l -> stableSorting cmp D l l' -> l' = JS.sort cmp l.
Proof.
  intros Dl (Hp & Hs & Hf).
  destruct (sort_stableSorting l Dl) as (Hp' & Hs' & Hf').
  apply stable_unique; auto.
  - now rewrite Hp.
  - now rewrite Hp'.
  - intros x Dx. now rewrite Hf, Hf'.
Qed.

End Stable.

(** ** The feed's comparator *)

Section FeedFacts.
Variable isResolvedStatus : option string -> bool.

Local Abbreviation resolved h := (isResolvedStatus (status h)).
Local Abbreviation cmpH := (compareHandoffs isResolvedStatus).
Local Abbreviation visible := (visibleHandoffsWith isResolvedStatus).

Lemma compare_antisym (x y : HandoffRow) :
  JS.isPositive (cmpH x y) = true -> inOrder cmpH y x.
Proof.
  unfold inOrder, compareHandoffs.
  destruct (resolved x), (resolved y); simpl; try discriminate; auto.
  all: destruct (effectiveTime x), (effectiveTime y); simpl;
    try discriminate; auto.
  all: intros H; apply Z.ltb_lt in H; apply Z.ltb_ge; lia.
Qed.

Lemma compare_groups_swap (x y : HandoffRow) :
  JS.isPositive (cmpH x y) = true -> groupOrder isResolvedStatus y x.
Proof.
  unfold groupOrder, compareHandoffs.
  destruct (resolved x), (resolved y); simpl; auto; discriminate.
Qed.

Lemma compare_groups_keep (x y : HandoffRow) :
  JS.isPositive (cmpH x y) = false -> groupOrder isResolvedStatus x y.
Proof.
  unfold groupOrder, compareHandoffs.
  destruct (resolved x), (resolved y); simpl; auto; discriminate.
Qed.

Lemma inOrder_trans (x y z : HandoffRow) :
  validTime x -> validTime y -> validTime z ->
  inOrder cmpH x y -> inOrder cmpH y z -> inOrder cmpH x z.
Proof.
  intros [a Ha] [b Hb] [c Hc]. unfold inOrder, compareHandoffs.
  rewrite Ha, Hb, Hc.
  destruct (resolved x), (resolved y), (resolved z); simpl;
    try discriminate; auto.
  all: rewrite !Z.ltb_ge; lia.
Qed.

Lemma inOrder_times (x y : HandoffRow) :
  validTime x -> validTime y -> resolved x = resolved y ->
  inOrder cmpH x y -> notAfter (effectiveTime y) (effectiveTime x).
Proof.
  intros [a Ha] [b Hb] Hg. unfold inOrder, compareHandoffs.
  rewrite Ha, Hb, Hg, Bool.eqb_reflx. simpl. rewrite Z.ltb_ge. lia.
Qed.

Lemma sort_grouped (l : list HandoffRow) :
  StronglySorted (groupOrder isResolvedStatus) (JS.sort cmpH l).
Proof.
  apply (sort_StronglySorted cmpH (fun _ => True)
           (groupOrder isResolvedStatus)).
  - intros x y _ _. apply compare_groups_swap.
  - intros x y _ _. apply compare_groups_keep.
  - unfold groupOrder. auto.
  - apply Forall_forall. auto.
Qed.

Lemma sort_timed (l : list HandoffRow) :
  Forall validTime l -> StronglySorted (inOrder cmpH) (JS.sort cmpH l).
Proof.
  apply (sort_StronglySorted cmpH validTime (inOrder cmpH)).
  - intros x y _ _. apply compare_antisym.
  - intros x y _ _ H. exact H.
  - apply inOrder_trans.
Qed.


Lemma visible_grouped (showResolved : bool) (l : list HandoffRow) :
  StronglySorted (groupOrder isResolvedStatus) (visible showResolved l).
Proof.
  unfold visibleHandoffsWith. destruct showResolved.
  - apply sort_grouped.
  - apply StronglySorted_filter, sort_grouped.
Qed.


Lemma visible_timed (showResolved : bool) (l : list HandoffRow) :
  Forall validTime l ->
  StronglySorted (inOrder cmpH) (visible showResolved l).
Proof.
  intros Hv. unfold visibleHandoffsWith. destruct showResolved.
  - now apply sort_timed.
  - now apply StronglySorted_filter, sort_timed.
Qed.

Lemma visible_Forall (P : HandoffRow -> Prop) (showResolved : bool)
  (l : list HandoffRow) :
  Forall P l -> Forall P (visible showResolved l).
Proof.
  intros HP. unfold visibleHandoffsWith.
  assert (Hs : Forall P (JS.sort cmpH l)) by now rewrite sort_Permutation.
  destruct showResolved; [exact Hs|].
  rewrite Forall_forall in *. intros x Hx. apply Hs.
  apply list_elem_of_In in Hx. apply List.filter_In in Hx.
  apply list_elem_of_In. tauto.
Qed.

(** What is shown: every row with the toggle on, the unresolved rows with
    it off, each as often as it was given. *)
Lemma visible_Permutation (showResolved : bool) (l : list HandoffRow) :
  Permutation (visible showResolved l)
    (if showResolved then l
     else List.filter (fun h => negb (resolved h)) l).
Proof.
  unfold visibleHandoffsWith. destruct showResolved.
  - apply sort_Permutation.
  - generalize (sort_Permutation cmpH l).
    generalize (JS.sort cmpH l). intros l' Hp.
    induction Hp as [|x l1 l2 Hp IH|x y l1|l1 l2 l3 H1 IH1 H2 IH2]; simpl.
    + reflexivity.
    + destruct (negb (resolved x)); [now constructor|exact IH].
    + destruct (negb (resolved x)), (negb (resolved y));
        try reflexivity. apply perm_swap.
    + now rewrite IH1.
Qed.

Lemma visible_resolvedLast (showResolved : bool) (l : list HandoffRow) :
  resolvedLast isResolvedStatus (visible showResolved l).
Proof.
  intros i j x y Hi Hj Hx Hy.
  pose proof (visible_grouped showResolved l) as Hs.
  destruct (Nat.lt_trichotomy i j) as [Hlt|[Heq|Hgt]]; [| |exact Hgt].
  - pose proof (StronglySorted_lookup _ _ Hs i j x y Hlt Hi Hj Hx). congruence.
  - subst. rewrite Hi in Hj. injection Hj as <-. congruence.
Qed.

Lemma visible_newestFirst (showResolved : bool) (l : list HandoffRow) :
  Forall validTime l -> newestFirst isResolvedStatus (visible showResolved l).
Proof.
  intros Hv i j x y Hij Hi Hj Hg.
  pose proof (visible_Forall validTime showResolved l Hv) as Hall.
  rewrite Forall_forall in Hall.
  apply inOrder_times; auto.
  - apply Hall. eapply list_elem_of_lookup_2; eauto.
  - apply Hall. eapply list_elem_of_lookup_2; eauto.
  - eapply StronglySorted_lookup; eauto using visible_timed.
Qed.

(** With dates for timestamps the comparator is a consistent one, and
    every stable sorting of the rows is the list the model computes:
    which algorithm the engine runs does not matter. *)
Lemma feed_sort_canonical (l l' : list HandoffRow) :
  Forall validTime l ->
  stableSorting cmpH validTime l l' -> l' = JS.sort cmpH l.
Proof.
  apply stableSorting_sort.
  - apply compare_antisym.
  - apply inOrder_trans.
Qed.


End FeedFacts.

(** ** Feed ordering policy *)

Example sampleFeed_gated :
  id <$> GatedFeed.visibleHandoffs true sampleFeed = ["d"; "c"; "b"; "f"; "e"; "a"]
  /\ id <$> GatedFeed.visibleHandoffs false sampleFeed = ["d"; "c"; "b"; "f"].
Proof. split; reflexivity. Qed.

Example sampleFeed_app :
  id <$> AppFeed.visibleHandoffs true sampleFeed = ["d"; "e"; "b"; "f"; "c"; "a"]
  /\ id <$> AppFeed.visibleHandoffs false sampleFeed = ["d"; "e"; "b"; "f"].
Proof. split; reflexivity. Qed.

(** The policy of src/src/app/page.tsx on the rows it is meant for. *)
Lemma legacyResolved_trimmed (h : HandoffRow) :
  trimmedStatus h ->
  AppFeed.isResolvedStatus (status h) = legacyResolved (status h).
Proof.
  unfold trimmedStatus, legacyResolved, AppFeed.isResolvedStatus,
    GatedFeed.isResolvedStatus, GatedFeed.normStatus.
  destruct (status h) as [[|c s]|]; try reflexivity.
  intros Ht. change (JS.orStr (Some (String c s)) "open") with (String c s).
  now rewrite Ht.
Qed.

(** The properties of a feed read through another status policy that
    agrees with the feed's own on the rows given. *)
Lemma keptRows_agree (isR isR' : option string -> bool) (showResolved : bool)
  (l : list HandoffRow) :
  Forall (fun h => isR (status h) = isR' (status h)) l ->
  keptRows isR showResolved l = keptRows isR' showResolved l.
Proof.
  unfold keptRows. destruct showResolved; [reflexivity|].
  induction 1 as [|h l Hh Hl IH]; [reflexivity|].
  cbn [List.filter]. now rewrite Hh, IH.
Qed.

Lemma resolvedLast_agree (isR isR' : option string -> bool)
  (out : list HandoffRow) :
  Forall (fun h => isR (status h) = isR' (status h)) out ->
  resolvedLast isR out -> resolvedLast isR' out.
Proof.
  intros Ha Hr i j x y Hi Hj Hx Hy. rewrite Forall_forall in Ha.
  apply (Hr i j x y Hi Hj).
  - rewrite (Ha x); [exact Hx|]. eapply list_elem_of_lookup_2; eauto.
  - rewrite (Ha y); [exact Hy|]. eapply list_elem_of_lookup_2; eauto.
Qed.

Lemma newestFirst_agree (isR isR' : option string -> bool)
  (out : list HandoffRow) :
  Forall (fun h => isR (status h) = isR' (status h)) out ->
  newestFirst isR out -> newestFirst isR' out.
Proof.
  intros Ha Hn i j x y Hij Hi Hj Hg. rewrite Forall_forall in Ha.
  apply (Hn i j x y Hij Hi Hj).
  rewrite (Ha x), (Ha y); [exact Hg| |]; eapply list_elem_of_lookup_2; eauto.
Qed.

Lemma visible_groupedFeed (isR : option string -> bool) (showResolved : bool)
  (l : list HandoffRow) :
  groupedFeed isR showResolved l (visibleHandoffsWith isR showResolved l).
Proof.
  split; [apply visible_Permutation|apply visible_resolvedLast].
Qed.

(** C2 (as amended).  For any list of handoffs and either position of
    the toggle, what each feed shows is the rows it keeps (all of them
    with the toggle on, the unresolved ones with it off), each as often
    as it was given, with every resolved row after every unresolved row;
    and when the effective timestamps (last update if present, else
    creation) are dates, they do not increase along the rows of one
    group.  "Resolved" is what the feed's own [isResolvedStatus] says:
    the canonical policy in the gated and the plain feed, and in the feed
    of src/src/app/page.tsx, for rows whose status is absent or has no
    white space around it, the canonical policy or the legacy status
    "closed".  With an invalid date the comparator yields [NaN] for some
    pairs and is no longer a consistent comparator; with dates, the
    sorted list is the same for every stable sort
    ([feed_sort_canonical]). *)
Theorem feed_ordering (showResolved : bool) (handoffs : list HandoffRow) :
  (groupedFeed GatedFeed.isResolvedStatus showResolved handoffs
     (GatedFeed.visibleHandoffs showResolved handoffs)
   /\ groupedFeed PlainFeed.isResolvedStatus showResolved handoffs
        (PlainFeed.visibleHandoffs showResolved handoffs)
   /\ groupedFeed AppFeed.isResolvedStatus showResolved handoffs
        (AppFeed.visibleHandoffs showResolved handoffs))
  /\ (Forall validTime handoffs ->
      newestFirst GatedFeed.isResolvedStatus
        (GatedFeed.visibleHandoffs showResolved handoffs)
      /\ newestFirst PlainFeed.isResolvedStatus
           (PlainFeed.visibleHandoffs showResolved handoffs)
      /\ newestFirst AppFeed.isResolvedStatus
           (AppFeed.visibleHandoffs showResolved handoffs))
  /\ (Forall trimmedStatus handoffs ->
      groupedFeed legacyResolved showResolved handoffs
        (AppFeed.visibleHandoffs showResolved handoffs)
      /\ (Forall validTime handoffs ->
          newestFirst legacyResolved
            (AppFeed.visibleHandoffs showResolved handoffs))).
Proof.
  split; [|split].
  - repeat split; try apply visible_Permutation; apply visible_resolvedLast.
  - intros Hv. repeat split; now apply visible_newestFirst.
  - intros Ht.
    assert (Hin : Forall (fun h => AppFeed.isResolvedStatus (status h)
                                   = legacyResolved (status h)) handoffs).
    { eapply Forall_impl; [exact Ht|]. apply legacyResolved_trimmed. }
    pose proof (visible_Forall AppFeed.isResolvedStatus _ showResolved
                  handoffs Hin) as Hout.
    destruct (visible_groupedFeed AppFeed.isResolvedStatus showResolved
                handoffs) as [Hp Hr].
    split; [split|].
    + rewrite <- (keptRows_agree _ _ showResolved handoffs Hin). exact Hp.
    + now apply (resolvedLast_agree AppFeed.isResolvedStatus).
    + intros Hv. apply (newestFirst_agree AppFeed.isResolvedStatus); [exact Hout|].
      now apply visible_newestFirst.
Qed.

Lemma sampleFeed_validTime : Forall validTime sampleFeed.
Proof. repeat constructor; eexists; reflexivity. Defined.

Lemma feed_ordering_witness :
  Forall validTime sampleFeed
  /\ newestFirst GatedFeed.isResolvedStatus
       (GatedFeed.visibleHandoffs true sampleFeed)
  /\ Forall trimmedStatus legacyFeed
  /\ groupedFeed legacyResolved false legacyFeed
       (AppFeed.visibleHandoffs false legacyFeed).
Proof.
  split; [exact sampleFeed_validTime|].
  split;
    [exact (proj1 (proj1 (proj2 (feed_ordering true sampleFeed))
                     sampleFeed_validTime))|].
  assert (Ht : Forall trimmedStatus legacyFeed)
    by (repeat constructor).
  split; [exact Ht|].
  exact (proj1 (proj2 (proj2 (feed_ordering false legacyFeed)) Ht)).
Defined.

(** C2, as stated, fails at the feed of src/src/app/page.tsx.  Of the
    two rows of [legacyFeed] neither is resolved in the spec's three
    classes (the status "closed" is none of them, and classifies as
    open); the feed shows the older one first, so the timestamps of the
    unresolved rows increase, and hides the other one with the toggle
    off.  On [sampleFeed] it shows the row with status " Resolved ", which
    the canonical policy calls resolved, in front of unresolved rows. *)
Lemma feed_ordering_not_canonical :
  Forall (fun h => GatedFeed.isResolvedStatus (status h) = false) legacyFeed
  /\ Forall validTime legacyFeed
  /\ id <$> AppFeed.visibleHandoffs true legacyFeed = ["b"; "c"]
  /\ ~ newestFirst GatedFeed.isResolvedStatus
         (AppFeed.visibleHandoffs true legacyFeed)
  /\ id <$> AppFeed.visibleHandoffs false legacyFeed = ["b"]
  /\ ~ resolvedLast GatedFeed.isResolvedStatus
         (AppFeed.visibleHandoffs true sampleFeed).
Proof.
  split; [repeat constructor|].
  split; [repeat constructor; eexists; reflexivity|].
  split; [reflexivity|]. split; [|split; [reflexivity|]].
  - intros H.
    specialize (H 0%nat 1%nat (row "b" 20 None (Some "open"))
                  (row "c" 30 None (Some "closed"))
                  ltac:(lia) eq_refl eq_refl eq_refl).
    cbn in H. lia.
  - intros H.
    specialize (H 1%nat 2%nat (row "e" 50 None (Some " Resolved "))
                  (row "b" 20 None None) eq_refl eq_refl eq_refl eq_refl).
    lia.
Qed.


(** ** Status policy *)

Lemma isWhiteSpace_lowerChar (c : ascii) :
  JS.isWhiteSpace (JS.lowerChar c) = JS.isWhiteSpace c.
Proof. destruct c as [[] [] [] [] [] [] [] []]; reflexivity. Qed.

Lemma lowerChar_lowerChar (c : ascii) :
  JS.lowerChar (JS.lowerChar c) = JS.lowerChar c.
Proof. destruct c as [[] [] [] [] [] [] [] []]; reflexivity. Qed.

Lemma toLowerCase_toLowerCase (s : string) :
  JS.toLowerCase (JS.toLowerCase s) = JS.toLowerCase s.
Proof.
  induction s as [|c s IH]; simpl; [reflexivity|].
  now rewrite lowerChar_lowerChar, IH.
Qed.

Lemma trimStart_toLowerCase (s : string) :
  JS.trimStart (JS.toLowerCase s) = JS.toLowerCase (JS.trimStart s).
Proof.
  induction s as [|c s IH]; simpl; [reflexivity|].
  rewrite isWhiteSpace_lowerChar. now destruct (JS.isWhiteSpace c).
Qed.

Lemma trimEnd_toLowerCase (s : string) :
  JS.trimEnd (JS.toLowerCase s) = JS.toLowerCase (JS.trimEnd s).
Proof.
  induction s as [|c s IH]; simpl; [reflexivity|].
  rewrite IH, isWhiteSpace_lowerChar.
  destruct (JS.trimEnd s); simpl; [|reflexivity].
  now destruct (JS.isWhiteSpace c).
Qed.

Lemma trim_toLowerCase (s : string) :
  JS.trim (JS.toLowerCase s) = JS.toLowerCase (JS.trim s).
Proof. unfold JS.trim. now rewrite trimStart_toLowerCase, trimEnd_toLowerCase. Qed.

Lemma trimStart_startsClean (s : string) : startsClean (JS.trimStart s).
Proof.
  induction s as [|c s IH]; simpl; [exact I|].
  destruct (JS.isWhiteSpace c) eqn:E; [exact IH|exact E].
Qed.

Lemma startsClean_trimStart (s : string) : startsClean s -> JS.trimStart s = s.
Proof. destruct s as [|c s]; simpl; [reflexivity|]. now intros ->. Qed.

Lemma trimEnd_startsClean (s : string) :
  startsClean s -> startsClean (JS.trimEnd s).
Proof.
  destruct s as [|c s]; simpl; [auto|]. intros Hc.
  destruct (JS.trimEnd s); simpl; [rewrite Hc|]; exact Hc.
Qed.

Lemma trimEnd_cons (c : ascii) (s : string) :
  JS.trimEnd (String c s)
  = match JS.trimEnd s with
    | EmptyString =>
        if JS.isWhiteSpace c then EmptyString else String c EmptyString
    | t => String c t
    end.
Proof. reflexivity. Qed.

Lemma trimEnd_trimEnd (s : string) : JS.trimEnd (JS.trimEnd s) = JS.trimEnd s.
Proof.
  induction s as [|c s IH]; [reflexivity|].
  rewrite trimEnd_cons. destruct (JS.trimEnd s) as [|d t] eqn:E.
  - destruct (JS.isWhiteSpace c) eqn:Ec; [reflexivity|].
    rewrite trimEnd_cons. simpl. now rewrite Ec.
  - rewrite trimEnd_cons, IH. reflexivity.
Qed.

Lemma trim_trim (s : string) : JS.trim (JS.trim s) = JS.trim s.
Proof.
  unfold JS.trim.
  rewrite (startsClean_trimStart (JS.trimEnd (JS.trimStart s))).
  - apply trimEnd_trimEnd.
  - apply trimEnd_startsClean, trimStart_startsClean.
Qed.

(** The normalized status carries no surrounding white space and no
    upper-case letter. *)
Lemma normStatus_normal (status : option string) :
  JS.trim (GatedFeed.normStatus status) = GatedFeed.normStatus status
  /\ JS.toLowerCase (GatedFeed.normStatus status) = GatedFeed.normStatus status.
Proof.
  unfold GatedFeed.normStatus. split.
  - now rewrite trim_toLowerCase, trim_trim.
  - apply toLowerCase_toLowerCase.
Qed.

(** Surrounding white space and letter case do not matter. *)
Lemma normStatus_trim_lower (s : string) :
  JS.trim s <> "" ->
  GatedFeed.normStatus (Some (JS.toLowerCase (JS.trim s)))
  = GatedFeed.normStatus (Some s).
Proof.
  intros Hne. unfold GatedFeed.normStatus.
  assert (Hs : JS.orStr (Some s) "open" = s).
  { destruct s; [now simpl in Hne|reflexivity]. }
  assert (Ht : JS.orStr (Some (JS.toLowerCase (JS.trim s))) "open"
               = JS.toLowerCase (JS.trim s)).
  { destruct (JS.trim s); [contradiction|reflexivity]. }
  rewrite Hs, Ht.
  now rewrite trim_toLowerCase, trim_trim, toLowerCase_toLowerCase.
Qed.

Lemma canonical_screens_agree (status : option string) :
  Detail.isResolvedStatus status = GatedFeed.isResolvedStatus status
  /\ PlainFeed.isResolvedStatus status = GatedFeed.isResolvedStatus status
  /\ PlainFeed.StatusPill status = GatedFeed.StatusPill status.
Proof. repeat split. Qed.

(** On an input without surrounding white space the feed of
    src/src/app/page.tsx says "resolved" when the canonical policy does,
    and also for the status ["closed"]. *)
Lemma appFeed_on_trimmed (s : string) :
  AppFeed.isResolvedStatus (Some (JS.trim s))
  = GatedFeed.isResolvedStatus (Some s)
    || String.eqb (GatedFeed.normStatus (Some s)) "closed".
Proof.
  unfold AppFeed.isResolvedStatus, GatedFeed.isResolvedStatus,
    GatedFeed.normStatus.
  destruct s as [|c s]; [reflexivity|].
  change (JS.orStr (Some (String c s)) "open") with (String c s).
  destruct (JS.trim (String c s)) eqn:E; reflexivity.
Qed.

(** C1 (as amended).  For every raw status (any string, or absent) the
    canonical policy normalizes by trimming and lower-casing, with "open"
    for an absent or empty value, and puts the input in exactly one of
    the three classes; null, "", "OPEN" and "bogus" are open, " Resolved "
    is resolved, "needs_followup" needs follow-up; the detail screen and
    the two feeds that carry this policy agree on every input.  The feed
    of src/src/app/page.tsx agrees on an absent status, and on a status
    without surrounding white space it says resolved when the canonical
    policy does or when the normalized status is "closed". *)
Theorem status_policy (status : option string) :
  (GatedFeed.StatusPill status = "RESOLVED"
     /\ GatedFeed.isResolvedStatus status = true
     /\ GatedFeed.isFollowupStatus status = false
   \/ GatedFeed.StatusPill status = "FOLLOW-UP"
     /\ GatedFeed.isResolvedStatus status = false
     /\ GatedFeed.isFollowupStatus status = true
   \/ GatedFeed.StatusPill status = "OPEN"
     /\ GatedFeed.isResolvedStatus status = false
     /\ GatedFeed.isFollowupStatus status = false)
  /\ (GatedFeed.normStatus status
        = JS.toLowerCase (JS.trim (JS.orStr status "open"))
      /\ JS.trim (GatedFeed.normStatus status) = GatedFeed.normStatus status
      /\ JS.toLowerCase (GatedFeed.normStatus status)
         = GatedFeed.normStatus status)
  /\ (GatedFeed.normStatus None = "open"
      /\ GatedFeed.normStatus (Some "") = "open"
      /\ GatedFeed.StatusPill None = "OPEN"
      /\ GatedFeed.StatusPill (Some "") = "OPEN"
      /\ GatedFeed.StatusPill (Some "OPEN") = "OPEN"
      /\ GatedFeed.StatusPill (Some "bogus") = "OPEN"
      /\ GatedFeed.StatusPill (Some " Resolved ") = "RESOLVED"
      /\ GatedFeed.StatusPill (Some "needs_followup") = "FOLLOW-UP")
  /\ (Detail.isResolvedStatus status = GatedFeed.isResolvedStatus status
      /\ PlainFeed.isResolvedStatus status = GatedFeed.isResolvedStatus status
      /\ PlainFeed.StatusPill status = GatedFeed.StatusPill status)
  /\ (AppFeed.isResolvedStatus None = GatedFeed.isResolvedStatus None
      /\ forall s : string,
           AppFeed.isResolvedStatus (Some (JS.trim s))
           = GatedFeed.isResolvedStatus (Some s)
             || String.eqb (GatedFeed.normStatus (Some s)) "closed").
Proof.
  split; [|split; [|split; [|split]]].
  - unfold GatedFeed.StatusPill, GatedFeed.isResolvedStatus,
      GatedFeed.isFollowupStatus.
    destruct (String.eqb (GatedFeed.normStatus status) "resolved") eqn:Er.
    + left. apply String.eqb_eq in Er. rewrite Er. auto.
    + destruct (String.eqb (GatedFeed.normStatus status) "needs_followup");
        auto.
  - split; [reflexivity|]. apply normStatus_normal.
  - repeat split.
  - apply canonical_screens_agree.
  - split; [reflexivity|]. apply appFeed_on_trimmed.
Qed.

(** C1, as stated, fails: the feed of src/src/app/page.tsx does not
    classify " Resolved " as resolved, and takes "closed" for resolved,
    where the canonical policy says the opposite. *)
Lemma status_policy_not_uniform :
  (GatedFeed.isResolvedStatus (Some " Resolved ") = true
   /\ AppFeed.isResolvedStatus (Some " Resolved ") = false)
  /\ (GatedFeed.isResolvedStatus (Some "closed") = false
      /\ AppFeed.isResolvedStatus (Some "closed") = true).
Proof. repeat split. Qed.

(** ** Running programs *)

Lemma run_Do {W R X : Type} (b : backend W) (c : call X) (k : X -> prog R)
  (w : W) :
  run b (Do c k) w
  = let (x, w1) := b X c w in
    let '(r, w2, log) := run b (k x) w1 in (r, w2, Request c :: log).
Proof. reflexivity. Qed.

Lemma run_bind {W R S : Type} (b : backend W) (p : prog R) (f : R -> prog S)
  (w : W) :
  run b (bind p f) w
  = let '(r, w1, log1) := run b p w in
    let '(s, w2, log2) := run b (f r) w1 in (s, w2, (log1 ++ log2)%list).
Proof.
  revert w. induction p as [r|X c k IH]; intros w; simpl.
  - now destruct (run b (f r) w) as [[s w2] log2].
  - destruct (b X c w) as [x w1]. rewrite IH.
    destruct (run b (k x) w1) as [[r w2] log1].
    now destruct (run b (f r) w2) as [[s w3] log2].
Qed.

(** ** Resolve on the detail screen *)

(** C5.  [markResolved] asks for the updated row back with the write
    itself.  Whatever the backend, when that request comes back without
    an error and without a row (the write was refused silently), the
    screen shows the row-level-security error, shows no success toast,
    keeps its copy of the handoff as it was, and issues nothing after the
    write. *)
Theorem resolve_silent_rejection {W : Type} (b : backend W) (w w1 w2 : W)
  (routeId : option string) (st : Detail.Screen) (h : HandoffRow) (now : Z)
  (r : reply (list UpdatedRow)) :
  Detail.handoff st = Some h ->
  id h <> "" ->
  b _ Now w = (now, w1) ->
  b _ (resolveWrite (id h) now) w1 = (r, w2) ->
  error r = None ->
  data r = None \/ data r = Some [] ->
  exists st' : Detail.Screen,
    run b (Detail.markResolved routeId st) w
    = (st', w2, [Request Now; Request (resolveWrite (id h) now)])
    /\ Detail.errorMsg st' = Some Detail.rlsMessage
    /\ Detail.toast st' = None
    /\ Detail.handoff st' = Detail.handoff st
    /\ Detail.resolving st' = false.
Proof.
  intros Hh Hid Hnow Hupd Herr Hdata.
  unfold Detail.markResolved. simpl Detail.handoff. rewrite Hh. simpl.
  destruct (id h) as [|c s] eqn:E; [contradiction|]. simpl.
  rewrite Hnow. unfold resolveWrite in Hupd. rewrite Hupd, Herr.
  destruct Hdata as [-> | ->]; simpl; eexists; repeat split; auto.
Qed.

(** Under the reference backend a refused update is such a reply, and
    the table is left as it was. *)
Lemma refused_update_reply (w : Hosted.world) (hid : string) (now : Z) :
  Hosted.may_update w = false ->
  Hosted.fault w (Request (resolveWrite hid now)) = None ->
  Hosted.serve _ (resolveWrite hid now) w
  = ({| data := Some []; error := None |}, w).
Proof.
  intros Hno Hf. unfold resolveWrite in *. simpl. rewrite Hf, Hno.
  now destruct (Hosted.handoffs w !! hid).
Qed.

Lemma resolve_silent_rejection_witness :
  exists st' : Detail.Screen,
    run Hosted.serve (Detail.markResolved (Some "h1") sampleScreen) lockedWorld
    = (st', lockedWorld,
       [Request Now; Request (resolveWrite "h1" 1000)])
    /\ Detail.errorMsg st' = Some Detail.rlsMessage
    /\ Detail.toast st' = None
    /\ Detail.handoff st' = Detail.handoff sampleScreen
    /\ Detail.resolving st' = false.
Proof.
  apply (resolve_silent_rejection Hosted.serve lockedWorld lockedWorld
           lockedWorld (Some "h1") sampleScreen
           (row "h1" 10 None (Some "open")) 1000
           {| data := Some []; error := None |}).
  - reflexivity.
  - discriminate.
  - reflexivity.
  - reflexivity.
  - reflexivity.
  - right. reflexivity.
Defined.

(** A click on a button that is disabled, or not rendered, runs nothing:
    so it is once the screen's handoff reads as resolved. *)
Lemma click_when_resolved {W : Type} (b : backend W) (w : W)
  (routeId : option string) (st : Detail.Screen) :
  Detail.resolvedNow st = true ->
  run b (Detail.clickMarkResolved routeId st) w = (st, w, []).
Proof.
  intros Hr. unfold Detail.clickMarkResolved, Detail.buttonEnabled.
  rewrite Hr, orb_true_r, andb_false_r. reflexivity.
Qed.

(** The accepted write: the row of the table gets the status "resolved"
    and the current time as its last update, and the other rows stay. *)
Lemma accepted_update_reply (w : Hosted.world) (h0 : HandoffRow) (hid : string) :
  Hosted.may_update w = true ->
  Hosted.fault w (Request (resolveWrite hid (Hosted.clock w))) = None ->
  Hosted.handoffs w !! hid = Some h0 ->
  let p := {| patch_status := "resolved";
              patch_last_update_at := Some (Hosted.clock w) |} in
  Hosted.serve _ (resolveWrite hid (Hosted.clock w)) w
  = ({| data := Some [Hosted.returned (Hosted.applyPatch p h0)];
        error := None |},
     Hosted.withHandoffs (<[hid := Hosted.applyPatch p h0]> (Hosted.handoffs w)) w).
Proof.
  intros Hok Hf Hh. unfold resolveWrite in *. simpl.
  now rewrite Hf, Hh, Hok.
Qed.

(** Resolve on the detail screen, when the backend admits the write and
    answers every request: the open handoff becomes "resolved" in the
    table with a last-update timestamp, the screen's copy follows, and the
    button is disabled from then on. *)
Lemma markResolved_accepted (w : Hosted.world) (st : Detail.Screen)
  (h h0 : HandoffRow) :
  Detail.handoff st = Some h ->
  id h <> "" ->
  Hosted.handoffs w !! id h = Some h0 ->
  Hosted.may_update w = true ->
  (forall q, Hosted.fault w q = None) ->
  JS.truthy (user_id <$> data (Hosted.session w)) = true ->
  exists (st' : Detail.Screen) (w' : Hosted.world) (log : list request)
         (h' : HandoffRow),
    run Hosted.serve (Detail.markResolved (Some (id h)) st) w = (st', w', log)
    /\ Hosted.handoffs w' !! id h = Some h'
    /\ status h' = Some "resolved"
    /\ last_update_at h' = Some (JS.Num (Hosted.clock w))
    /\ Detail.handoff st' = Some h'
    /\ Detail.toast st' = Some Detail.resolvedToast
    /\ Detail.errorMsg st' = None
    /\ Detail.resolvedNow st' = true
    /\ List.filter isWrite log
       = [Request (resolveWrite (id h) (Hosted.clock w))].
Proof.
  intros Hh Hid Hrow Hok Hf Hsess.
  pose proof (accepted_update_reply w h0 (id h) Hok (Hf _) Hrow) as Hupd.
  cbv zeta in Hupd.
  unfold Detail.markResolved. simpl Detail.handoff. rewrite Hh.
  cbn [fmap option_fmap option_map JS.truthy negb JS.orStr].
  destruct (id h) as [|c s] eqn:E; [contradiction|].
  cbn [negb]. rewrite run_Do. hosted. rewrite run_Do.
  unfold resolveWrite in Hupd. rewrite Hupd. hosted.
  rewrite run_bind. unfold Detail.load.
  cbn [JS.truthy negb JS.orStr]. rewrite run_Do. hosted.
  rewrite Hsess. cbn [negb]. rewrite run_Do. hosted.
  rewrite Hf, lookup_insert_eq. hosted.
  rewrite run_Do. hosted. rewrite Hf. hosted. cbn [run].
  eexists _, _, _, _. split; [reflexivity|].
  hosted. rewrite lookup_insert_eq.
  repeat split.
Qed.

(** ** The server-side resolve handler *)

Lemma server_resolve_run (w : Hosted.world) (req : NextRequest)
  (tok hid : string) (u : User) (h : HandoffRow) (j : string -> JS.value) :
  Resolve.matchBearer (JS.orStr (authorization req) "") = Some tok ->
  Hosted.accounts w !! tok = Some u ->
  json req = inr j ->
  j "handoff_id" = JS.VString hid ->
  hid <> "" ->
  Hosted.handoffs w !! hid = Some h ->
  (forall q, Hosted.fault w q = None) ->
  let h' := Hosted.applyPatch
              {| patch_status := "closed"; patch_last_update_at := None |} h in
  exists w' : Hosted.world,
    run Hosted.serve (Resolve.POST req) w
    = (respond Ok, w',
       [Request (GetUser tok); Request (closeWrite hid);
        Request (closeAudit (JS.VString hid) u)])
    /\ Hosted.handoffs w' = <[hid := h']> (Hosted.handoffs w).
Proof.
  intros Hauth Hacc Hjson Hfield Hid Hrow Hf h'.
  unfold Resolve.POST. rewrite Hauth, run_Do. hosted.
  rewrite Hf, Hacc. hosted. rewrite Hjson, Hfield.
  destruct hid as [|c s]; [contradiction|].
  cbn [JS.toBoolean negb JS.toString]. rewrite run_Do. hosted.
  rewrite Hf, Hrow. hosted. rewrite run_Do. hosted. rewrite Hf.
  cbn [run]. eexists. split; reflexivity.
Qed.

(** A row whose status is "closed", under the canonical policy. *)
Lemma closed_is_unresolved (h : HandoffRow) :
  status h = Some "closed" ->
  Detail.isResolvedStatus (status h) = false
  /\ GatedFeed.isResolvedStatus (status h) = false
  /\ GatedFeed.isFollowupStatus (status h) = false
  /\ GatedFeed.StatusPill (status h) = "OPEN".
Proof. intros ->. repeat split. Qed.

Lemma unresolved_stays_visible (isResolvedStatus : option string -> bool)
  (showResolved : bool) (l : list HandoffRow) (h : HandoffRow) :
  isResolvedStatus (status h) = false ->
  h ∈ l -> h ∈ visibleHandoffsWith isResolvedStatus showResolved l.
Proof.
  intros Hu Hin.
  rewrite (visible_Permutation isResolvedStatus showResolved l).
  destruct showResolved; [exact Hin|].
  apply list_elem_of_In, List.filter_In. split.
  - now apply list_elem_of_In.
  - now rewrite Hu.
Qed.

(** C10.  The server-side resolve handler, for a valid bearer token and
    the id of an existing handoff, writes the status "closed" (and no
    timestamp).  Under the canonical policy of the detail screen and of
    the gated feed the row is then not resolved: its pill reads OPEN, the
    feed keeps it whether or not resolved rows are shown, and it stands
    in front of every resolved row. *)
Theorem server_resolve_writes_closed (w : Hosted.world) (req : NextRequest)
  (tok hid : string) (u : User) (h : HandoffRow) (j : string -> JS.value) :
  Resolve.matchBearer (JS.orStr (authorization req) "") = Some tok ->
  Hosted.accounts w !! tok = Some u ->
  json req = inr j ->
  j "handoff_id" = JS.VString hid ->
  hid <> "" ->
  Hosted.handoffs w !! hid = Some h ->
  (forall q, Hosted.fault w q = None) ->
  exists (w' : Hosted.world) (h' : HandoffRow),
    run Hosted.serve (Resolve.POST req) w
    = (respond Ok, w',
       [Request (GetUser tok); Request (closeWrite hid);
        Request (closeAudit (JS.VString hid) u)])
    /\ Hosted.handoffs w' !! hid = Some h'
    /\ status h' = Some "closed"
    /\ Detail.isResolvedStatus (status h') = false
    /\ GatedFeed.isResolvedStatus (status h') = false
    /\ GatedFeed.StatusPill (status h') = "OPEN"
    /\ (forall (showResolved : bool) (l : list HandoffRow),
          h' ∈ l -> h' ∈ GatedFeed.visibleHandoffs showResolved l)
    /\ (forall (showResolved : bool) (l : list HandoffRow) (i k : nat)
               (x : HandoffRow),
          GatedFeed.visibleHandoffs showResolved l !! i = Some x ->
          GatedFeed.visibleHandoffs showResolved l !! k = Some h' ->
          GatedFeed.isResolvedStatus (status x) = true -> (k < i)%nat).
Proof.
  intros Hauth Hacc Hjson Hfield Hid Hrow Hf.
  destruct (server_resolve_run w req tok hid u h j Hauth Hacc Hjson Hfield
              Hid Hrow Hf) as (w' & Hrun & Htab).
  eexists w', _. split; [exact Hrun|].
  split; [rewrite Htab; apply lookup_insert_eq|].
  split; [reflexivity|]. repeat split.
  - intros showResolved l. now apply unresolved_stays_visible.
  - intros showResolved l i k x Hi Hk Hx.
    eapply (visible_resolvedLast GatedFeed.isResolvedStatus); eauto.
Qed.

Lemma server_resolve_writes_closed_witness :
  exists (w' : Hosted.world) (h' : HandoffRow),
    run Hosted.serve (Resolve.POST resolveRequest) sampleWorld
    = (respond Ok, w',
       [Request (GetUser "tok1"); Request (closeWrite "h1");
        Request (closeAudit (JS.VString "h1") nurse)])
    /\ Hosted.handoffs w' !! "h1" = Some h'
    /\ status h' = Some "closed"
    /\ Detail.isResolvedStatus (status h') = false
    /\ GatedFeed.isResolvedStatus (status h') = false
    /\ GatedFeed.StatusPill (status h') = "OPEN"
    /\ (forall (showResolved : bool) (l : list HandoffRow),
          h' ∈ l -> h' ∈ GatedFeed.visibleHandoffs showResolved l)
    /\ (forall (showResolved : bool) (l : list HandoffRow) (i k : nat)
               (x : HandoffRow),
          GatedFeed.visibleHandoffs showResolved l !! i = Some x ->
          GatedFeed.visibleHandoffs showResolved l !! k = Some h' ->
          GatedFeed.isResolvedStatus (status x) = true -> (k < i)%nat).
Proof.
  apply (server_resolve_writes_closed sampleWorld resolveRequest "tok1" "h1"
           nurse (row "h1" 10 None (Some "open"))
           (fields [("handoff_id", JS.VString "h1")])).
  - reflexivity.
  - reflexivity.
  - reflexivity.
  - reflexivity.
  - discriminate.
  - reflexivity.
  - reflexivity.
Defined.

(** C4, at the server-side handler: asked to resolve the open handoff
    [h1], it leaves the row with status "closed" and without a last-update
    timestamp, and the detail screen that loads this row still offers
    "Mark Resolved".  The detail screen's own resolve, on the same table,
    writes "resolved" and the time of the click. *)
Theorem server_resolve_not_resolved :
  (let '(resp, w', _) := run Hosted.serve (Resolve.POST resolveRequest) sampleWorld in
   resp = respond Ok
   /\ Hosted.handoffs w' !! "h1" = Some (row "h1" 10 None (Some "closed"))
   /\ Detail.buttonEnabled
        {| Detail.loading := false; Detail.errorMsg := None;
           Detail.handoff := Hosted.handoffs w' !! "h1";
           Detail.updates := []; Detail.resolving := false;
           Detail.toast := None |} = true)
  /\ (let '(st', w', _) :=
        run Hosted.serve (Detail.clickMarkResolved (Some "h1") sampleScreen)
          sampleWorld in
      Hosted.handoffs w' !! "h1"
      = Some (row "h1" 10 (Some 1000) (Some "resolved"))
      /\ Detail.handoff st' = Some (row "h1" 10 (Some 1000) (Some "resolved"))
      /\ Detail.buttonEnabled st' = false).
Proof. split; vm_compute; repeat split. Qed.

(** ** The shared secret of the relay endpoints *)

(** The guard of /api/sms/alert and /api/sms/notify. *)
Lemma secret_guard (secret : string) (got : option string) :
  secret <> "" -> got <> Some secret ->
  JS.truthy (Some secret)
  && (negb (JS.truthy got)
      || negb (String.eqb (JS.orStr got "") (JS.orStr (Some secret) "")))
  = true.
Proof.
  intros Hs Hg. destruct secret as [|c s]; [contradiction|].
  destruct got as [[|d t]|]; try reflexivity.
  cbn [JS.truthy JS.orStr negb andb orb].
  destruct (String.eqb (String d t) (String c s)) eqn:E; [|reflexivity].
  apply String.eqb_eq in E. congruence.
Qed.

(** With a secret configured, a request to /api/sms/alert whose header
    does not carry it is answered 401 before anything is asked of the
    backend. *)
Lemma alert_unauthorized {W : Type} (b : backend W) (w : W) (secret : string)
  (req : NextRequest) :
  secret <> "" -> x_webhook_secret req <> Some secret ->
  run b (SmsAlert.POST (Some secret) req) w
  = (respondWith (Error "Unauthorized") 401, w, []).
Proof.
  intros Hs Hg. unfold SmsAlert.POST. now rewrite secret_guard.
Qed.

Lemma notify_unauthorized {W : Type} (b : backend W) (w : W) (secret : string)
  (req : NextRequest) :
  secret <> "" -> x_webhook_secret req <> Some secret ->
  run b (SmsNotify.POST (Some secret) req) w
  = (respondWith (Error "Unauthorized") 401, w, []).
Proof.
  intros Hs Hg. unfold SmsNotify.POST. now rewrite secret_guard.
Qed.

(** C6, at the token-addressed relay: the handler takes no secret and
    reads no secret header, so with "s3cret" configured for the
    deployment the request without the header is carried out (one update
    written, 200), where /api/sms/alert answers 401 and writes nothing. *)
Theorem token_relay_skips_secret :
  (let '(resp, w', log) := run Hosted.serve (SmsInbound.POST replyByToken) sampleWorld in
   resp = respond Ok
   /\ List.filter isWrite log
      = [Request (InsertUpdate Service
                    (SmsInbound.relayed (Some "h1") None
                       "Update: all clear H:AB12"))]
   /\ length (Hosted.updates w') = 1%nat)
  /\ run Hosted.serve (SmsAlert.POST (Some "s3cret") replyById) sampleWorld
     = (respondWith (Error "Unauthorized") 401, sampleWorld, []).
Proof. split; vm_compute; repeat split. Qed.

(** ** The onboarding gate *)

(** The gated feed, for any backend: a signed-in actor whose profile row
    is missing, or has a blank display name or shift, is sent to
    /onboarding, and the requests made are the session, the profile and
    the navigation: the [handoffs] table is not read. *)
Lemma gated_feed_redirects {W : Type} (b : backend W) (w w1 w2 w3 : W)
  (st : FeedScreen.t) (sess : reply User) (u : User) (prof : reply Profile) :
  b _ GetSession w = (sess, w1) ->
  error sess = None -> data sess = Some u -> user_id u <> "" ->
  b _ (SelectProfile (user_id u)) w1 = (prof, w2) ->
  error prof = None ->
  JS.trim (JS.orStr (data prof ≫= display_name) "") = ""
  \/ JS.trim (JS.orStr (data prof ≫= shift) "") = "" ->
  b _ (RouterPush "/onboarding") w2 = (tt, w3) ->
  exists st' : FeedScreen.t,
    run b (GatedFeed.loadSessionAndFeed st) w
    = (st', w3,
       [Request GetSession; Request (SelectProfile (user_id u));
        Request (RouterPush "/onboarding")])
    /\ FeedScreen.handoffs st' = FeedScreen.handoffs st
    /\ FeedScreen.loading st' = false.
Proof.
  intros Hs Hse Hsd Hu Hp Hpe Hblank Hr.
  unfold GatedFeed.loadSessionAndFeed. rewrite run_Do, Hs, Hse, Hsd.
  cbn [fmap option_fmap option_map]. destruct (user_id u) as [|c s] eqn:E;
    [contradiction|].
  cbn [JS.truthy negb JS.orStr]. rewrite run_Do, Hp, Hpe.
  assert (Hif : String.eqb (JS.trim (JS.orStr (data prof ≫= display_name) "")) ""
                || String.eqb (JS.trim (JS.orStr (data prof ≫= shift) "")) ""
                = true).
  { destruct Hblank as [-> | ->]; [reflexivity|apply orb_true_r]. }
  rewrite Hif, run_Do, Hr. cbn [run].
  eexists. repeat split.
Qed.

(** C9, at the two feeds without the gate: for the signed-in actor of
    [sampleWorld], who has no profile row, they read the [handoffs] table
    right after the session and navigate nowhere; the gated feed asks for
    the profile and navigates to /onboarding without reading [handoffs]. *)
Theorem ungated_feeds_fetch :
  (let '(st', w', log) := run Hosted.serve (AppFeed.loadSessionAndFeed emptyFeed) sampleWorld in
   log = [Request GetSession; Request SelectHandoffs]
   /\ existsb isHandoffRead log = true
   /\ Hosted.route w' = []
   /\ FeedScreen.handoffs st' = [row "h1" 10 None (Some "open")])
  /\ (let '(st', w', log) := run Hosted.serve (PlainFeed.loadSessionAndFeed emptyFeed) sampleWorld in
      log = [Request GetSession; Request SelectHandoffs]
      /\ existsb isHandoffRead log = true
      /\ Hosted.route w' = []
      /\ FeedScreen.handoffs st' = [row "h1" 10 None (Some "open")])
  /\ (let '(st', w', log) := run Hosted.serve (GatedFeed.loadSessionAndFeed emptyFeed) sampleWorld in
      log = [Request GetSession; Request (SelectProfile "u1");
             Request (RouterPush "/onboarding")]
      /\ existsb isHandoffRead log = false
      /\ Hosted.route w' = ["/onboarding"]
      /\ FeedScreen.handoffs st' = []).
Proof. repeat split. Qed.

(** ** The token pattern of the inbound relay *)

Lemma tokenRun_sound (hi lo : nat) (s t : string) :
  SmsInbound.tokenRun lo hi s = Some t ->
  exists post : string,
    s = t ++ post /\ (lo <= String.length t <= hi)%nat
    /\ allAlnum t = true /\ SmsInbound.boundaryAfterWord post = true.
Proof.
  assert (Hstop : forall (lo hi : nat) (s t : string),
            (if Nat.eqb lo 0 && SmsInbound.boundaryAfterWord s
             then Some EmptyString else None) = Some t ->
            exists post : string,
              s = t ++ post /\ (lo <= String.length t <= hi)%nat
              /\ allAlnum t = true
              /\ SmsInbound.boundaryAfterWord post = true).
  { intros lo' hi' s' t'. destruct lo'; simpl; [|discriminate].
    destruct (SmsInbound.boundaryAfterWord s') eqn:E; [|discriminate].
    intros [= <-]. exists s'. simpl. repeat split; auto; lia. }
  revert lo s t. induction hi as [|hi IH]; intros lo s t.
  - apply Hstop.
  - destruct s as [|c s]; [apply Hstop|].
    cbn [SmsInbound.tokenRun].
    destruct (SmsInbound.isAlnum c) eqn:Ec; [|apply Hstop].
    destruct (SmsInbound.tokenRun (Nat.pred lo) hi s) as [t'|] eqn:Et;
      [|apply Hstop].
    intros [= <-]. destruct (IH _ _ _ Et) as (post & -> & Hlen & Ha & Hb).
    exists post. simpl. rewrite Ec, Ha. repeat split; auto; lia.
Qed.

Lemma boundary_not_alnum (c : ascii) (s : string) :
  SmsInbound.boundaryAfterWord (String c s) = true ->
  SmsInbound.isAlnum c = false.
Proof.
  simpl. unfold SmsInbound.isWordChar.
  destruct (SmsInbound.isAlnum c); [discriminate|reflexivity].
Qed.

Lemma tokenRun_complete (t : string) (lo hi : nat) (post : string) :
  allAlnum t = true -> (lo <= String.length t <= hi)%nat ->
  SmsInbound.boundaryAfterWord post = true ->
  SmsInbound.tokenRun lo hi (t ++ post) = Some t.
Proof.
  revert lo hi. induction t as [|c t IH]; intros lo hi Ha Hlen Hb.
  - simpl in Hlen. assert (lo = 0%nat) as -> by lia.
    destruct hi; destruct post as [|d p]; simpl; try reflexivity.
    + simpl in Hb. now rewrite Hb.
    + rewrite (boundary_not_alnum d p Hb). simpl in Hb. now rewrite Hb.
  - simpl in Ha, Hlen. apply andb_prop in Ha as [Hc Ht].
    destruct hi as [|hi]; [lia|].
    change (String c t ++ post) with (String c (t ++ post)).
    cbn [SmsInbound.tokenRun]. rewrite Hc, IH; auto. lia.
Qed.

Lemma tokenFrom_sound (s : string) (prevWord : bool) (t : string) :
  SmsInbound.tokenFrom prevWord s = Some t ->
  exists pre post : string, tokenOccurs prevWord s pre t post.
Proof.
  revert prevWord. induction s as [|c s IH]; intros prevWord.
  - simpl. destruct prevWord; discriminate.
  - cbn [SmsInbound.tokenFrom].
    destruct (SmsInbound.tokenHere prevWord (String c s)) as [t'|] eqn:Eh.
    + intros [= ->]. unfold SmsInbound.tokenHere in Eh.
      destruct prevWord; [discriminate|].
      destruct c as [[] [] [] [] [] [] [] []]; try discriminate.
      destruct s as [|d r]; [discriminate|].
      destruct d as [[] [] [] [] [] [] [] []]; try discriminate.
      destruct (tokenRun_sound _ _ _ _ Eh) as (post & -> & Hlen & Ha & Hb).
      exists EmptyString, post. now constructor.
    + intros Hrec. destruct (IH _ Hrec) as (pre & post & [Hs Hbef Hlen Ha Hb]).
      exists (String c pre), post. constructor; auto.
      simpl. now rewrite Hs.
Qed.

Lemma tokenFrom_complete (pre : string) (prevWord : bool) (s tok post : string) :
  tokenOccurs prevWord s pre tok post ->
  is_Some (SmsInbound.tokenFrom prevWord s).
Proof.
  revert prevWord s. induction pre as [|c pre IH]; intros prevWord s
    [Hs Hbef Hlen Ha Hb].
  - simpl in Hbef. subst prevWord. subst s.
    change ("" ++ "H:" ++ tok ++ post) with (String "H" (String ":" (tok ++ post))).
    cbn [SmsInbound.tokenFrom SmsInbound.tokenHere].
    rewrite tokenRun_complete by auto. now eexists.
  - subst s. change (String c pre ++ "H:" ++ tok ++ post)
      with (String c (pre ++ "H:" ++ tok ++ post)).
    cbn [SmsInbound.tokenFrom].
    destruct (SmsInbound.tokenHere prevWord _); [now eexists|].
    apply IH. now constructor.
Qed.

(** [extractToken] finds a token exactly in the bodies that contain the
    pattern, and what it returns is one of its occurrences. *)
Lemma extractToken_occurs (body tok : string) :
  SmsInbound.extractToken body = Some tok ->
  exists pre post : string, tokenOccurs false body pre tok post.
Proof. apply tokenFrom_sound. Qed.

Lemma extractToken_None (body : string) :
  SmsInbound.extractToken body = None <-> ~ containsToken body.
Proof.
  split.
  - intros Hn (pre & tok & post & Hocc).
    destruct (tokenFrom_complete _ _ _ _ _ Hocc) as [t Ht].
    unfold SmsInbound.extractToken in Hn. congruence.
  - intros Hno. destruct (SmsInbound.extractToken body) as [t|] eqn:E;
      [|reflexivity].
    destruct (extractToken_occurs _ _ E) as (pre & post & Hocc).
    exfalso. apply Hno. now exists pre, t, post.
Qed.

Example extractToken_examples :
  SmsInbound.extractToken "Update: all clear H:AB12" = Some "AB12"
  /\ SmsInbound.extractToken "Update: all clear" = None
  /\ SmsInbound.extractToken "H:abc" = None
  /\ SmsInbound.extractToken "H:ABCDEFGHIJKLM" = None
  /\ SmsInbound.extractToken "see H:AB12, then H:CD34" = Some "AB12".
Proof. repeat split. Qed.

Lemma tokenHere_complete (prevWord : bool) (s tok post : string) :
  tokenOccurs prevWord s EmptyString tok post ->
  SmsInbound.tokenHere prevWord s = Some tok.
Proof.
  intros [Hs Hbef Hlen Ha Hb]. simpl in Hbef. subst prevWord s.
  change ("" ++ "H:" ++ tok ++ post) with (String "H" (String ":" (tok ++ post))).
  cbn [SmsInbound.tokenHere]. now apply tokenRun_complete.
Qed.

(** The occurrence that [extractToken] returns is the leftmost one. *)
Lemma tokenFrom_leftmost (s : string) (prevWord : bool) (t : string) :
  SmsInbound.tokenFrom prevWord s = Some t ->
  exists pre post : string,
    tokenOccurs prevWord s pre t post
    /\ forall pre2 t2 post2 : string,
         tokenOccurs prevWord s pre2 t2 post2 ->
         (String.length pre <= String.length pre2)%nat.
Proof.
  revert prevWord. induction s as [|c s IH]; intros prevWord.
  - simpl. destruct prevWord; discriminate.
  - intros Hfrom. pose proof Hfrom as Hfrom'. cbn [SmsInbound.tokenFrom] in Hfrom.
    destruct (SmsInbound.tokenHere prevWord (String c s)) as [t'|] eqn:Eh.
    + destruct (tokenFrom_sound _ _ _ Hfrom') as (pre & post & Hocc).
      injection Hfrom as ->. unfold SmsInbound.tokenHere in Eh.
      destruct prevWord; [discriminate|].
      destruct c as [[] [] [] [] [] [] [] []]; try discriminate.
      destruct s as [|d r]; [discriminate|].
      destruct d as [[] [] [] [] [] [] [] []]; try discriminate.
      destruct (tokenRun_sound _ _ _ _ Eh) as (post' & -> & Hlen & Ha & Hb).
      exists EmptyString, post'. split; [now constructor|].
      intros; simpl; lia.
    + destruct (IH _ Hfrom) as (pre & post & [Hs Hbef Hlen Ha Hb] & Hleft).
      exists (String c pre), post. split.
      * constructor; auto. simpl. now rewrite Hs.
      * intros pre2 t2 post2 Hocc2. destruct pre2 as [|c2 pre2].
        -- rewrite (tokenHere_complete _ _ _ _ Hocc2) in Eh. discriminate.
        -- destruct Hocc2 as [Hs2 Hbef2 Hlen2 Ha2 Hb2].
           simpl in Hs2. injection Hs2 as <- Hs2. simpl.
           apply le_n_S, (Hleft pre2 t2 post2). now constructor.
Qed.

(** ** The inbound relay addressed by token *)

(** C7.  For a request whose body reads as the message [text] from [from], on a
    backend that answers every request:
    - when the trimmed message carries the token pattern and the token it
      yields (the leftmost occurrence, [tokenFrom_leftmost]) is mapped to
      the handoff [Y], the relay looks the token up and inserts exactly
      one update, on [Y], with source "sms" and the trimmed message, and
      answers 200; the [handoffs] table is untouched;
    - when the trimmed message does not contain the pattern, it answers
      400 and asks nothing of the backend;
    - when the token has no mapping, it answers 404 after the lookup and
      writes nothing. *)
Theorem token_relay (w : Hosted.world) (req : NextRequest) (text : string)
  (from : option string) :
  SmsInbound.readBody req = inr (text, from) ->
  (forall q, Hosted.fault w q = None) ->
  (forall tok Y : string,
     SmsInbound.extractToken (JS.trim text) = Some tok ->
     Hosted.tokens w !! tok = Some Y -> Y <> "" ->
     let row := SmsInbound.relayed (Some Y) from (JS.trim text) in
     exists w' : Hosted.world,
       run Hosted.serve (SmsInbound.POST req) w
       = (respond Ok, w',
          [Request (SelectToken tok); Request (InsertUpdate Service row)])
       /\ Hosted.updates w' = (Hosted.updates w ++ [Hosted.stored w row])%list
       /\ handoff_id (Hosted.stored w row) = JS.VString Y
       /\ source (Hosted.stored w row) = "sms"
       /\ message (Hosted.stored w row) = JS.trim text
       /\ Hosted.handoffs w' = Hosted.handoffs w)
  /\ (~ containsToken (JS.trim text) ->
      run Hosted.serve (SmsInbound.POST req) w = (missingToken, w, []))
  /\ (forall tok : string,
        SmsInbound.extractToken (JS.trim text) = Some tok ->
        Hosted.tokens w !! tok = None ->
        run Hosted.serve (SmsInbound.POST req) w
        = (unknownToken, w, [Request (SelectToken tok)])).
Proof.
  intros Hbody Hf. unfold SmsInbound.POST. rewrite Hbody.
  split; [|split].
  - intros tok Y Htok Hmap HY. cbv zeta. rewrite Htok.
    assert (Hlen : tok <> "").
    { destruct (extractToken_occurs _ _ Htok) as (pre & post & [_ _ Hl _ _]).
      destruct tok; [simpl in Hl; lia|discriminate]. }
    destruct tok as [|c t]; [contradiction|].
    cbn [JS.truthy negb JS.orStr]. rewrite run_Do. hosted.
    rewrite Hf, Hmap. hosted.
    destruct Y as [|d y]; [contradiction|].
    cbn [mjoin option_join JS.truthy negb orb bool_decide decide_rel].
    assert (Hnone : bool_decide (is_Some (@None string)) = false)
      by (apply bool_decide_eq_false; intros [? ?]; discriminate).
    rewrite Hnone. cbn [orb]. rewrite run_Do. hosted. rewrite Hf.
    cbn [run]. eexists. repeat split.
  - intros Hno. apply extractToken_None in Hno. rewrite Hno. reflexivity.
  - intros tok Htok Hmap. rewrite Htok.
    assert (Hlen : tok <> "").
    { destruct (extractToken_occurs _ _ Htok) as (pre & post & [_ _ Hl _ _]).
      destruct tok; [simpl in Hl; lia|discriminate]. }
    destruct tok as [|c t]; [contradiction|].
    cbn [JS.truthy negb JS.orStr]. rewrite run_Do. hosted.
    rewrite Hf, Hmap. hosted.
    assert (Hsome : bool_decide (is_Some (Some "no rows returned")) = true)
      by (apply bool_decide_eq_true; eauto).
    rewrite Hsome. reflexivity.
Qed.

Lemma token_relay_witness :
  exists w' : Hosted.world,
    run Hosted.serve (SmsInbound.POST replyByToken) sampleWorld
    = (respond Ok, w',
       [Request (SelectToken "AB12");
        Request (InsertUpdate Service
                   (SmsInbound.relayed (Some "h1") None
                      "Update: all clear H:AB12"))])
    /\ Hosted.updates w'
       = [Hosted.stored sampleWorld
            (SmsInbound.relayed (Some "h1") None "Update: all clear H:AB12")].
Proof.
  destruct (proj1 (token_relay sampleWorld replyByToken
                     "Update: all clear H:AB12" None eq_refl
                     (fun _ => eq_refl))
              "AB12" "h1" eq_refl eq_refl ltac:(discriminate))
    as (w' & Hrun & Hupd & _).
  exists w'. split; [exact Hrun|exact Hupd].
Defined.

(** ** The outbound alert audit *)

Lemma slice0_length (n : nat) (s : string) :
  (String.length (JS.slice0 n s) <= n)%nat.
Proof.
  revert s. induction n as [|n IH]; intros [|c s]; simpl; try lia.
  specialize (IH s). lia.
Qed.

Lemma slice0_prefix (n : nat) (s : string) :
  exists rest : string, s = JS.slice0 n s ++ rest.
Proof.
  revert s. induction n as [|n IH]; intros s.
  - exists s. now destruct s.
  - destruct s as [|c s]; [now exists EmptyString|].
    destruct (IH s) as [rest Hrest]. exists rest.
    change (String c s = String c (JS.slice0 n s ++ rest)).
    f_equal. exact Hrest.
Qed.

Lemma slice0_short (n : nat) (s : string) :
  (String.length s <= n)%nat -> JS.slice0 n s = s.
Proof.
  revert s. induction n as [|n IH]; intros [|c s]; simpl; try lia; auto.
  intros H. rewrite IH; [reflexivity|lia].
Qed.

Lemma append_assoc (a b c : string) : (a ++ b) ++ c = a ++ (b ++ c).
Proof.
  induction a as [|x a IH]; [reflexivity|].
  change (String x ((a ++ b) ++ c) = String x (a ++ (b ++ c))).
  now rewrite IH.
Qed.

(** C8 (as amended).  For a request to /api/sms/notify that passes the
    shared-secret check and carries a handoff id and a priority, on a
    backend that answers every request: when the priority, read as text
    and lower-cased, is "high", exactly one update is inserted, with
    source "system" and a message that ends with the first 120 characters
    of the summary, and the answer says alerted; for any other priority
    nothing is asked of the backend and the answer says skipped.  When
    the priority, or for a high priority the location code or the
    summary, cannot be converted to text, the conversion throws: the
    answer is 500 with the exception's message and nothing is asked of
    the backend. *)
Theorem alert_audit (w : Hosted.world) (secret : option string)
  (req : NextRequest) (j : string -> JS.value) :
  JS.truthy secret = false \/ x_webhook_secret req = secret ->
  json req = inr j ->
  JS.toBoolean (j "handoff_id") = true ->
  JS.toBoolean (j "priority") = true ->
  (forall q, Hosted.fault w q = None) ->
  match JS.toString (j "priority") with
  | inl thrown =>
      run Hosted.serve (SmsNotify.POST secret req) w = (serverError thrown, w, [])
  | inr p =>
      if String.eqb (JS.toLowerCase p) "high" then
        match alertMessage j with
        | inl thrown =>
            run Hosted.serve (SmsNotify.POST secret req) w
            = (serverError thrown, w, [])
        | inr text =>
            exists w' : Hosted.world,
              run Hosted.serve (SmsNotify.POST secret req) w
              = (respond OkAlerted, w',
                 [Request (InsertUpdate Service (alertAudit j text))])
              /\ Hosted.updates w'
                 = (Hosted.updates w ++ [Hosted.stored w (alertAudit j text)])%list
              /\ Hosted.handoffs w' = Hosted.handoffs w
              /\ source (Hosted.stored w (alertAudit j text)) = "system"
              /\ exists lead summaryText : string,
                   JS.toString (JS.or (j "summary") (JS.VString ""))
                   = inr summaryText
                   /\ message (Hosted.stored w (alertAudit j text))
                      = lead ++ JS.slice0 120 summaryText
        end
      else
        run Hosted.serve (SmsNotify.POST secret req) w = (respond OkSkipped, w, [])
  end.
Proof.
  intros Hsecret Hjson Hid Hprio Hf.
  assert (Hguard :
    JS.truthy secret
    && (negb (JS.truthy (x_webhook_secret req))
        || negb (String.eqb (JS.orStr (x_webhook_secret req) "")
                            (JS.orStr secret ""))) = false).
  { destruct Hsecret as [-> | ->]; [reflexivity|].
    destruct secret as [[|c s]|]; try reflexivity.
    cbn [JS.truthy JS.orStr negb orb andb]. now rewrite String.eqb_refl. }
  unfold SmsNotify.POST. rewrite Hguard, Hjson, Hid, Hprio.
  cbn [negb orb].
  destruct (JS.toString (j "priority")) as [thrown|p]; [reflexivity|].
  destruct (String.eqb (JS.toLowerCase p) "high"); cbn [negb]; [|reflexivity].
  unfold alertMessage.
  destruct (if JS.toBoolean (j "location_code")
            then JS.template " [" (j "location_code") "]" else inr "")
    as [thrown|location]; [reflexivity|].
  destruct (JS.toString (JS.or (j "summary") (JS.VString "")))
    as [thrown|summaryText]; [reflexivity|].
  rewrite run_Do. hosted.
  match goal with |- context [InsertUpdate Service ?r] =>
    change r with (alertAudit j ("SYSTEM: SMS ALERT TRIGGERED (high)"
                                 ++ location ++ ": "
                                 ++ JS.slice0 120 summaryText)) end.
  rewrite Hf. cbn [run]. eexists. repeat split.
  exists ("SYSTEM: SMS ALERT TRIGGERED (high)" ++ location ++ ": "), summaryText.
  split; [reflexivity|].
  cbn [message Hosted.stored alertAudit ins_message].
  now rewrite !append_assoc.
Qed.

(** C8, as stated, fails.  The priority "HIGH" is not exactly "high", and
    the handler writes the audit update and answers alerted, not skipped.
    Besides, with the required fields present and the priority "high",
    a request that misses the configured secret is answered 401, and one
    whose insert the backend refuses is answered 400: neither appends an
    update nor says alerted. *)
Lemma alert_audit_not_exact :
  (let '(resp, w', log) :=
     run Hosted.serve (SmsNotify.POST None notifyCapitals) sampleWorld in
   String.eqb "HIGH" "high" = false
   /\ resp = respond OkAlerted
   /\ resp <> respond OkSkipped
   /\ length (List.filter isWrite log) = 1%nat
   /\ message <$> Hosted.updates w'
      = ["SYSTEM: SMS ALERT TRIGGERED (high) [4W]: Fall risk"])
  /\ run Hosted.serve (SmsNotify.POST (Some "s3cret") notifyHigh) sampleWorld
     = (respondWith (Error "Unauthorized") 401, sampleWorld, [])
  /\ (let '(resp, w', log) :=
        run Hosted.serve (SmsNotify.POST None notifyHigh) refusingWorld in
      resp = respondWith (Error "write refused") 400
      /\ Hosted.updates w' = []).
Proof.
  split; [|split].
  - vm_compute. repeat split. discriminate.
  - reflexivity.
  - vm_compute. repeat split.
Qed.

Lemma alert_audit_witness :
  exists w' : Hosted.world,
    run Hosted.serve (SmsNotify.POST (Some "s3cret")
                        (jsonRequest None (Some "s3cret")
                           [("handoff_id", JS.VString "h1");
                            ("priority", JS.VString "high")]))
      sampleWorld
    = (respond OkAlerted, w',
       [Request (InsertUpdate Service
                   (alertAudit (fields [("handoff_id", JS.VString "h1");
                                        ("priority", JS.VString "high")])
                      "SYSTEM: SMS ALERT TRIGGERED (high): "))])
    /\ length (Hosted.updates w') = 1%nat.
Proof.
  destruct (alert_audit sampleWorld (Some "s3cret")
              (jsonRequest None (Some "s3cret")
                 [("handoff_id", JS.VString "h1");
                  ("priority", JS.VString "high")])
              (fields [("handoff_id", JS.VString "h1");
                       ("priority", JS.VString "high")])
              (or_intror eq_refl) eq_refl eq_refl eq_refl (fun _ => eq_refl))
    as (w' & Hrun & Hupd & _).
  exists w'. split; [exact Hrun|]. rewrite Hupd. reflexivity.
Defined.

(** A summary that does not convert to text ends the handler in its
    [catch]: 500, and nothing written. *)
Example alert_audit_unconverted :
  run Hosted.serve (SmsNotify.POST None notifyUnconverted) sampleWorld
  = (respondWith (Error "Cannot convert object to primitive value") 500,
     sampleWorld, []).
Proof. reflexivity. Qed.

(** * Further properties *)

(** ** What the gated feed shows *)

Lemma filter_split_length {A : Type} (f : A -> bool) (l : list A) :
  (length (List.filter (fun x => negb (f x)) l) + length (List.filter f l)
   = length l)%nat.
Proof.
  induction l as [|a l IH]; simpl; [reflexivity|].
  destruct (f a); simpl; lia.
Qed.

Lemma visible_length (isResolvedStatus : option string -> bool)
  (showResolved : bool) (l : list HandoffRow) :
  length (visibleHandoffsWith isResolvedStatus showResolved l)
  = if showResolved then length l
    else length (List.filter (fun h => negb (isResolvedStatus (status h))) l).
Proof.
  rewrite (Permutation_length
             (visible_Permutation isResolvedStatus showResolved l)).
  now destruct showResolved.
Qed.

(** X1.  The two counters of the header add up to the number of handoffs,
    and the feed shows as many cards as the header says: the open count
    with resolved rows hidden, the total with them shown. *)
Theorem feed_counts (st : FeedScreen.t) :
  (GatedFeedView.openCount (FeedScreen.handoffs st)
   + GatedFeedView.resolvedCount (FeedScreen.handoffs st)
   = length (FeedScreen.handoffs st))%nat
  /\ length (GatedFeedView.visibleHandoffs st)
     = (if FeedScreen.showResolved st
        then (GatedFeedView.openCount (FeedScreen.handoffs st)
              + GatedFeedView.resolvedCount (FeedScreen.handoffs st))%nat
        else GatedFeedView.openCount (FeedScreen.handoffs st)).
Proof.
  assert (Hsum := filter_split_length
            (fun h => GatedFeed.isResolvedStatus (status h))
            (FeedScreen.handoffs st)).
  split; [exact Hsum|].
  unfold GatedFeedView.visibleHandoffs, GatedFeed.visibleHandoffs.
  rewrite visible_length. unfold GatedFeedView.openCount,
    GatedFeedView.resolvedCount.
  destruct (FeedScreen.showResolved st); [now rewrite Hsum|reflexivity].
Qed.

Lemma length_zero_nil {A : Type} (l : list A) : length l = 0%nat -> l = [].
Proof. now destruct l. Qed.

Lemma card_rows (l : list HandoffRow) :
  GatedFeedView.card_row <$> (GatedFeedView.card <$> l) = l.
Proof.
  induction l as [|h l IH]; [reflexivity|].
  rewrite !fmap_cons, IH. reflexivity.
Qed.

(** X2.  The content area tells the truth: "No handoffs yet" appears only
    when the screen holds no handoff at all, "No open handoffs right now"
    only when none is open, the cards are never an empty list, there are
    as many as the toggle and the counters say, and the note "No other
    open handoffs right now." goes with exactly one card. *)
Theorem feed_content_truthful (st : FeedScreen.t) :
  match GatedFeedView.content st with
  | GatedFeedView.Skeleton => FeedScreen.loading st = true
  | GatedFeedView.SignInPrompt => JS.truthy (FeedScreen.userId st) = false
  | GatedFeedView.AllClear text =>
      if FeedScreen.showResolved st
      then text = "No handoffs yet. Create the first one."
           /\ FeedScreen.handoffs st = []
      else text = "No open handoffs right now. You can create one, or show resolved."
           /\ GatedFeedView.openCount (FeedScreen.handoffs st) = 0%nat
  | GatedFeedView.Cards alone cards =>
      cards <> []
      /\ GatedFeedView.card_row <$> cards = GatedFeedView.visibleHandoffs st
      /\ length cards
         = (if FeedScreen.showResolved st then length (FeedScreen.handoffs st)
            else GatedFeedView.openCount (FeedScreen.handoffs st))
      /\ (alone = true -> length cards = 1%nat)
  end.
Proof.
  destruct (feed_counts st) as [Hsum Hlen].
  unfold GatedFeedView.content, GatedFeedView.hasVisible.
  destruct (FeedScreen.loading st); [reflexivity|].
  destruct (JS.truthy (FeedScreen.userId st)); [|reflexivity].
  cbn [negb]. destruct (Nat.ltb_spec 0 (length (GatedFeedView.visibleHandoffs st)))
    as [Hpos|Hzero]; cbn [negb].
  - pose proof (card_rows (GatedFeedView.visibleHandoffs st)) as Hmap.
    repeat split.
    + intros Hnil. apply (f_equal length) in Hnil.
      rewrite length_fmap in Hnil. simpl in Hnil. lia.
    + exact Hmap.
    + rewrite length_fmap, Hlen.
      destruct (FeedScreen.showResolved st); [exact Hsum|reflexivity].
    + rewrite length_fmap, Hlen. intros Halone.
      apply andb_prop in Halone as [Hone Hshow].
      apply Nat.eqb_eq in Hone. apply negb_true_iff in Hshow.
      now rewrite Hshow.
  - assert (Hnone : length (GatedFeedView.visibleHandoffs st) = 0%nat) by lia.
    rewrite Hlen in Hnone.
    destruct (FeedScreen.showResolved st); split; try reflexivity.
    + apply length_zero_nil. lia.
    + exact Hnone.
Qed.

(** X3.  The treatment of a card follows its pill.  A RESOLVED card has
    the muted look (no shadow, opacity 0.62), no pulse and no badge; a
    FOLLOW-UP card, and no other, pulses and carries the "Needs
    follow-up" badge; every card that is not RESOLVED glows in the colour
    of its priority at opacity 0.96. *)
Theorem card_treatment (h : HandoffRow) :
  let c := GatedFeedView.card h in
  (GatedFeedView.card_pill c = "RESOLVED"
   <-> GatedFeedView.card_style c !! "boxShadow" = Some "none")
  /\ (GatedFeedView.card_pill c = "RESOLVED" ->
      GatedFeedView.card_style c !! "opacity" = Some "0.62"
      /\ GatedFeedView.card_style c !! "animation" = None
      /\ GatedFeedView.card_badge c = false)
  /\ (GatedFeedView.card_pill c = "FOLLOW-UP"
      <-> GatedFeedView.card_style c !! "animation" = Some GatedFeedView.pulse)
  /\ (GatedFeedView.card_pill c = "FOLLOW-UP"
      <-> GatedFeedView.card_badge c = true)
  /\ (GatedFeedView.card_pill c <> "RESOLVED" ->
      GatedFeedView.card_style c !! "boxShadow"
      = GatedFeedView.glowStyleForPriority (Some (priority h)) !! "boxShadow"
      /\ GatedFeedView.card_style c !! "opacity" = Some "0.96").
Proof.
  cbv zeta. unfold GatedFeedView.card, GatedFeedView.cardStyle,
    GatedFeedView.glowStyleForPriority, GatedFeed.StatusPill,
    GatedFeed.isResolvedStatus, GatedFeed.isFollowupStatus.
  cbn [GatedFeedView.card_pill GatedFeedView.card_style
       GatedFeedView.card_badge].
  destruct (String.eqb (GatedFeed.normStatus (status h)) "resolved") eqn:Er;
    destruct (String.eqb (GatedFeed.normStatus (status h)) "needs_followup")
      eqn:Ef.
  - apply String.eqb_eq in Er. apply String.eqb_eq in Ef.
    rewrite Er in Ef. discriminate.
  - repeat split; try reflexivity; try discriminate; intros; congruence.
  - destruct (String.eqb (JS.toLowerCase (JS.orStr (Some (priority h)) "")) "high");
      [|destruct (String.eqb (JS.toLowerCase (JS.orStr (Some (priority h)) ""))
                   "medium")];
      repeat split; try reflexivity; try discriminate; intros; congruence.
  - destruct (String.eqb (JS.toLowerCase (JS.orStr (Some (priority h)) "")) "high");
      [|destruct (String.eqb (JS.toLowerCase (JS.orStr (Some (priority h)) ""))
                   "medium")];
      repeat split; try reflexivity; try discriminate; intros; congruence.
Qed.

Lemma filter_filter_comm {A : Type} (f g : A -> bool) (l : list A) :
  List.filter f (List.filter g l) = List.filter g (List.filter f l).
Proof.
  induction l as [|a l IH]; [reflexivity|]. cbn [List.filter].
  destruct (f a) eqn:Ef, (g a) eqn:Eg; cbn [List.filter];
    rewrite ?Ef, ?Eg, IH; reflexivity.
Qed.

(** X4.  What a feed shows is a stable sorting of the rows it keeps (all
    the rows with the toggle on, the unresolved ones with it off): each
    kept row appears exactly as often as the backend returned it, and rows
    of one group with equal effective timestamps stay in the order the
    backend returned them.  This holds for each feed's own
    [isResolvedStatus], the timestamps being dates. *)
Theorem feed_stable (isResolvedStatus : option string -> bool)
  (showResolved : bool) (handoffs : list HandoffRow) :
  Forall validTime handoffs ->
  stableSorting (compareHandoffs isResolvedStatus) validTime
    (if showResolved then handoffs
     else List.filter (fun h => negb (isResolvedStatus (status h))) handoffs)
    (visibleHandoffsWith isResolvedStatus showResolved handoffs).
Proof.
  intros Hv.
  destruct (sort_stableSorting (compareHandoffs isResolvedStatus) validTime
              (compare_antisym isResolvedStatus)
              (inOrder_trans isResolvedStatus) handoffs Hv)
    as (Hp & Hs & Hf).
  split; [apply visible_Permutation|]. split.
  - unfold visibleHandoffsWith. destruct showResolved; [exact Hs|].
    now apply StronglySorted_filter.
  - intros x Hx. unfold visibleHandoffsWith.
    destruct showResolved; [now apply Hf|].
    rewrite filter_filter_comm, (Hf x Hx). apply filter_filter_comm.
Qed.

Lemma feed_stable_witness :
  stableSorting (compareHandoffs GatedFeed.isResolvedStatus) validTime
    (List.filter (fun h => negb (GatedFeed.isResolvedStatus (status h)))
       sampleFeed)
    (visibleHandoffsWith GatedFeed.isResolvedStatus false sampleFeed).
Proof.
  apply (feed_stable GatedFeed.isResolvedStatus false sampleFeed).
  repeat constructor; eexists; reflexivity.
Defined.

(** ** The feed loaders, whatever the backend answers *)

Lemma fetchFeed_readOnly {W : Type} (b : backend W) (w : W) (st : FeedScreen.t) :
  readOnly (run b (FeedScreen.fetchFeed st) w).2.
Proof.
  unfold FeedScreen.fetchFeed. rewrite run_Do.
  destruct (b _ SelectHandoffs w) as [r w1].
  destruct (error r); cbn [run snd]; split; repeat constructor.
Qed.

Lemma readOnly_cons (q : request) (log : list request) :
  isWrite q = false -> isHandoffRead q = false ->
  readOnly log -> readOnly (q :: log).
Proof.
  intros Hw Hr [Hl Hn]. split; [now constructor|].
  cbn [List.filter]. now rewrite Hr.
Qed.

Lemma readOnly_nil : readOnly [].
Proof. split; [constructor|cbn; lia]. Qed.

Lemma run_log_Do {W R X : Type} (b : backend W) (c : call X) (k : X -> prog R)
  (w : W) :
  (run b (Do c k) w).2 = Request c :: (run b (k (b X c w).1) (b X c w).2).2.
Proof.
  rewrite run_Do. destruct (b X c w) as [x w1]. cbn [fst snd].
  now destruct (run b (k x) w1) as [[r w2] log].
Qed.

(** X5.  Loading a feed never writes.  Whatever the backend answers and
    whatever the screen held, each of the three [loadSessionAndFeed]
    issues no update and no insert, and reads the [handoffs] table at most
    once. *)
Theorem feeds_read_only {W : Type} (b : backend W) (w : W) (st : FeedScreen.t) :
  readOnly (run b (GatedFeed.loadSessionAndFeed st) w).2
  /\ readOnly (run b (PlainFeed.loadSessionAndFeed st) w).2
  /\ readOnly (run b (AppFeed.loadSessionAndFeed st) w).2.
Proof.
  split; [|split].
  - unfold GatedFeed.loadSessionAndFeed. rewrite run_log_Do.
    apply readOnly_cons; try reflexivity.
    destruct (error (b _ GetSession w).1); [apply readOnly_nil|].
    destruct (negb (JS.truthy (user_id <$> data (b _ GetSession w).1)));
      [apply readOnly_nil|].
    rewrite run_log_Do. apply readOnly_cons; try reflexivity.
    match goal with |- context [error ?r] => destruct (error r) end;
      [apply readOnly_nil|].
    match goal with |- context [if ?c then _ else _] => destruct c end.
    + rewrite run_log_Do. apply readOnly_cons; try reflexivity.
      apply readOnly_nil.
    + apply fetchFeed_readOnly.
  - unfold PlainFeed.loadSessionAndFeed. rewrite run_log_Do.
    apply readOnly_cons; try reflexivity.
    destruct (error (b _ GetSession w).1); [apply readOnly_nil|].
    destruct (negb (JS.truthy (user_id <$> data (b _ GetSession w).1)));
      [apply readOnly_nil|apply fetchFeed_readOnly].
  - unfold AppFeed.loadSessionAndFeed. rewrite run_log_Do.
    apply readOnly_cons; try reflexivity.
    destruct (error (b _ GetSession w).1); [apply readOnly_nil|].
    destruct (negb (JS.truthy (user_id <$> data (b _ GetSession w).1)));
      [apply readOnly_nil|apply fetchFeed_readOnly].
Qed.

(** X6.  A feed without a session asks nothing but the session.  When the
    session request fails, the message is shown and the screen keeps the
    rows and the user it had; when nobody is signed in, the rows are
    cleared.  Either way loading ends, the toggle is left alone and no
    table is read.  This holds for the three feeds. *)
Theorem feed_without_session {W : Type} (b : backend W) (w w1 : W)
  (st : FeedScreen.t) (sess : reply User)
  (load : FeedScreen.t -> prog FeedScreen.t) :
  load ∈ feedLoaders ->
  b _ GetSession w = (sess, w1) ->
  error sess <> None \/ JS.truthy (user_id <$> data sess) = false ->
  exists st' : FeedScreen.t,
    run b (load st) w = (st', w1, [Request GetSession])
    /\ FeedScreen.loading st' = false
    /\ FeedScreen.showResolved st' = FeedScreen.showResolved st
    /\ match error sess with
       | Some msg =>
           FeedScreen.errorMsg st' = Some msg
           /\ FeedScreen.handoffs st' = FeedScreen.handoffs st
           /\ FeedScreen.userId st' = FeedScreen.userId st
           /\ FeedScreen.sessionEmail st' = FeedScreen.sessionEmail st
       | None =>
           FeedScreen.errorMsg st' = None
           /\ FeedScreen.handoffs st' = []
           /\ FeedScreen.userId st' = (user_id <$> data sess)
           /\ FeedScreen.sessionEmail st' = (data sess ≫= user_email)
       end.
Proof.
  intros Hin Hs Hno. unfold feedLoaders in Hin.
  repeat (apply elem_of_cons in Hin as [-> | Hin]);
    [| | |now apply elem_of_nil in Hin].
  all: unfold GatedFeed.loadSessionAndFeed, PlainFeed.loadSessionAndFeed,
         AppFeed.loadSessionAndFeed;
       rewrite run_Do, Hs;
       destruct (error sess) as [msg|] eqn:Ee;
       [cbn [run]; eexists; repeat split|];
       destruct Hno as [Hno | Hno]; [contradiction|];
       rewrite Hno; cbn [negb run]; eexists; repeat split.
Qed.

Lemma feed_without_session_witness :
  exists st' : FeedScreen.t,
    run Hosted.serve (GatedFeed.loadSessionAndFeed staleFeed) signedOutWorld
    = (st', signedOutWorld, [Request GetSession])
    /\ FeedScreen.handoffs st' = [].
Proof.
  destruct (feed_without_session Hosted.serve signedOutWorld signedOutWorld
              staleFeed {| data := None; error := None |}
              GatedFeed.loadSessionAndFeed
              ltac:(unfold feedLoaders; apply list_elem_of_here)
              eq_refl (or_intror eq_refl))
    as (st' & Hrun & _ & _ & _ & Hrows & _).
  exists st'. split; [exact Hrun|exact Hrows].
Defined.

(** X7.  The gate lets a complete profile through.  For a signed-in
    actor whose profile row has a display name and a shift that are not
    blank, the gated feed asks for the session, the profile and the
    handoffs, in this order, and navigates nowhere; it then shows the rows
    the query returned, or, if the query failed, its message over the
    rows it had. *)
Theorem gated_feed_admits {W : Type} (b : backend W) (w w1 w2 w3 : W)
  (st : FeedScreen.t) (sess : reply User) (u : User) (prof : reply Profile)
  (p : Profile) (rows : reply (list HandoffRow)) :
  b _ GetSession w = (sess, w1) ->
  error sess = None -> data sess = Some u -> user_id u <> "" ->
  b _ (SelectProfile (user_id u)) w1 = (prof, w2) ->
  error prof = None -> data prof = Some p ->
  JS.trim (JS.orStr (display_name p) "") <> "" ->
  JS.trim (JS.orStr (shift p) "") <> "" ->
  b _ SelectHandoffs w2 = (rows, w3) ->
  exists st' : FeedScreen.t,
    run b (GatedFeed.loadSessionAndFeed st) w
    = (st', w3,
       [Request GetSession; Request (SelectProfile (user_id u));
        Request SelectHandoffs])
    /\ FeedScreen.loading st' = false
    /\ FeedScreen.userId st' = Some (user_id u)
    /\ match error rows with
       | Some msg =>
           FeedScreen.errorMsg st' = Some msg
           /\ FeedScreen.handoffs st' = FeedScreen.handoffs st
       | None =>
           FeedScreen.errorMsg st' = None
           /\ FeedScreen.handoffs st' = default [] (data rows)
       end.
Proof.
  intros Hs Hse Hsd Hu Hp Hpe Hpd Hdn Hsh Hr.
  unfold GatedFeed.loadSessionAndFeed. rewrite run_Do, Hs, Hse, Hsd.
  cbn [fmap option_fmap option_map].
  destruct (user_id u) as [|c s] eqn:E; [contradiction|].
  cbn [JS.truthy negb JS.orStr]. rewrite run_Do, Hp, Hpe, Hpd.
  cbn [mbind option_bind].
  apply String.eqb_neq in Hdn, Hsh. rewrite Hdn, Hsh. cbn [orb].
  unfold FeedScreen.fetchFeed. rewrite run_Do, Hr.
  destruct (error rows); cbn [run]; eexists; repeat split.
Qed.

Lemma gated_feed_admits_witness :
  exists st' : FeedScreen.t,
    run Hosted.serve (GatedFeed.loadSessionAndFeed emptyFeed) onboardedWorld
    = (st', onboardedWorld,
       [Request GetSession; Request (SelectProfile "u1");
        Request SelectHandoffs])
    /\ FeedScreen.handoffs st' = [row "h1" 10 None (Some "open")].
Proof.
  destruct (gated_feed_admits Hosted.serve onboardedWorld onboardedWorld
              onboardedWorld onboardedWorld emptyFeed (Hosted.fine nurse)
              nurse
              (Hosted.fine {| display_name := Some "RN Ada";
                              shift := Some "night" |})
              {| display_name := Some "RN Ada"; shift := Some "night" |}
              (Hosted.fine [row "h1" 10 None (Some "open")])
              eq_refl eq_refl eq_refl ltac:(discriminate) eq_refl eq_refl
              eq_refl ltac:(discriminate) ltac:(discriminate) eq_refl)
    as (st' & Hrun & _ & _ & _ & Hrows).
  exists st'. split; [exact Hrun|exact Hrows].
Defined.

(** X8.  A failing profile query stops the gated feed where it is: the
    message is shown over the rows the screen had, the actor is not sent
    to onboarding, and the [handoffs] table is not read. *)
Theorem gated_feed_profile_error {W : Type} (b : backend W) (w w1 w2 : W)
  (st : FeedScreen.t) (sess : reply User) (u : User) (prof : reply Profile)
  (msg : string) :
  b _ GetSession w = (sess, w1) ->
  error sess = None -> data sess = Some u -> user_id u <> "" ->
  b _ (SelectProfile (user_id u)) w1 = (prof, w2) ->
  error prof = Some msg ->
  exists st' : FeedScreen.t,
    run b (GatedFeed.loadSessionAndFeed st) w
    = (st', w2, [Request GetSession; Request (SelectProfile (user_id u))])
    /\ FeedScreen.errorMsg st' = Some msg
    /\ FeedScreen.handoffs st' = FeedScreen.handoffs st
    /\ FeedScreen.loading st' = false.
Proof.
  intros Hs Hse Hsd Hu Hp Hpe.
  unfold GatedFeed.loadSessionAndFeed. rewrite run_Do, Hs, Hse, Hsd.
  cbn [fmap option_fmap option_map].
  destruct (user_id u) as [|c s] eqn:E; [contradiction|].
  cbn [JS.truthy negb JS.orStr]. rewrite run_Do, Hp, Hpe.
  cbn [run]. eexists. repeat split.
Qed.

Lemma gated_feed_profile_error_witness :
  exists st' : FeedScreen.t,
    run Hosted.serve (GatedFeed.loadSessionAndFeed staleFeed) unreadableWorld
    = (st', unreadableWorld, [Request GetSession; Request (SelectProfile "u1")])
    /\ FeedScreen.errorMsg st' = Some "read failed"
    /\ FeedScreen.handoffs st' = [row "h0" 1 None (Some "open")]
    /\ FeedScreen.loading st' = false.
Proof.
  apply (gated_feed_profile_error Hosted.serve unreadableWorld unreadableWorld
           unreadableWorld staleFeed (Hosted.fine nurse) nurse
           (Hosted.failed "read failed") "read failed").
  - reflexivity.
  - reflexivity.
  - reflexivity.
  - discriminate.
  - reflexivity.
  - reflexivity.
Defined.

(** ** The detail screen, whatever the backend answers *)

(** X9.  [load] replaces the handoff and its updates together or not at
    all.  It never writes; without a route id it does nothing; otherwise
    loading ends, and an error message on the screen means the handoff and
    the updates are the ones the screen had, while no error means the
    session, the handoff and its updates were asked for, in this order.
    The toast and the resolving flag are left alone. *)
Theorem load_all_or_nothing {W : Type} (b : backend W) (w : W)
  (routeId : option string) (st : Detail.Screen) :
  let '(st', _, log) := run b (Detail.load routeId st) w in
  let rid := JS.orStr routeId "" in
  Forall (fun q => isWrite q = false) log
  /\ (JS.truthy routeId = false -> st' = st /\ log = [])
  /\ (JS.truthy routeId = true -> Detail.loading st' = false)
  /\ (Detail.errorMsg st' <> None ->
      Detail.handoff st' = Detail.handoff st
      /\ Detail.updates st' = Detail.updates st)
  /\ (JS.truthy routeId = true -> Detail.errorMsg st' = None ->
      log = [Request GetSession; Request (SelectHandoff rid);
             Request (SelectUpdates rid)])
  /\ Detail.resolving st' = Detail.resolving st
  /\ Detail.toast st' = Detail.toast st.
Proof.
  unfold Detail.load. destruct (JS.truthy routeId); cbn [negb].
  - rewrite run_Do. destruct (b _ GetSession w) as [sess w1].
    destruct (negb (JS.truthy (user_id <$> data sess))).
    { cbn. repeat split; try discriminate; repeat constructor. }
    rewrite run_Do.
    destruct (b _ (SelectHandoff (JS.orStr routeId "")) w1) as [h w2].
    destruct (error h).
    { cbn. repeat split; try discriminate; repeat constructor. }
    rewrite run_Do.
    destruct (b _ (SelectUpdates (JS.orStr routeId "")) w2) as [u w3].
    destruct (error u).
    { cbn. repeat split; try discriminate; repeat constructor. }
    cbn. repeat split; try discriminate; try congruence; repeat constructor.
  - cbn. repeat split; try discriminate; try congruence; constructor.
Qed.

(** X10.  An error of the backend on the write of [markResolved] is shown
    as it came: the screen carries the message and no success toast, keeps
    the handoff and the updates it had, ends the resolving state, and
    nothing is asked after the write (no reload). *)
Theorem resolve_backend_error {W : Type} (b : backend W) (w w1 w2 : W)
  (routeId : option string) (st : Detail.Screen) (h : HandoffRow) (now : Z)
  (r : reply (list UpdatedRow)) (msg : string) :
  Detail.handoff st = Some h ->
  id h <> "" ->
  b _ Now w = (now, w1) ->
  b _ (resolveWrite (id h) now) w1 = (r, w2) ->
  error r = Some msg ->
  exists st' : Detail.Screen,
    run b (Detail.markResolved routeId st) w
    = (st', w2, [Request Now; Request (resolveWrite (id h) now)])
    /\ Detail.errorMsg st' = Some msg
    /\ Detail.toast st' = None
    /\ Detail.handoff st' = Detail.handoff st
    /\ Detail.updates st' = Detail.updates st
    /\ Detail.resolving st' = false.
Proof.
  intros Hh Hid Hnow Hupd Herr.
  unfold Detail.markResolved. simpl Detail.handoff. rewrite Hh. simpl.
  destruct (id h) as [|c s] eqn:E; [contradiction|]. simpl.
  rewrite Hnow. unfold resolveWrite in Hupd. rewrite Hupd, Herr.
  simpl. eexists. repeat split; auto.
Qed.

Lemma resolve_backend_error_witness :
  exists st' : Detail.Screen,
    run Hosted.serve (Detail.markResolved (Some "h1") sampleScreen)
      refusingWorld
    = (st', refusingWorld, [Request Now; Request (resolveWrite "h1" 1000)])
    /\ Detail.errorMsg st' = Some "write refused"
    /\ Detail.toast st' = None
    /\ Detail.handoff st' = Detail.handoff sampleScreen
    /\ Detail.updates st' = Detail.updates sampleScreen
    /\ Detail.resolving st' = false.
Proof.
  apply (resolve_backend_error Hosted.serve refusingWorld refusingWorld
           refusingWorld (Some "h1") sampleScreen
           (row "h1" 10 None (Some "open")) 1000
           (Hosted.failed "write refused") "write refused").
  - reflexivity.
  - discriminate.
  - reflexivity.
  - reflexivity.
  - reflexivity.
Defined.

(** What [load] leaves alone, and that it does not write. *)
Lemma load_run {W : Type} (b : backend W) (w : W) (routeId : option string)
  (st : Detail.Screen) :
  exists (st' : Detail.Screen) (w' : W) (log : list request),
    run b (Detail.load routeId st) w = (st', w', log)
    /\ List.filter isWrite log = []
    /\ Detail.toast st' = Detail.toast st
    /\ Detail.resolving st' = Detail.resolving st.
Proof.
  unfold Detail.load. destruct (JS.truthy routeId); cbn [negb].
  - rewrite run_Do. destruct (b _ GetSession w) as [sess w1].
    destruct (negb (JS.truthy (user_id <$> data sess))).
    { cbn. eexists _, _, _. repeat split. }
    rewrite run_Do.
    destruct (b _ (SelectHandoff (JS.orStr routeId "")) w1) as [h w2].
    destruct (error h).
    { cbn. eexists _, _, _. repeat split. }
    rewrite run_Do.
    destruct (b _ (SelectUpdates (JS.orStr routeId "")) w2) as [u w3].
    destruct (error u); cbn; eexists _, _, _; repeat split.
  - cbn. eexists _, _, _. repeat split.
Qed.

(** X11.  [markResolved] writes at most once, and only the handoff on the
    screen: the writes of a run are none, or the single update that sets
    that handoff to "resolved"; no update row is ever inserted.  The
    success toast is on the screen only after that write was made, and
    without a handoff on the screen nothing is asked of the backend. *)
Theorem resolve_single_write {W : Type} (b : backend W) (w : W)
  (routeId : option string) (st : Detail.Screen) :
  let '(st', _, log) := run b (Detail.markResolved routeId st) w in
  let hid := JS.orStr (id <$> Detail.handoff st) "" in
  (List.filter isWrite log = []
   \/ exists now : Z, List.filter isWrite log = [Request (resolveWrite hid now)])
  /\ (Detail.toast st' = Some Detail.resolvedToast ->
      exists now : Z,
        List.filter isWrite log = [Request (resolveWrite hid now)])
  /\ (JS.truthy (id <$> Detail.handoff st) = false -> log = []).
Proof.
  unfold Detail.markResolved.
  cbn [Detail.handoff Detail.setToast Detail.setErrorMsg Detail.setResolving].
  destruct (JS.truthy (id <$> Detail.handoff st)); cbn [negb].
  - rewrite run_Do. destruct (b _ Now w) as [now w1].
    rewrite run_Do.
    match goal with |- context [b _ ?c w1] => destruct (b _ c w1) as [r w2] end.
    destruct (error r).
    { cbn. repeat split; try discriminate. right. now exists now. }
    destruct (data r) as [[|updated rest]|].
    1,3: cbn; repeat split; try discriminate; right; now exists now.
    rewrite run_bind.
    match goal with |- context [run b (Detail.load ?i ?s) w2] =>
      destruct (load_run b w2 i s) as (st1 & w3 & log1 & -> & Hlog & _ & _)
    end.
    cbn [run app List.filter isWrite projT2 Request].
    rewrite List.filter_app, Hlog. cbn [List.filter app].
    repeat split; try discriminate.
    + right. now exists now.
    + intros _. now exists now.
  - cbn. repeat split; try discriminate. now left.
Qed.

(** X12.  The SMS button of the detail screen cannot succeed against the
    route it calls.  [sendSms] posts the handoff's id, summary, priority
    and location to /api/sms/alert, without the secret header and without
    a message; the route answers 401 when a secret is configured and 400
    otherwise.  So for every handoff and every backend the screen shows
    the route's error, no "SMS sent" toast, and nothing is written. *)
Theorem sendSms_rejected {W : Type} (b : backend W) (w : W)
  (webhookSecret : option string) (formView : list (string * string))
  (st : Detail.Screen) (sending : bool) (h : HandoffRow) :
  Detail.handoff st = Some h ->
  exists st' : Detail.Screen,
    run b (DetailSms.sendSms webhookSecret formView (st, sending)) w
    = ((st', false), w, [])
    /\ Detail.toast st' = None
    /\ Detail.errorMsg st'
       = Some (if JS.truthy webhookSecret then "Unauthorized"
               else "handoff_id and message are required")
    /\ Detail.handoff st' = Detail.handoff st.
Proof.
  intros Hh. unfold DetailSms.sendSms.
  cbn [fst snd Detail.handoff Detail.setToast Detail.setErrorMsg].
  rewrite Hh, run_bind. unfold SmsAlert.POST.
  destruct (JS.truthy webhookSecret).
  - cbn. eexists. repeat split. exact Hh.
  - cbn [andb DetailSms.request content_type json form x_webhook_secret].
    change (JS.includes (JS.orStr (Some "application/json") "")
              "application/json") with true. cbv iota.
    change (fields _ "message") with JS.VUndefined.
    change (fields _ "Body") with JS.VUndefined.
    cbn [JS.or JS.toBoolean negb orb].
    rewrite orb_true_r. cbn. eexists. repeat split. exact Hh.
Qed.

Lemma sendSms_rejected_witness :
  exists st' : Detail.Screen,
    run Hosted.serve (DetailSms.sendSms None [] (sampleScreen, false))
      sampleWorld
    = ((st', false), sampleWorld, [])
    /\ Detail.toast st' = None
    /\ Detail.errorMsg st' = Some "handoff_id and message are required"
    /\ Detail.handoff st' = Detail.handoff sampleScreen.
Proof.
  apply (sendSms_rejected Hosted.serve sampleWorld None [] sampleScreen false
           (row "h1" 10 None (Some "open"))).
  reflexivity.
Defined.

(** ** The relay endpoints, whatever the request *)

Lemma alert_appendedOrNothing (w : Hosted.world) (secret : option string)
  (req : NextRequest) :
  appendedOrNothing w (run Hosted.serve (SmsAlert.POST secret req) w).
Proof.
  unfold SmsAlert.POST.
  match goal with |- context [if ?c then Ret _ else _] => destruct c end;
    [cbn; split; [discriminate|reflexivity]|].
  cbv zeta.
  match goal with |- context [match ?x with inl _ => _ | inr _ => _ end] =>
    destruct x as [msg|payload] end;
    [cbn; split; [discriminate|reflexivity]|].
  match goal with |- context [if ?c then Ret _ else _] => destruct c end;
    [cbn; split; [discriminate|reflexivity]|].
  match goal with |- context [match ?e with inl _ => Ret _ | inr _ => _ end] =>
    destruct e end; [cbn; split; [discriminate|reflexivity]|].
  match goal with |- context [match ?e with inl _ => Ret _ | inr _ => _ end] =>
    destruct e end; [cbn; split; [discriminate|reflexivity]|].
  rewrite run_Do. hosted.
  match goal with |- context [Hosted.fault w ?q] =>
    destruct (Hosted.fault w q) end.
  - cbn. split; [discriminate|reflexivity].
  - cbn. split; [reflexivity|]. eexists. split; reflexivity.
Qed.

Lemma notify_appendedOrNothing (w : Hosted.world) (secret : option string)
  (req : NextRequest) :
  appendedOrNothing w (run Hosted.serve (SmsNotify.POST secret req) w).
Proof.
  unfold SmsNotify.POST.
  match goal with |- context [if ?c then Ret _ else _] => destruct c end;
    [cbn; split; [discriminate|reflexivity]|].
  destruct (json req) as [msg|j];
    [cbn; split; [discriminate|reflexivity]|].
  cbv zeta.
  match goal with |- context [if ?c then Ret _ else _] => destruct c end;
    [cbn; split; [discriminate|reflexivity]|].
  match goal with |- context [match ?e with inl _ => Ret _ | inr _ => _ end] =>
    destruct e end; [cbn; split; [discriminate|reflexivity]|].
  match goal with |- context [if ?c then Ret _ else _] => destruct c end;
    [cbn; split; reflexivity|].
  match goal with |- context [match ?e with inl _ => Ret _ | inr _ => _ end] =>
    destruct e end; [cbn; split; [discriminate|reflexivity]|].
  match goal with |- context [match ?e with inl _ => Ret _ | inr _ => _ end] =>
    destruct e end; [cbn; split; [discriminate|reflexivity]|].
  rewrite run_Do. hosted.
  match goal with |- context [Hosted.fault w ?q] =>
    destruct (Hosted.fault w q) end.
  - cbn. split; [discriminate|reflexivity].
  - cbn. split; [reflexivity|]. eexists. split; reflexivity.
Qed.

Lemma inbound_appendedOrNothing (w : Hosted.world) (req : NextRequest) :
  appendedOrNothing w (run Hosted.serve (SmsInbound.POST req) w).
Proof.
  unfold SmsInbound.POST.
  destruct (SmsInbound.readBody req) as [msg|[text from]];
    [cbn; split; [discriminate|reflexivity]|].
  cbv zeta.
  match goal with |- context [if ?c then Ret _ else _] => destruct c end;
    [cbn; split; [discriminate|reflexivity]|].
  rewrite run_Do. hosted.
  match goal with |- context [Hosted.fault w ?q] =>
    destruct (Hosted.fault w q) end.
  { match goal with |- context [if ?c then Ret _ else _] => destruct c eqn:E end;
      [cbn; split; [discriminate|reflexivity]|].
    exfalso. apply orb_false_elim in E as [E _].
    apply bool_decide_eq_false in E. apply E. hosted. eauto. }
  match goal with |- context [Hosted.tokens w !! ?t] =>
    destruct (Hosted.tokens w !! t) end.
  2:{ match goal with |- context [if ?c then Ret _ else _] => destruct c eqn:E end;
        [cbn; split; [discriminate|reflexivity]|].
      exfalso. apply orb_false_elim in E as [E _].
      apply bool_decide_eq_false in E. apply E. hosted. eauto. }
  match goal with |- context [if ?c then Ret _ else _] => destruct c end;
    [cbn; split; [discriminate|reflexivity]|].
  rewrite run_Do. hosted.
  match goal with |- context [Hosted.fault w ?q] =>
    destruct (Hosted.fault w q) end.
  - cbn. split; [discriminate|reflexivity].
  - cbn. split; [reflexivity|]. eexists. split; reflexivity.
Qed.

(** X13.  The three relay endpoints are append-only, and their answer
    tells what was written.  For every request, every configured secret
    and every state of the reference backend (failing requests included):
    an answer that says ok or alerted comes with status 200 after exactly
    one update was appended, by the last request of the run, and nothing
    else changed; an answer that says skipped, or any error answer, leaves
    the backend exactly as it was.  No run changes the [handoffs]
    table. *)
Theorem relays_append_only (w : Hosted.world) (secret : option string)
  (req : NextRequest) :
  appendedOrNothing w (run Hosted.serve (SmsAlert.POST secret req) w)
  /\ appendedOrNothing w (run Hosted.serve (SmsNotify.POST secret req) w)
  /\ appendedOrNothing w (run Hosted.serve (SmsInbound.POST req) w).
Proof.
  split; [|split].
  - apply alert_appendedOrNothing.
  - apply notify_appendedOrNothing.
  - apply inbound_appendedOrNothing.
Qed.

Lemma guard_passes (secret got : option string) :
  JS.truthy secret = false \/ got = secret ->
  JS.truthy secret
  && (negb (JS.truthy got)
      || negb (String.eqb (JS.orStr got "") (JS.orStr secret ""))) = false.
Proof.
  intros [-> | ->]; [reflexivity|].
  destruct secret as [[|c s]|]; try reflexivity.
  cbn [JS.truthy JS.orStr negb orb andb]. now rewrite String.eqb_refl.
Qed.

(** X14.  /api/sms/alert, for a request that passes the shared-secret
    check and whose body parses (as JSON, or else as a form), on a
    backend that answers every request.  With a handoff id (field
    [handoff_id] or [handoffId]) and a message (field [message] or
    [Body]) that convert to text, as the sender does when there is one,
    it inserts exactly one update, with source "sms", no author id and
    the message stripped of surrounding white space, and answers ok; the
    [handoffs] table is untouched.  When the sender or the message does
    not convert, the conversion throws: the answer is 500 with the
    exception's message and nothing is asked of the backend.  Without a
    handoff id or a message it answers 400 and asks nothing of the
    backend. *)
Theorem alert_relay (w : Hosted.world) (secret : option string)
  (req : NextRequest) (payload : string -> JS.value) :
  JS.truthy secret = false \/ x_webhook_secret req = secret ->
  alertPayload req = inr payload ->
  (forall q, Hosted.fault w q = None) ->
  let hid := JS.or (payload "handoff_id") (payload "handoffId") in
  let msg := JS.or (payload "message") (payload "Body") in
  if JS.toBoolean hid && JS.toBoolean msg then
    match alertRelayed payload with
    | inl thrown =>
        run Hosted.serve (SmsAlert.POST secret req) w
        = (serverError thrown, w, [])
    | inr row =>
        exists w' : Hosted.world,
          run Hosted.serve (SmsAlert.POST secret req) w
          = (respond Ok, w', [Request (InsertUpdate Service row)])
          /\ Hosted.updates w'
             = (Hosted.updates w ++ [Hosted.stored w row])%list
          /\ Hosted.handoffs w' = Hosted.handoffs w
          /\ handoff_id (Hosted.stored w row) = hid
          /\ author_user_id (Hosted.stored w row) = None
          /\ source (Hosted.stored w row) = "sms"
          /\ (exists text : string,
                JS.toString msg = inr text
                /\ message (Hosted.stored w row) = JS.trim text)
          /\ JS.trim (message (Hosted.stored w row))
             = message (Hosted.stored w row)
    end
  else
    run Hosted.serve (SmsAlert.POST secret req) w
    = (respondWith (Error "handoff_id and message are required") 400, w, []).
Proof.
  intros Hsecret Hbody Hf. cbv zeta. unfold SmsAlert.POST, alertRelayed.
  rewrite (guard_passes _ _ Hsecret). unfold alertPayload in Hbody.
  cbv zeta. rewrite Hbody.
  destruct (JS.toBoolean (JS.or (payload "handoff_id") (payload "handoffId")));
    [|reflexivity].
  destruct (JS.toBoolean (JS.or (payload "message") (payload "Body")));
    [|reflexivity].
  cbn [negb orb andb].
  match goal with |- context [match ?e with inl _ => Ret _ | inr _ => _ end] =>
    destruct e as [thrown|snapshot] end; [reflexivity|].
  destruct (JS.toString (JS.or (payload "message") (payload "Body")))
    as [thrown|text]; [reflexivity|].
  rewrite run_Do. hosted. rewrite Hf. cbn [run].
  eexists. repeat split.
  - eexists. split; reflexivity.
  - cbn [message Hosted.stored ins_message]. apply trim_trim.
Qed.

Lemma alert_relay_witness :
  exists w' : Hosted.world,
    (run Hosted.serve (SmsAlert.POST (Some "s3cret") gatewayReply)
       sampleWorld).1
    = (respond Ok, w')
    /\ message <$> Hosted.updates w' = ["Still pending"]
    /\ author_display_name_snapshot <$> Hosted.updates w'
       = [Some "sms:+15551234567"].
Proof.
  destruct (alert_relay sampleWorld (Some "s3cret") gatewayReply
              (fromEntries (form gatewayReply))
              (or_intror eq_refl) eq_refl (fun _ => eq_refl))
    as (w' & Hrun & Hupd & _).
  exists w'. rewrite Hrun, Hupd. repeat split.
Defined.

(** ** The server-side resolve handler, whatever the backend answers *)

(** X16.  The resolve handler writes for nobody it could not identify.
    Whatever the backend answers: without a bearer token in the
    authorization header it answers 401 and asks nothing; when the
    session lookup comes back with an error or without a user it answers
    401 after that one request; and a run that contains a write started
    with a session lookup that returned a user and no error. *)
Theorem resolve_requires_session {W : Type} (b : backend W) (w : W)
  (req : NextRequest) :
  let '(resp, _, log) := run b (Resolve.POST req) w in
  match Resolve.matchBearer (JS.orStr (authorization req) "") with
  | None => resp = respondWith (Error "Missing bearer token") 401 /\ log = []
  | Some tok =>
      let r := (b _ (GetUser tok) w).1 in
      head log = Some (Request (GetUser tok))
      /\ (error r <> None \/ data r = None ->
          resp = respondWith (Error "Invalid session") 401
          /\ log = [Request (GetUser tok)])
      /\ (existsb isWrite log = true -> error r = None /\ is_Some (data r))
  end.
Proof.
  unfold Resolve.POST.
  destruct (Resolve.matchBearer (JS.orStr (authorization req) "")) as [tok|];
    [|cbn; split; reflexivity].
  rewrite run_Do. destruct (b _ (GetUser tok) w) as [r w1]. cbn [fst].
  destruct (error r) as [msg|], (data r) as [user|].
  1,2,4: cbn; repeat split; try discriminate; intros _; repeat split.
  destruct (run b _ w1) as [[resp w2] log]. cbn [head].
  split; [reflexivity|]. split; [|intros _; split; eauto].
  intros [Hx|Hx]; congruence.
Qed.

(** X17.  The two writes of the resolve handler are not one transaction.
    When the update of the handoff goes through and the insert of the
    audit entry fails, the handler answers 500 with the backend's message,
    and the handoff is left closed without an audit entry. *)
Theorem server_resolve_not_atomic (w : Hosted.world) (req : NextRequest)
  (tok hid : string) (u : User) (h : HandoffRow) (j : string -> JS.value)
  (m : string) :
  Resolve.matchBearer (JS.orStr (authorization req) "") = Some tok ->
  Hosted.accounts w !! tok = Some u ->
  json req = inr j ->
  j "handoff_id" = JS.VString hid ->
  hid <> "" ->
  Hosted.handoffs w !! hid = Some h ->
  Hosted.fault w (Request (GetUser tok)) = None ->
  Hosted.fault w (Request (closeWrite hid)) = None ->
  Hosted.fault w (Request (closeAudit (JS.VString hid) u)) = Some m ->
  exists (w' : Hosted.world) (h' : HandoffRow),
    run Hosted.serve (Resolve.POST req) w
    = (serverError m, w',
       [Request (GetUser tok); Request (closeWrite hid);
        Request (closeAudit (JS.VString hid) u)])
    /\ Hosted.handoffs w' !! hid = Some h'
    /\ status h' = Some "closed"
    /\ Hosted.updates w' = Hosted.updates w.
Proof.
  intros Hauth Hacc Hjson Hfield Hid Hrow Hf1 Hf2 Hf3.
  unfold closeWrite in Hf2. unfold closeAudit in Hf3.
  unfold Resolve.POST. rewrite Hauth, run_Do. hosted.
  rewrite Hf1, Hacc. hosted. rewrite Hjson, Hfield.
  destruct hid as [|c s]; [contradiction|].
  cbn [JS.toBoolean negb JS.toString]. rewrite run_Do. hosted.
  rewrite Hf2, Hrow. hosted. rewrite run_Do. hosted. rewrite Hf3.
  cbn [run]. eexists _, _. split; [reflexivity|].
  hosted. rewrite lookup_insert_eq. repeat split.
Qed.

Lemma server_resolve_not_atomic_witness :
  exists (w' : Hosted.world) (h' : HandoffRow),
    run Hosted.serve (Resolve.POST resolveRequest) auditFaultWorld
    = (serverError "insert refused", w',
       [Request (GetUser "tok1"); Request (closeWrite "h1");
        Request (closeAudit (JS.VString "h1") nurse)])
    /\ Hosted.handoffs w' !! "h1" = Some h'
    /\ status h' = Some "closed"
    /\ Hosted.updates w' = Hosted.updates auditFaultWorld.
Proof.
  apply (server_resolve_not_atomic auditFaultWorld resolveRequest "tok1" "h1"
           nurse (row "h1" 10 None (Some "open"))
           (fields [("handoff_id", JS.VString "h1")]) "insert refused").
  - reflexivity.
  - reflexivity.
  - reflexivity.
  - reflexivity.
  - discriminate.
  - reflexivity.
  - reflexivity.
  - reflexivity.
  - reflexivity.
Defined.

(** X18.  The resolve handler does not look at what its update matched.
    For a valid session and an id that no handoff carries, on a backend
    that answers every request, it answers ok and appends the audit entry
    "SYSTEM: RESOLVED by ..." for that id, the [handoffs] table being
    left as it was. *)
Theorem server_resolve_unknown_handoff (w : Hosted.world) (req : NextRequest)
  (tok hid : string) (u : User) (j : string -> JS.value) :
  Resolve.matchBearer (JS.orStr (authorization req) "") = Some tok ->
  Hosted.accounts w !! tok = Some u ->
  json req = inr j ->
  j "handoff_id" = JS.VString hid ->
  hid <> "" ->
  Hosted.handoffs w !! hid = None ->
  (forall q, Hosted.fault w q = None) ->
  exists (w' : Hosted.world) (entry : UpdateRow),
    run Hosted.serve (Resolve.POST req) w
    = (respond Ok, w',
       [Request (GetUser tok); Request (closeWrite hid);
        Request (closeAudit (JS.VString hid) u)])
    /\ Hosted.handoffs w' = Hosted.handoffs w
    /\ Hosted.updates w' = (Hosted.updates w ++ [entry])%list
    /\ handoff_id entry = JS.VString hid
    /\ message entry
       = "SYSTEM: RESOLVED by " ++ default (user_id u) (user_email u).
Proof.
  intros Hauth Hacc Hjson Hfield Hid Hrow Hf.
  unfold Resolve.POST. rewrite Hauth, run_Do. hosted.
  rewrite Hf, Hacc. hosted. rewrite Hjson, Hfield.
  destruct hid as [|c s]; [contradiction|].
  cbn [JS.toBoolean negb JS.toString]. rewrite run_Do. hosted.
  rewrite Hf, Hrow. hosted. rewrite run_Do. hosted. rewrite Hf.
  cbn [run]. eexists _, _. split; [reflexivity|]. hosted. repeat split.
Qed.

Lemma server_resolve_unknown_handoff_witness :
  exists (w' : Hosted.world) (entry : UpdateRow),
    run Hosted.serve (Resolve.POST resolveMissing) sampleWorld
    = (respond Ok, w',
       [Request (GetUser "tok1"); Request (closeWrite "h9");
        Request (closeAudit (JS.VString "h9") nurse)])
    /\ Hosted.handoffs w' = Hosted.handoffs sampleWorld
    /\ Hosted.updates w' = (Hosted.updates sampleWorld ++ [entry])%list
    /\ handoff_id entry = JS.VString "h9"
    /\ message entry = "SYSTEM: RESOLVED by rn@example.org".
Proof.
  apply (server_resolve_unknown_handoff sampleWorld resolveMissing "tok1" "h9"
           nurse (fields [("handoff_id", JS.VString "h9")])).
  - reflexivity.
  - reflexivity.
  - reflexivity.
  - reflexivity.
  - discriminate.
  - reflexivity.
  - reflexivity.
Defined.

(** ** The bearer pattern *)

Lemma bearerRest_sound (r tok : string) :
  Resolve.bearerRest r = Some tok ->
  exists ws : string,
    r = ws ++ tok /\ ws <> "" /\ allWhite ws = true
    /\ tok <> "" /\ Resolve.noLineTerminator tok = true
    /\ (startsClean tok \/ String.length tok = 1%nat).
Proof.
  revert tok. induction r as [|c r IH]; intros tok; [discriminate|].
  cbn [Resolve.bearerRest]. destruct (JS.isWhiteSpace c) eqn:Ec; [|discriminate].
  destruct (Resolve.bearerRest r) as [t|] eqn:Er.
  - intros [= <-]. destruct (IH t eq_refl) as (ws & -> & Hne & Hws & Ht).
    exists (String c ws). split; [reflexivity|]. split; [discriminate|].
    split; [cbn [allWhite]; now rewrite Ec|exact Ht].
  - destruct (negb (String.eqb r "") && Resolve.noLineTerminator r) eqn:E;
      [|discriminate].
    intros [= <-]. apply andb_true_iff in E as [Hne Hlt].
    apply negb_true_iff, String.eqb_neq in Hne.
    exists (String c ""). split; [reflexivity|]. split; [discriminate|].
    split; [cbn [allWhite]; now rewrite Ec|].
    split; [exact Hne|]. split; [exact Hlt|].
    destruct r as [|d r']; [contradiction|]. cbn [startsClean].
    destruct (JS.isWhiteSpace d) eqn:Ed; [right|now left].
    cbn [Resolve.bearerRest] in Er. rewrite Ed in Er.
    destruct (Resolve.bearerRest r'); [discriminate|].
    cbn [Resolve.noLineTerminator] in Hlt.
    apply andb_true_iff in Hlt as [_ Hlt]. rewrite Hlt, andb_true_r in Er.
    destruct r'; [reflexivity|discriminate].
Qed.

Lemma bearerRest_complete (ws tok : string) :
  ws <> "" -> allWhite ws = true ->
  tok <> "" -> Resolve.noLineTerminator tok = true ->
  startsClean tok \/ String.length tok = 1%nat ->
  Resolve.bearerRest (ws ++ tok) = Some tok.
Proof.
  intros Hne Hws Ht Hlt Hshape.
  assert (Htok : Resolve.bearerRest tok = None).
  { destruct tok as [|d t]; [reflexivity|]. cbn [Resolve.bearerRest].
    destruct (JS.isWhiteSpace d) eqn:Ed; [|reflexivity].
    destruct Hshape as [Hc | Hl]; [cbn in Hc; congruence|].
    destruct t; [reflexivity|discriminate]. }
  induction ws as [|c ws IH]; [contradiction|].
  cbn [allWhite] in Hws. apply andb_true_iff in Hws as [Hc Hws].
  change (String c ws ++ tok) with (String c (ws ++ tok)).
  cbn [Resolve.bearerRest]. rewrite Hc.
  destruct ws as [|c' ws'].
  - change ("" ++ tok) with tok. rewrite Htok, Hlt, andb_true_r.
    apply String.eqb_neq in Ht. now rewrite Ht.
  - rewrite IH; [reflexivity|discriminate|exact Hws].
Qed.

Lemma toLowerCase_length (s : string) :
  String.length (JS.toLowerCase s) = String.length s.
Proof. induction s as [|c s IH]; [reflexivity|]. cbn. now rewrite IH. Qed.

Lemma slice0_dropChars (n : nat) (s : string) :
  s = JS.slice0 n s ++ Resolve.dropChars n s.
Proof.
  revert s. induction n as [|n IH]; intros [|c s]; try reflexivity.
  cbn [JS.slice0 Resolve.dropChars].
  change (String c s = String c (JS.slice0 n s ++ Resolve.dropChars n s)).
  now rewrite <- IH.
Qed.

Lemma slice0_app_length (a b : string) :
  JS.slice0 (String.length a) (a ++ b) = a
  /\ Resolve.dropChars (String.length a) (a ++ b) = b.
Proof.
  induction a as [|c a [IH1 IH2]]; [split; [now destruct b|reflexivity]|].
  change (String c a ++ b) with (String c (a ++ b)).
  cbn [String.length JS.slice0 Resolve.dropChars]. now rewrite IH1, IH2.
Qed.

(** X19.  What the resolve handler takes for a bearer token.  The header
    matches [/^Bearer\s+(.+)$/i], and the token is [tok], exactly when the
    header reads as the word "bearer" in any case, then white space, then
    [tok], where [tok] is not empty and holds no line break, and either
    starts with something other than white space or is a single
    white-space character (the white space in front takes all it can). *)
Theorem matchBearer_spec (auth tok : string) :
  Resolve.matchBearer auth = Some tok <->
  exists scheme ws : string,
    auth = scheme ++ ws ++ tok
    /\ JS.toLowerCase scheme = "bearer"
    /\ ws <> "" /\ allWhite ws = true
    /\ tok <> "" /\ Resolve.noLineTerminator tok = true
    /\ (startsClean tok \/ String.length tok = 1%nat).
Proof.
  unfold Resolve.matchBearer. split.
  - destruct (String.eqb (JS.toLowerCase (JS.slice0 6 auth)) "bearer") eqn:E;
      [|discriminate].
    apply String.eqb_eq in E. intros Hr.
    destruct (bearerRest_sound _ _ Hr) as (ws & Hd & Hrest).
    exists (JS.slice0 6 auth), ws. split; [|split; [exact E|exact Hrest]].
    rewrite <- Hd. apply slice0_dropChars.
  - intros (scheme & ws & -> & Hs & Hne & Hws & Ht & Hlt & Hshape).
    assert (Hlen : String.length scheme = 6%nat)
      by (rewrite <- toLowerCase_length, Hs; reflexivity).
    destruct (slice0_app_length scheme (ws ++ tok)) as [H1 H2].
    rewrite Hlen in H1, H2. rewrite H1, H2, Hs. cbn [String.eqb].
    change (String.eqb "bearer" "bearer") with true. cbv iota.
    now apply bearerRest_complete.
Qed.

(** ** The token pattern, once more *)

Lemma append_same_length (a b x y : string) :
  String.length a = String.length b -> a ++ x = b ++ y -> a = b /\ x = y.
Proof.
  revert b. induction a as [|c a IH]; intros [|d b] Hl He; try discriminate.
  - now split.
  - change (String c (a ++ x) = String d (b ++ y)) in He.
    injection He as -> He. injection Hl as Hl.
    destruct (IH b Hl He) as [-> ->]. now split.
Qed.

Lemma alnum_run_unique (t1 t2 p1 p2 : string) :
  allAlnum t1 = true -> allAlnum t2 = true ->
  SmsInbound.boundaryAfterWord p1 = true ->
  SmsInbound.boundaryAfterWord p2 = true ->
  t1 ++ p1 = t2 ++ p2 -> t1 = t2.
Proof.
  revert t2. induction t1 as [|c t1 IH]; intros [|d t2] H1 H2 B1 B2 He;
    try reflexivity.
  - change ("" ++ p1) with p1 in He. subst p1.
    cbn [allAlnum] in H2. apply andb_true_iff in H2 as [Hd _].
    change (String d t2 ++ p2) with (String d (t2 ++ p2)) in B1.
    cbn [SmsInbound.boundaryAfterWord] in B1. unfold SmsInbound.isWordChar in B1.
    rewrite Hd in B1. discriminate.
  - change ("" ++ p2) with p2 in He. subst p2.
    cbn [allAlnum] in H1. apply andb_true_iff in H1 as [Hc _].
    change (String c t1 ++ p1) with (String c (t1 ++ p1)) in B2.
    cbn [SmsInbound.boundaryAfterWord] in B2. unfold SmsInbound.isWordChar in B2.
    rewrite Hc in B2. discriminate.
  - change (String c (t1 ++ p1) = String d (t2 ++ p2)) in He.
    injection He as -> He. cbn [allAlnum] in H1, H2.
    apply andb_true_iff in H1 as [_ H1]. apply andb_true_iff in H2 as [_ H2].
    f_equal. now apply (IH t2).
Qed.

(** X20.  [extractToken] is the leftmost match of the token pattern.  It
    returns nothing exactly for the bodies that hold no "H:" followed by
    4 to 12 letters and digits between word boundaries; otherwise it
    returns the token of an occurrence before which no other occurrence
    starts, and that token is the only one that can be read at this
    place. *)
Theorem extractToken_spec (body : string) :
  match SmsInbound.extractToken body with
  | None => ~ containsToken body
  | Some tok =>
      exists pre post : string,
        tokenOccurs false body pre tok post
        /\ forall pre2 t2 post2 : string,
             tokenOccurs false body pre2 t2 post2 ->
             (String.length pre <= String.length pre2)%nat
             /\ (String.length pre2 = String.length pre -> t2 = tok)
  end.
Proof.
  destruct (SmsInbound.extractToken body) as [tok|] eqn:E;
    [|now apply extractToken_None].
  destruct (tokenFrom_leftmost _ _ _ E) as (pre & post & Hocc & Hleft).
  exists pre, post. split; [exact Hocc|].
  intros pre2 t2 post2 Hocc2. split; [now apply (Hleft pre2 t2 post2)|].
  intros Hlen. destruct Hocc as [Hs _ _ Ha Hb], Hocc2 as [Hs2 _ _ Ha2 Hb2].
  rewrite Hs in Hs2.
  destruct (append_same_length _ _ _ _ (eq_sym Hlen) Hs2) as [_ Hrest].
  change ("H:" ++ tok ++ post) with (String "H" (String ":" (tok ++ post)))
    in Hrest.
  change ("H:" ++ t2 ++ post2) with (String "H" (String ":" (t2 ++ post2)))
    in Hrest.
  injection Hrest as Hrest. symmetry. now apply (alnum_run_unique _ _ post post2).
Qed.

(** ** What the feeds render, continued *)

Lemma card_pill_resolved (h : HandoffRow) :
  GatedFeedView.card_pill (GatedFeedView.card h) = "RESOLVED"
  <-> GatedFeed.isResolvedStatus (status h) = true.
Proof.
  unfold GatedFeedView.card, GatedFeed.StatusPill, GatedFeed.isResolvedStatus.
  cbn [GatedFeedView.card_pill].
  destruct (String.eqb (GatedFeed.normStatus (status h)) "resolved");
    [now split|].
  destruct (String.eqb (GatedFeed.normStatus (status h)) "needs_followup");
    split; discriminate.
Qed.

(** X21.  Muted cards stand at the bottom of the gated feed, and are not
    there at all with the toggle off: among the cards shown, one whose
    pill reads RESOLVED comes after every card whose pill reads something
    else, and with "show resolved" off no card reads RESOLVED. *)
Theorem resolved_cards_last (st : FeedScreen.t) :
  match GatedFeedView.content st with
  | GatedFeedView.Cards _ cards =>
      (FeedScreen.showResolved st = false ->
       Forall (fun c => GatedFeedView.card_pill c <> "RESOLVED") cards)
      /\ forall (i j : nat) (x y : GatedFeedView.Card),
           cards !! i = Some x -> cards !! j = Some y ->
           GatedFeedView.card_pill x = "RESOLVED" ->
           GatedFeedView.card_pill y <> "RESOLVED" -> (j < i)%nat
  | _ => True
  end.
Proof.
  unfold GatedFeedView.content.
  destruct (FeedScreen.loading st); [exact I|].
  destruct (negb (JS.truthy (FeedScreen.userId st))); [exact I|].
  destruct (negb (GatedFeedView.hasVisible st)); [exact I|].
  unfold GatedFeedView.visibleHandoffs, GatedFeed.visibleHandoffs. split.
  - intros ->. apply Forall_fmap, Forall_forall. intros h Hin.
    cbn [compose]. rewrite card_pill_resolved.
    unfold visibleHandoffsWith in Hin.
    apply list_elem_of_In, List.filter_In in Hin as [_ Hin].
    now destruct (GatedFeed.isResolvedStatus (status h)).
  - intros i j x y Hi Hj Hx Hy.
    rewrite list_lookup_fmap in Hi, Hj.
    destruct (visibleHandoffsWith _ _ _ !! i) as [hx|] eqn:Ei; [|discriminate].
    destruct (visibleHandoffsWith _ _ _ !! j) as [hy|] eqn:Ej; [|discriminate].
    injection Hi as <-. injection Hj as <-.
    rewrite card_pill_resolved in Hx, Hy.
    eapply (visible_resolvedLast GatedFeed.isResolvedStatus); eauto.
    now destruct (GatedFeed.isResolvedStatus (status hy)).
Qed.

(** X22.  The glow of a card and the dot in front of its priority never
    disagree, and neither looks at the case of the priority: both are
    red for "high", amber for "medium" and green for anything else, the
    priority being lower-cased (and not trimmed) first. *)
Theorem priority_colours (p : string) :
  let glow := GatedFeedView.glowStyleForPriority (Some p) in
  let dot := GatedFeedView.priorityDot (Some p) in
  glow = GatedFeedView.glowStyleForPriority (Some (JS.toLowerCase p))
  /\ dot = GatedFeedView.priorityDot (Some (JS.toLowerCase p))
  /\ (glow !! "border", dot !! "background")
     = if String.eqb (JS.toLowerCase p) "high" then
         (Some "1px solid rgba(255, 80, 80, 0.28)", Some "rgba(255,80,80,0.9)")
       else if String.eqb (JS.toLowerCase p) "medium" then
         (Some "1px solid rgba(255, 190, 60, 0.26)", Some "rgba(255,190,60,0.9)")
       else
         (Some "1px solid rgba(80, 255, 160, 0.22)", Some "rgba(80,255,160,0.85)").
Proof.
  cbv zeta. unfold GatedFeedView.glowStyleForPriority, GatedFeedView.priorityDot.
  assert (Hor : forall s, JS.toLowerCase (JS.orStr (Some s) "") = JS.toLowerCase s)
    by (now intros [|c s]).
  rewrite !Hor, toLowerCase_toLowerCase.
  split; [reflexivity|]. split; [reflexivity|].
  destruct (String.eqb (JS.toLowerCase p) "high"); [reflexivity|].
  destruct (String.eqb (JS.toLowerCase p) "medium"); reflexivity.
Qed.

(** X23.  The plain feed's follow-up badge is stricter than its pill.
    The badge is shown for a status that lower-cases to "needs_followup"
    as it stands, the pill trims first: so a badge always comes with the
    FOLLOW-UP pill, a trimmed status that gets the pill gets the badge,
    and a status that has the badge loses it, and keeps the pill, once a
    blank is put in front. *)
Theorem plain_followup_badge (s : string) :
  (PlainFeedView.followupFlag (Some s) = true ->
   PlainFeed.StatusPill (Some s) = "FOLLOW-UP")
  /\ (PlainFeed.StatusPill (Some s) = "FOLLOW-UP" -> JS.trim s = s ->
      PlainFeedView.followupFlag (Some s) = true)
  /\ (PlainFeedView.followupFlag (Some s) = true ->
      PlainFeedView.followupFlag (Some (" " ++ s)) = false
      /\ PlainFeed.StatusPill (Some (" " ++ s)) = "FOLLOW-UP").
Proof.
  assert (Hflag : PlainFeedView.followupFlag (Some s) = true ->
                  JS.toLowerCase s = "needs_followup").
  { unfold PlainFeedView.followupFlag. destruct s as [|c s]; [discriminate|].
    cbn [JS.truthy JS.orStr andb]. apply String.eqb_eq. }
  assert (Hpill : JS.toLowerCase s = "needs_followup" ->
                  JS.toLowerCase (JS.trim s) = "needs_followup").
  { intros H. now rewrite <- trim_toLowerCase, H. }
  split; [|split].
  - intros Hf. pose proof (Hpill (Hflag Hf)) as Hp.
    unfold PlainFeed.StatusPill. destruct s as [|c s]; [discriminate|].
    cbn [JS.orStr]. cbv zeta. now rewrite Hp.
  - unfold PlainFeed.StatusPill, PlainFeedView.followupFlag.
    destruct s as [|c s]; [discriminate|]. cbn [JS.orStr JS.truthy andb].
    cbv zeta. intros Hp Ht. rewrite Ht in Hp.
    destruct (String.eqb (JS.toLowerCase (String c s)) "resolved");
      [discriminate|].
    destruct (String.eqb (JS.toLowerCase (String c s)) "needs_followup");
      [reflexivity|discriminate].
  - intros Hf. pose proof (Hflag Hf) as Hl. split.
    + unfold PlainFeedView.followupFlag.
      change (" " ++ s) with (String " " s).
      cbn [JS.truthy JS.orStr andb JS.toLowerCase]. rewrite Hl. reflexivity.
    + unfold PlainFeed.StatusPill. change (" " ++ s) with (String " " s).
      cbn [JS.orStr]. cbv zeta.
      change (JS.trim (String " " s)) with (JS.trim s).
      now rewrite (Hpill Hl).
Qed.

(** ** Adding an update on the detail screen *)

Lemma runFlow_Step {W R X : Type} (b : DetailUpdate.appBackend W)
  (c : DetailUpdate.appCall X) (k : X -> DetailUpdate.flow R) (w : W) :
  DetailUpdate.runFlow b (DetailUpdate.Step c k) w
  = let (x, w1) := b X c w in
    let '(r, w2, log) := DetailUpdate.runFlow b (k x) w1 in
    (r, w2, DetailUpdate.AppRequest c :: log).
Proof. reflexivity. Qed.

Lemma runFlow_andThen {W R S : Type} (b : DetailUpdate.appBackend W)
  (p : DetailUpdate.flow R) (f : R -> DetailUpdate.flow S) (w : W) :
  DetailUpdate.runFlow b (DetailUpdate.andThen p f) w
  = let '(r, w1, log1) := DetailUpdate.runFlow b p w in
    let '(s, w2, log2) := DetailUpdate.runFlow b (f r) w1 in
    (s, w2, (log1 ++ log2)%list).
Proof.
  revert w. induction p as [r|X c k IH]; intros w; simpl.
  - now destruct (DetailUpdate.runFlow b (f r) w) as [[s w2] log2].
  - destruct (b X c w) as [x w1]. rewrite IH.
    destruct (DetailUpdate.runFlow b (k x) w1) as [[r w2] log1].
    now destruct (DetailUpdate.runFlow b (f r) w2) as [[s w3] log2].
Qed.

(** A lifted function runs as it does against the backend's answers to
    the calls of [call]. *)
Lemma runFlow_lift {W R : Type} (b : DetailUpdate.appBackend W) (p : prog R)
  (w : W) :
  DetailUpdate.runFlow b (DetailUpdate.lift p) w
  = let '(r, w', log) := run (fun X c => b X (DetailUpdate.Base c)) p w in
    (r, w',
     (fun q : request => DetailUpdate.AppRequest (DetailUpdate.Base (projT2 q)))
       <$> log).
Proof.
  revert w. induction p as [r|X c k IH]; intros w; simpl; [reflexivity|].
  destruct (b X (DetailUpdate.Base c) w) as [x w1]. rewrite IH.
  now destruct (run _ (k x) w1) as [[r w2] log].
Qed.

Lemma lifted_log (log : list request) :
  List.filter isWrite log = [] ->
  let log' := (fun q : request =>
                 DetailUpdate.AppRequest (DetailUpdate.Base (projT2 q))) <$> log in
  omap DetailUpdate.inserted log' = []
  /\ Forall (fun q => DetailUpdate.otherWrite q = false) log'.
Proof.
  cbv zeta. induction log as [|[X c] log IH]; intros Hw.
  - split; [reflexivity|constructor].
  - cbn [List.filter] in Hw.
    destruct (isWrite (existT X c)) eqn:E; [discriminate|].
    destruct (IH Hw) as [IH1 IH2]. rewrite fmap_cons. split.
    + cbn. exact IH1.
    + constructor; [exact E|exact IH2].
Qed.

Lemma truthy_orStr (x : option string) :
  JS.truthy x = true -> x = Some (JS.orStr x "") /\ JS.orStr x "" <> "".
Proof. destruct x as [[|c s]|]; try discriminate. now split. Qed.

(** X24.  Through its button, "Add update" inserts at most one row, and
    never a blank one.  Whatever the backend answers: a run makes no
    other write; a row it inserts has source "app", the draft stripped of
    surrounding white space, of at least two characters, as message, the
    route's handoff and the session's user as author; and the draft is
    cleared only together with the insert and the "Update added" toast. *)
Theorem add_update_guarded {W : Type} (b : DetailUpdate.appBackend W) (w : W)
  (routeId : option string) (f : DetailUpdate.Form) :
  let '(f', _, log) :=
    DetailUpdate.runFlow b (DetailUpdate.clickAddUpdate routeId f) w in
  let rows := omap DetailUpdate.inserted log in
  (length rows <= 1)%nat
  /\ Forall (fun p =>
       DetailUpdate.pay_source p = "app"
       /\ DetailUpdate.pay_message p = JS.trim (DetailUpdate.newUpdate f)
       /\ (2 <= String.length (DetailUpdate.pay_message p))%nat
       /\ routeId = Some (DetailUpdate.pay_handoff_id p)
       /\ user_id <$> data (b _ (DetailUpdate.Base GetSession) w).1
          = Some (DetailUpdate.pay_author_user_id p)
       /\ DetailUpdate.pay_author_user_id p <> "") rows
  /\ Forall (fun q => DetailUpdate.otherWrite q = false) log
  /\ (f' = f
      \/ (DetailUpdate.newUpdate f' = DetailUpdate.newUpdate f
          /\ Detail.toast (DetailUpdate.screen f') = None)
      \/ (DetailUpdate.newUpdate f' = "" /\ rows <> []
          /\ Detail.toast (DetailUpdate.screen f')
             = Some DetailUpdate.addedToast)).
Proof.
  unfold DetailUpdate.clickAddUpdate.
  destruct (DetailUpdate.canAddUpdate f) eqn:Hcan.
  2:{ cbn. split; [lia|]. split; [constructor|]. split; [constructor|].
      now left. }
  apply andb_true_iff in Hcan as [Hlen _]. apply Nat.leb_le in Hlen.
  unfold DetailUpdate.addUpdate. rewrite runFlow_Step.
  destruct (b _ (DetailUpdate.Base GetSession) w) as [sess w1]. cbn [fst].
  destruct (JS.truthy (user_id <$> data sess)) eqn:Hu; cbn [negb].
  2:{ cbn. split; [lia|]. split; [constructor|].
      split; [repeat constructor|]. right. left. now split. }
  destruct (JS.truthy routeId) eqn:Hr; cbn [negb].
  2:{ cbn. split; [lia|]. split; [constructor|].
      split; [repeat constructor|]. right. left. now split. }
  destruct (truthy_orStr _ Hu) as [Huid Hune].
  destruct (truthy_orStr _ Hr) as [Hrid _].
  rewrite runFlow_Step.
  match goal with |- context [b _ (DetailUpdate.InsertPayload ?p) w1] =>
    destruct (b _ (DetailUpdate.InsertPayload p) w1) as [err w2] end.
  destruct err as [msg|].
  { cbn. split; [lia|]. split; [repeat constructor; auto|].
    split; [repeat constructor|]. right. left. now split. }
  rewrite runFlow_andThen, runFlow_lift.
  match goal with |- context [run ?b' (Detail.load ?i ?s) w2] =>
    destruct (load_run b' w2 i s) as (st1 & w3 & log1 & -> & Hlog & Htoast & _)
  end.
  destruct (lifted_log log1 Hlog) as [Hins Hother].
  cbn [DetailUpdate.runFlow DetailUpdate.newUpdate DetailUpdate.screen].
  rewrite app_nil_r.
  cbn [omap list_omap DetailUpdate.inserted projT2 DetailUpdate.AppRequest].
  cbn [omap] in Hins. rewrite Hins.
  split; [cbn; lia|]. split.
  { repeat constructor; auto. }
  split.
  { repeat constructor. exact Hother. }
  right. right. split; [reflexivity|]. split; [discriminate|].
  rewrite Htoast. reflexivity.
Qed.




(** X26.  A refused insert loses nothing of the draft.  When the backend
    answers the insert of [addUpdate] with an error, the screen shows that
    message and no toast, the draft is still in the box, saving has ended,
    and nothing is asked after the insert (no reload). *)
Theorem add_update_refused {W : Type} (b : DetailUpdate.appBackend W)
  (w w1 w2 : W) (f : DetailUpdate.Form) (rid : string) (sess : reply User)
  (u : User) (msg : string) :
  b _ (DetailUpdate.Base GetSession) w = (sess, w1) ->
  data sess = Some u -> user_id u <> "" -> rid <> "" ->
  let payload :=
    {| DetailUpdate.pay_handoff_id := rid;
       DetailUpdate.pay_author_user_id := user_id u;
       DetailUpdate.pay_author_display_name_snapshot := user_email u;
       DetailUpdate.pay_source := "app";
       DetailUpdate.pay_message := JS.trim (DetailUpdate.newUpdate f) |} in
  b _ (DetailUpdate.InsertPayload payload) w1 = (Some msg, w2) ->
  exists f' : DetailUpdate.Form,
    DetailUpdate.runFlow b (DetailUpdate.addUpdate (Some rid) f) w
    = (f', w2,
       [DetailUpdate.AppRequest (DetailUpdate.Base GetSession);
        DetailUpdate.AppRequest (DetailUpdate.InsertPayload payload)])
    /\ Detail.errorMsg (DetailUpdate.screen f') = Some msg
    /\ Detail.toast (DetailUpdate.screen f') = None
    /\ Detail.updates (DetailUpdate.screen f')
       = Detail.updates (DetailUpdate.screen f)
    /\ DetailUpdate.newUpdate f' = DetailUpdate.newUpdate f
    /\ DetailUpdate.savingUpdate f' = false.
Proof.
  intros Hs Hd Hu Hrid payload Hins. subst payload.
  destruct (user_id u) as [|c s] eqn:Eu; [contradiction|].
  destruct rid as [|d r]; [contradiction|].
  unfold DetailUpdate.addUpdate. rewrite runFlow_Step, Hs, Hd.
  cbn [fmap option_fmap option_map mbind option_bind]. rewrite Eu.
  cbn [JS.truthy negb JS.orStr]. rewrite runFlow_Step, Hins.
  cbn [DetailUpdate.runFlow]. eexists. repeat split.
Qed.

Lemma add_update_refused_witness :
  exists f' : DetailUpdate.Form,
    (DetailUpdate.runFlow (DetailUpdate.serve (Some "permission denied"))
       (DetailUpdate.addUpdate (Some "h1") sampleForm) sampleWorld).1
    = (f', sampleWorld)
    /\ Detail.errorMsg (DetailUpdate.screen f') = Some "permission denied"
    /\ DetailUpdate.newUpdate f' = "  Family notified ".
Proof.
  destruct (add_update_refused (DetailUpdate.serve (Some "permission denied"))
              sampleWorld sampleWorld sampleWorld sampleForm "h1"
              (Hosted.fine nurse) nurse "permission denied"
              eq_refl eq_refl ltac:(discriminate) ltac:(discriminate) eq_refl)
    as (f' & Hrun & Herr & _ & _ & Hdraft & _).
  exists f'. rewrite Hrun. repeat split; assumption.
Defined.

(** ** Status codes of the relay endpoints *)

Lemma guard_iff (secret got : option string) :
  JS.truthy secret
  && (negb (JS.truthy got)
      || negb (String.eqb (JS.orStr got "") (JS.orStr secret ""))) = true
  <-> JS.truthy secret = true /\ got <> secret.
Proof.
  destruct secret as [[|c s]|]; cbn [JS.truthy andb];
    try (split; [discriminate|now intros [? _]]).
  destruct got as [[|d t]|]; cbn [JS.truthy JS.orStr negb orb].
  - split; [split; [reflexivity|discriminate]|reflexivity].
  - destruct (String.eqb (String d t) (String c s)) eqn:E.
    + apply String.eqb_eq in E. split; [discriminate|]. intros [_ H].
      congruence.
    + apply String.eqb_neq in E. split; [|reflexivity].
      intros _. split; [reflexivity|congruence].
  - split; [split; [reflexivity|discriminate]|reflexivity].
Qed.

Lemma alert_codes {W : Type} (b : backend W) (w : W) (secret : option string)
  (req : NextRequest) :
  let '(resp, _, log) := run b (SmsAlert.POST secret req) w in
  (code resp = 401 <-> secretMissing secret (req))
  /\ (code resp = 500
      <-> ~ secretMissing secret req
          /\ ((exists msg, alertPayload req = inl msg)
              \/ alertUnconvertible req))
  /\ (code resp = 401 \/ code resp = 500 -> log = []).
Proof.
  unfold SmsAlert.POST, secretMissing, alertUnconvertible, alertRelayed,
    alertPayload.
  pose proof (guard_iff secret (x_webhook_secret req)) as Hg.
  match goal with |- context [if ?c then Ret _ else _] => destruct c end.
  { destruct Hg as [Hg _]. specialize (Hg eq_refl). settle. }
  assert (Hn : ~ (JS.truthy secret = true /\ x_webhook_secret req <> secret))
    by (intros H; apply Hg in H; discriminate).
  clear Hg. cbv zeta.
  match goal with |- context [match ?x with inl _ => Ret _ | inr _ => _ end] =>
    destruct x as [msg|payload] end; [settle|].
  assert (Hparsed : ~ exists msg : string,
            @inr string (string -> JS.value) payload = inl msg)
    by (intros [? ?]; discriminate).
  destruct (JS.toBoolean (JS.or (payload "handoff_id") (payload "handoffId")))
    eqn:Eh; cbn [negb orb].
  2:{ codes; try discriminate; try tauto.
      all: try (destruct Hc; discriminate).
      destruct Hc as [_ [?|(p' & m & [= <-] & ? & _)]]; [tauto|congruence]. }
  destruct (JS.toBoolean (JS.or (payload "message") (payload "Body")))
    eqn:Em; cbn [negb].
  2:{ codes; try discriminate; try tauto.
      all: try (destruct Hc; discriminate).
      destruct Hc as [_ [?|(p' & m & [= <-] & _ & ? & _)]]; [tauto|congruence]. }
  match goal with |- context [match ?e with inl _ => Ret _ | inr _ => _ end] =>
    destruct e as [thrown|snapshot] eqn:Es end.
  { codes; try discriminate; try tauto; try reflexivity.
    split; [exact Hn|]. right. exists payload, thrown. now rewrite Es. }
  destruct (JS.toString (JS.or (payload "message") (payload "Body")))
    as [thrown|text] eqn:Et.
  { codes; try discriminate; try tauto; try reflexivity.
    split; [exact Hn|]. right. exists payload, thrown. now rewrite Es, Et. }
  rewrite run_Do.
  match goal with |- context [b _ ?c w] => destruct (b _ c w) as [[m|] w1] end.
  all: codes; try discriminate; try tauto.
  all: try (destruct Hc; discriminate).
  all: destruct Hc as [_ [?|(p' & thrown & [= <-] & _ & _ & H')]]; [tauto|];
    rewrite Es, Et in H'; discriminate.
Qed.

Lemma notify_codes {W : Type} (b : backend W) (w : W) (secret : option string)
  (req : NextRequest) :
  let '(resp, _, log) := run b (SmsNotify.POST secret req) w in
  (code resp = 401 <-> secretMissing secret req)
  /\ (code resp = 500
      <-> ~ secretMissing secret req
          /\ ((exists msg, json req = inl msg) \/ notifyUnconvertible req))
  /\ (code resp = 401 \/ code resp = 500 -> log = []).
Proof.
  unfold SmsNotify.POST, secretMissing, notifyUnconvertible, alertMessage.
  pose proof (guard_iff secret (x_webhook_secret req)) as Hg.
  match goal with |- context [if ?c then Ret _ else _] => destruct c end.
  { destruct Hg as [Hg _]. specialize (Hg eq_refl). settle. }
  assert (Hn : ~ (JS.truthy secret = true /\ x_webhook_secret req <> secret))
    by (intros H; apply Hg in H; discriminate).
  clear Hg. destruct (json req) as [msg|j]; [settle|].
  assert (Hparsed : ~ exists msg : string,
            @inr string (string -> JS.value) j = inl msg)
    by (intros [? ?]; discriminate).
  cbv zeta.
  destruct (JS.toBoolean (j "handoff_id")) eqn:Eh; cbn [negb orb].
  2:{ codes; try discriminate; try tauto.
      all: try (destruct Hc; discriminate).
      destruct Hc as [_ [?|(j' & m & [= <-] & ? & _)]]; [tauto|congruence]. }
  destruct (JS.toBoolean (j "priority")) eqn:Ep; cbn [negb].
  2:{ codes; try discriminate; try tauto.
      all: try (destruct Hc; discriminate).
      destruct Hc as [_ [?|(j' & m & [= <-] & _ & ? & _)]]; [tauto|congruence]. }
  destruct (JS.toString (j "priority")) as [thrown|p] eqn:Et.
  { codes; try discriminate; try tauto; try reflexivity.
    split; [exact Hn|]. right. exists j, thrown. repeat split; auto. }
  destruct (String.eqb (JS.toLowerCase p) "high") eqn:Ehigh; cbn [negb].
  2:{ apply String.eqb_neq in Ehigh.
      codes; try discriminate; try tauto.
      all: try (destruct Hc; discriminate).
      destruct Hc as [_ [?|(j' & m & [= <-] & _ & _ & [H'|(p' & H' & Hl & _)])]];
        [tauto|congruence|]. rewrite Et in H'. injection H' as <-.
      contradiction. }
  apply String.eqb_eq in Ehigh.
  match goal with |- context [match ?e with inl _ => Ret _ | inr _ => _ end] =>
    destruct e as [thrown|location] eqn:El end.
  { codes; try discriminate; try tauto; try reflexivity.
    split; [exact Hn|]. right. exists j, thrown. repeat split; auto.
    right. exists p. split; [exact Et|]. split; [exact Ehigh|].
    now rewrite El. }
  destruct (JS.toString (JS.or (j "summary") (JS.VString "")))
    as [thrown|summaryText] eqn:Esum.
  { codes; try discriminate; try tauto; try reflexivity.
    split; [exact Hn|]. right. exists j, thrown. repeat split; auto.
    right. exists p. split; [exact Et|]. split; [exact Ehigh|].
    now rewrite El, Esum. }
  rewrite run_Do.
  match goal with |- context [b _ ?c w] => destruct (b _ c w) as [[m|] w1] end.
  all: codes; try discriminate; try tauto.
  all: try (destruct Hc; discriminate).
  all: destruct Hc
         as [_ [?|(j' & thrown & [= <-] & _ & _ & [H'|(p' & _ & _ & H')])]];
    [tauto|congruence|rewrite El, Esum in H'; discriminate].
Qed.

Lemma inbound_codes {W : Type} (b : backend W) (w : W) (req : NextRequest) :
  let '(resp, _, log) := run b (SmsInbound.POST req) w in
  code resp <> 401
  /\ (code resp = 500 <-> exists msg, SmsInbound.readBody req = inl msg)
  /\ (code resp = 500 -> log = []).
Proof.
  unfold SmsInbound.POST.
  destruct (SmsInbound.readBody req) as [msg|[text from]]; [settle|].
  cbv zeta.
  match goal with |- context [if ?c then Ret _ else _] => destruct c end;
    [settle|].
  rewrite run_Do.
  match goal with |- context [b _ ?c w] => destruct (b _ c w) as [mapRow w1] end.
  match goal with |- context [if ?c then Ret _ else _] => destruct c end;
    [settle|].
  rewrite run_Do.
  match goal with |- context [b _ ?c w1] => destruct (b _ c w1) as [[m|] w2] end;
    settle.
Qed.

(** X27.  Which requests the relay endpoints turn away with 401 and 500,
    whatever the backend answers.  /api/sms/alert and /api/sms/notify
    answer 401 exactly when a secret is configured and the request's
    header does not carry it; the token relay never answers 401.  Each
    answers 500 exactly when the request passes that check and either its
    body cannot be parsed or, the required fields being there, a field
    that the handler writes out as text cannot be converted to a string
    (for the token relay both are the failure of reading the body).  In
    these cases nothing was asked of the backend. *)
Theorem relay_status_codes {W : Type} (b : backend W) (w : W)
  (secret : option string) (req : NextRequest) :
  (let '(resp, _, log) := run b (SmsAlert.POST secret req) w in
   (code resp = 401 <-> secretMissing secret req)
   /\ (code resp = 500
       <-> ~ secretMissing secret req
           /\ ((exists msg, alertPayload req = inl msg)
               \/ alertUnconvertible req))
   /\ (code resp = 401 \/ code resp = 500 -> log = []))
  /\ (let '(resp, _, log) := run b (SmsNotify.POST secret req) w in
      (code resp = 401 <-> secretMissing secret req)
      /\ (code resp = 500
          <-> ~ secretMissing secret req
              /\ ((exists msg, json req = inl msg) \/ notifyUnconvertible req))
      /\ (code resp = 401 \/ code resp = 500 -> log = []))
  /\ (let '(resp, _, log) := run b (SmsInbound.POST req) w in
      code resp <> 401
      /\ (code resp = 500 <-> exists msg, SmsInbound.readBody req = inl msg)
      /\ (code resp = 500 -> log = [])).
Proof.
  split; [apply alert_codes|]. split; [apply notify_codes|apply inbound_codes].
Qed.

Lemma length_append (a b : string) :
  String.length (a ++ b) = (String.length a + String.length b)%nat.
Proof.
  induction a as [|c a IH]; [reflexivity|].
  change (String c a ++ b) with (String c (a ++ b)). cbn [String.length Nat.add].
  now rewrite IH.
Qed.

(** X28.  The audit entry of /api/sms/notify is short whatever the
    summary.  Every row a run inserts is a "system" row without author,
    and its message has at most 159 characters besides the location code
    (which then converts to text): the fixed heading, the bracketed
    location and 120 characters of the summary at most. *)
Theorem notify_message_bounded {W : Type} (b : backend W) (w : W)
  (secret : option string) (req : NextRequest) :
  let rows := omap insertOf (run b (SmsNotify.POST secret req) w).2 in
  match json req with
  | inl _ => rows = []
  | inr j =>
      Forall (fun row =>
        (exists location : string,
           JS.toString (j "location_code") = inr location
           /\ (String.length (ins_message row)
               <= 159 + String.length location)%nat)
        /\ ins_source row = "system"
        /\ ins_author_user_id row = None
        /\ ins_handoff_id row = j "handoff_id") rows
  end.
Proof.
  cbv zeta. unfold SmsNotify.POST.
  match goal with |- context [if ?c then Ret _ else _] => destruct c end.
  { cbn. destruct (json req); [reflexivity|constructor]. }
  destruct (json req) as [msg|j]; [reflexivity|].
  cbv zeta.
  match goal with |- context [if ?c then Ret _ else _] => destruct c end;
    [constructor|].
  destruct (JS.toString (j "priority")) as [thrown|p]; [constructor|].
  match goal with |- context [if ?c then Ret _ else _] => destruct c end;
    [constructor|].
  unfold JS.template.
  destruct (JS.toString (j "location_code")) as [thrown|loc] eqn:El.
  { destruct (JS.toBoolean (j "location_code")) eqn:Eb; [constructor|].
    destruct (j "location_code"); discriminate. }
  match goal with |- context [match ?e with inl _ => Ret _ | inr _ => _ end] =>
    destruct e as [thrown|location] eqn:Eloc end; [constructor|].
  destruct (JS.toString (JS.or (j "summary") (JS.VString "")))
    as [thrown|summaryText]; [constructor|].
  rewrite run_log_Do.
  assert (Hrest : forall W' (b' : backend W') w' (o : option string),
            (run b' (match o with
                     | Some m => Ret (respondWith (Error m) 400)
                     | None => Ret (respond OkAlerted)
                     end) w').2 = []) by (intros ? ? ? [?|]; reflexivity).
  rewrite Hrest. cbn [omap list_omap insertOf projT2 Request].
  constructor; [|constructor]. cbn [ins_message ins_source ins_author_user_id
                                    ins_handoff_id].
  repeat split. exists loc. split; [reflexivity|].
  rewrite !length_append.
  pose proof (slice0_length 120 summaryText) as Hs.
  destruct (JS.toBoolean (j "location_code")).
  - injection Eloc as <-. rewrite !length_append. cbn [String.length]. lia.
  - injection Eloc as <-. cbn [String.length]. lia.
Qed.

(** ** Resolving once *)

(** X29.  On the detail screen a handoff is resolved once.  With the
    button enabled, a signed-in user and a backend that admits the write
    and answers every request, a click on "Mark Resolved" leaves the row
    with status "resolved" and the time of the click, shows the toast,
    and disables the button: a further click, on whatever route, asks
    nothing of the backend and changes nothing. *)
Theorem resolve_then_disabled (w : Hosted.world) (st : Detail.Screen)
  (h h0 : HandoffRow) :
  Detail.buttonEnabled st = true ->
  Detail.handoff st = Some h ->
  id h <> "" ->
  Hosted.handoffs w !! id h = Some h0 ->
  Hosted.may_update w = true ->
  (forall q, Hosted.fault w q = None) ->
  JS.truthy (user_id <$> data (Hosted.session w)) = true ->
  exists (st' : Detail.Screen) (w' : Hosted.world) (log : list request)
         (h' : HandoffRow),
    run Hosted.serve (Detail.clickMarkResolved (Some (id h)) st) w
    = (st', w', log)
    /\ Hosted.handoffs w' !! id h = Some h'
    /\ status h' = Some "resolved"
    /\ last_update_at h' = Some (JS.Num (Hosted.clock w))
    /\ Detail.toast st' = Some Detail.resolvedToast
    /\ Detail.buttonEnabled st' = false
    /\ forall routeId : option string,
         run Hosted.serve (Detail.clickMarkResolved routeId st') w'
         = (st', w', []).
Proof.
  intros Hen Hh Hid Hrow Hok Hf Hsess.
  destruct (markResolved_accepted w st h h0 Hh Hid Hrow Hok Hf Hsess)
    as (st' & w' & log & h' & Hrun & Htab & Hst & Hts & _ & Htoast & _ & Hres & _).
  exists st', w', log, h'. unfold Detail.clickMarkResolved at 1.
  rewrite Hen. split; [exact Hrun|]. repeat split; auto.
  - unfold Detail.buttonEnabled. rewrite Hres, orb_true_r. apply andb_false_r.
  - intros routeId. now apply click_when_resolved.
Qed.

Lemma resolve_then_disabled_witness :
  exists (st' : Detail.Screen) (w' : Hosted.world) (log : list request)
         (h' : HandoffRow),
    run Hosted.serve (Detail.clickMarkResolved (Some "h1") sampleScreen)
      sampleWorld
    = (st', w', log)
    /\ Hosted.handoffs w' !! "h1" = Some h'
    /\ status h' = Some "resolved"
    /\ last_update_at h' = Some (JS.Num 1000)
    /\ Detail.toast st' = Some Detail.resolvedToast
    /\ Detail.buttonEnabled st' = false
    /\ forall routeId : option string,
         run Hosted.serve (Detail.clickMarkResolved routeId st') w'
         = (st', w', []).
Proof.
  apply (resolve_then_disabled sampleWorld sampleScreen
           (row "h1" 10 None (Some "open")) (row "h1" 10 None (Some "open"))).
  - reflexivity.
  - reflexivity.
  - discriminate.
  - reflexivity.
  - reflexivity.
  - reflexivity.
  - reflexivity.
Defined.

(** X30.  What the token relay stores always carries a token.  Whatever
    the request and whatever the backend answers, every row a run inserts
    has source "sms" and no author id, a message without surrounding
    white space that contains the token pattern, and the handoff id the
    token lookup returned, which is not empty. *)
Theorem inbound_rows_carry_token {W : Type} (b : backend W) (w : W)
  (req : NextRequest) :
  Forall (fun row =>
    ins_source row = "sms"
    /\ ins_author_user_id row = None
    /\ JS.trim (ins_message row) = ins_message row
    /\ containsToken (ins_message row)
    /\ JS.toBoolean (ins_handoff_id row) = true)
    (omap insertOf (run b (SmsInbound.POST req) w).2).
Proof.
  unfold SmsInbound.POST.
  destruct (SmsInbound.readBody req) as [msg|[text from]]; [constructor|].
  cbv zeta.
  destruct (SmsInbound.extractToken (JS.trim text)) as [tok|] eqn:Etok;
    [|constructor].
  destruct (extractToken_occurs _ _ Etok) as (pre & post & Hocc).
  destruct (negb (JS.truthy (Some tok))); [constructor|].
  rewrite run_log_Do.
  match goal with |- context [if ?c then Ret _ else _] =>
    destruct c eqn:Emap end; [constructor|].
  apply orb_false_elim in Emap as [_ Emap]. apply negb_false_iff in Emap.
  rewrite run_log_Do.
  assert (Hrest : forall W' (b' : backend W') w' (o : option string),
            (run b' (match o with
                     | Some m => Ret (respondWith (Error m) 400)
                     | None => Ret (respond Ok)
                     end) w').2 = []) by (intros ? ? ? [?|]; reflexivity).
  rewrite Hrest. cbn [omap list_omap insertOf projT2 Request].
  constructor; [|constructor].
  unfold SmsInbound.relayed.
  cbn [ins_source ins_author_user_id ins_message ins_handoff_id].
  split; [reflexivity|]. split; [reflexivity|]. split; [apply trim_trim|].
  split; [now exists pre, tok, post|].
  match type of Emap with JS.truthy ?x = true =>
    destruct x as [[|c s]|]; try discriminate end.
  reflexivity.
Qed.
